(** * makesnapshots.py: retention and replication of EBS snapshots

    A shallow embedding of [src/makesnapshots.py].  The script is a
    straight-line Python program: it validates [sys.argv], lists the
    volumes carrying a tag, and for each volume creates a snapshot,
    optionally copies it to a second region, and prunes old snapshots.

    The provider (boto / boto3) is the environment: it is a record of
    operations over an arbitrary world type [W].  Everything the script
    itself does (prints, log lines, sleeps, provider requests, the module
    level variables and their binding state) is modelled explicitly. *)

From Stdlib Require Import String Ascii List ZArith Lia Bool Permutation.
From Stdlib Require Import DecimalString.
From Stdlib Require OrderedTypeEx Sorted.
Import ListNotations.
Local Open Scope list_scope.
Local Open Scope string_scope.

Set Implicit Arguments.

(** ** Python values used by the script *)

Module Py.

(** [s.startswith(p)] *)
Definition startswith (s p : string) : bool := String.prefix p s.

(** [range(n)]: empty when [n <= 0]. *)
Definition range (n : Z) : list nat := seq 0 (Z.to_nat n).

(** [str(n)] for an [int]. *)
Definition str (n : Z) : string := NilZero.string_of_int (Z.to_int n).

(** Truth value of a [str]: only the empty string is false. *)
Definition truthy (s : string) : bool := negb (s =? EmptyString).

(** Truth value of [config.get(key)]: [None] and [''] are false. *)
Definition truthy_opt (o : option string) : bool :=
  match o with
  | Some s => truthy s
  | None => false
  end.

(** A [dict] from [str] to [str]; [items()] runs in insertion order and
    a key occurs once. *)
Definition dict := list (string * string).

Fixpoint get (d : dict) (k : string) : option string :=
  match d with
  | [] => None
  | (k', v) :: r => if k' =? k then Some v else get r k
  end.

(** [d[k] = v] *)
Fixpoint set (d : dict) (k v : string) : dict :=
  match d with
  | [] => [(k, v)]
  | (k', v') :: r =>
      if k' =? k then (k', v) :: r else (k', v') :: set r k v
  end.

Definition keys (d : dict) : list string := map fst d.

(** [c in s] for a character. *)
Fixpoint contains (c : ascii) (s : string) : bool :=
  match s with
  | EmptyString => false
  | String c' r => Ascii.eqb c' c || contains c r
  end.

Definition hex_digit (n : nat) : ascii :=
  nth n ["0"; "1"; "2"; "3"; "4"; "5"; "6"; "7"; "8"; "9"; "a"; "b"; "c";
         "d"; "e"; "f"]%char "0"%char.

(** One character of [repr(s)] inside the quotes [quote]: the quote and
    the backslash are escaped, tab, newline and carriage return have
    their letter, the other control characters are written in
    hexadecimal.  A string holds the UTF-8 bytes of the text; the bytes
    above 127 are kept, as [repr] keeps the printable characters. *)
Definition repr_char (quote c : ascii) : string :=
  let code := nat_of_ascii c in
  if Ascii.eqb c quote || Ascii.eqb c "\"%char
  then String "\"%char (String c EmptyString)
  else if (code =? 9)%nat then "\t"
  else if (code =? 10)%nat then "\n"
  else if (code =? 13)%nat then "\r"
  else if (code <? 32)%nat || (code =? 127)%nat
  then "\x" ++ String (hex_digit (code / 16))
                 (String (hex_digit (code mod 16)) EmptyString)
  else String c EmptyString.

Fixpoint repr_chars (quote : ascii) (s : string) : string :=
  match s with
  | EmptyString => EmptyString
  | String c r => repr_char quote c ++ repr_chars quote r
  end.

(** [repr(s)] for a [str]: single quotes, or double quotes when the
    text holds a single quote and no double quote. *)
Definition repr_str (s : string) : string :=
  let quote :=
    if contains "'"%char s && negb (contains (ascii_of_nat 34) s)
    then ascii_of_nat 34
    else "'"%char in
  String quote (repr_chars quote s ++ String quote EmptyString).

(** [str(d)] *)
Definition repr_item (kv : string * string) : string :=
  repr_str (fst kv) ++ ": " ++ repr_str (snd kv).

Definition repr (d : dict) : string :=
  "{" ++ String.concat ", " (map repr_item d) ++ "}".

End Py.

(** ** Data model *)

(** A [boto.ec2.snapshot.Snapshot]: the attributes the script reads.
    [start_time] is the provider's ISO-8601 text; Python compares it as
    a [str], that is lexicographically by code point. *)
Record Snapshot := mkSnapshot {
  snap_id : string;
  description : string;
  start_time : string;
  status : string;
  tags : Py.dict
}.

Record Volume := mkVolume { vol_id : string }.

(** The rotation period, [period] in the script: after the validation of
    [sys.argv] it is one of three strings. *)
Inductive Period := Day | Week | Month.

Definition period_name (p : Period) : string :=
  match p with
  | Day => "day"
  | Week => "week"
  | Month => "month"
  end.

(** The entries of [config] the script reads after the connections are
    made. *)
Record Config := mkConfig {
  tag_name : string;
  tag_value : string;
  keep_day : Z;
  keep_week : Z;
  keep_month : Z;
  ec2_region_name : string;
  copy_region_name : option string;
  arn : option string
}.

(** ** Requests to the provider *)

Inductive Call :=
| GetAllVolumes (filter_name filter_value : string)
| GetAllTags (resource_id : string)
| CreateSnapshot (volume : string) (descr : string)
| AddTag (resource_id key value : string)
| UpdateSnapshot (snapshot : string)
| Boto3Client (region : string)
| CopySnapshot (source_region source_snapshot_id descr : string)
| CreateTags (resource : string) (new_tags : list (string * string))
| VolumeSnapshots (volume : string)
| DeleteSnapshot (snap : Snapshot)
| DescribeSnapshots (owner filter_name : string) (values : list string)
| DestDeleteSnapshot (snapshot : string)
| SnsPublish (topic message subject : string).

(** Exceptions.  A rejected request carries the request, as the
    traceback the handlers print shows the failing call.  [SystemExit]
    is what [quit()] raises: the interpreter ends at once, and as no
    code is passed its exit status is 0. *)
Inductive Exn :=
| ProviderError (c : Call) (msg : string)
| NameError (name : string)
| IndexError
| SystemExit.

(** [sys.exc_info()[0]] as [print] shows it.  A rejected request raises
    the error class of the library that made it: the EC2 connection of
    boto ([conn], and the volumes and snapshots it returns), the boto3
    client of the destination region ([dest_conn]), or the SNS
    connection of boto. *)
Definition exn_class (e : Exn) : string :=
  match e with
  | ProviderError (Boto3Client _) _
  | ProviderError (CopySnapshot _ _ _) _
  | ProviderError (CreateTags _ _) _
  | ProviderError (DescribeSnapshots _ _ _) _
  | ProviderError (DestDeleteSnapshot _) _ =>
      "<class 'botocore.exceptions.ClientError'>"
  | ProviderError (SnsPublish _ _ _) _ =>
      "<class 'boto.exception.BotoServerError'>"
  | ProviderError _ _ => "<class 'boto.exception.EC2ResponseError'>"
  | NameError _ => "<class 'NameError'>"
  | IndexError => "<class 'IndexError'>"
  | SystemExit => "<class 'SystemExit'>"
  end.

(** [str(e)] *)
Definition exn_str (e : Exn) : string :=
  match e with
  | ProviderError _ msg => msg
  | NameError n => "name '" ++ n ++ "' is not defined"
  | IndexError => "list index out of range"
  | SystemExit => "None"
  end.

Inductive Level := INFO | ERROR.

(** What a request came back with. *)
Inductive Answer :=
| Done
| Refused (msg : string)
| GotVolumes (l : list Volume)
| GotTags (l : list (string * string))
| GotSnapshot (s : Snapshot)
| GotStatus (s : string)
| GotId (i : string)
| GotSnapshots (l : list Snapshot)
| GotIds (l : list string).

(** What the script does, in order; a request is recorded with its
    answer.  [EvLog] is a call of [logging.info] or [logging.error] made
    by the script: the records the libraries write themselves through
    the root logger are not part of the trace. *)
Inductive Event :=
| EvPrint (line : string)
| EvTraceback (e : Exn)
| EvBasicConfig
| EvLog (level : Level) (text : string)
| EvSleep (seconds : Z)
| EvCall (c : Call) (a : Answer).

(** The answer to a request: a value, or a rejection. *)
Inductive Reply (A : Type) :=
| Ret (a : A)
| Rejected (msg : string).
Arguments Rejected {A} msg.

(** The provider and the clock, over a world [W] they may change. *)
Record Provider (W : Type) := mkProvider {
  strftime : W -> string -> string;
  get_all_volumes : W -> string -> string -> W * Reply (list Volume);
  get_all_tags : W -> string -> W * Reply (list (string * string));
  create_snapshot : W -> string -> string -> W * Reply Snapshot;
  add_tag : W -> string -> string -> string -> W * Reply unit;
  update : W -> string -> W * Reply string;
  boto3_client : W -> string -> W * Reply unit;
  copy_snapshot : W -> string -> string -> string -> W * Reply string;
  create_tags : W -> string -> list (string * string) -> W * Reply unit;
  snapshots : W -> string -> W * Reply (list Snapshot);
  delete : W -> string -> W * Reply unit;
  describe_snapshots :
    W -> string -> string -> list string -> W * Reply (list string);
  delete_snapshot : W -> string -> W * Reply unit;
  publish : W -> string -> string -> string -> W * Reply unit
}.

(** ** Retention: classification and ordering (lines 227-252) *)

(** The [if / elif / else] chain of the classification loop: [true] when
    the snapshot is appended to [deletelist]. *)
Definition is_candidate (period : Period) (sndesc : string) : bool :=
  if Py.startswith sndesc "week_snapshot" && (period_name period =? "week")
  then true
  else if Py.startswith sndesc "day_snapshot" && (period_name period =? "day")
  then true
  else if Py.startswith sndesc "month_snapshot"
          && (period_name period =? "month")
  then true
  else false.

Definition classify (period : Period) (snaps : list Snapshot)
  : list Snapshot :=
  filter (fun snap => is_candidate period (description snap)) snaps.

(** [date_compare], the sort key. *)
Definition date_compare (snapshot : Snapshot) : string :=
  start_time snapshot.

(** [list.sort(key=...)] is stable: elements with equal keys keep their
    order.  A stable sort has one possible result; it is computed here
    by insertion from the right. *)
Section Sort.
Variable A : Type.
Variable key : A -> string.

Fixpoint insert_by (x : A) (l : list A) : list A :=
  match l with
  | [] => [x]
  | y :: r =>
      if String.leb (key x) (key y) then x :: y :: r
      else y :: insert_by x r
  end.

Fixpoint sort_by (l : list A) : list A :=
  match l with
  | [] => []
  | x :: r => insert_by x (sort_by r)
  end.
End Sort.

(** [keep] after the chain on [period] (lines 246-251); the chain has no
    [else], so [None] stands for a name left unbound. *)
Definition keep_of (cfg : Config) (period : Period) : option Z :=
  if period_name period =? "day" then Some (keep_day cfg)
  else if period_name period =? "week" then Some (keep_week cfg)
  else if period_name period =? "month" then Some (keep_month cfg)
  else None.

(** [delta = len(deletelist) - keep] *)
Definition delta_of (deletelist : list Snapshot) (keep : Z) : Z :=
  (Z.of_nat (length deletelist) - keep)%Z.

(** ** The interpreter state *)

(** The module-level variables that outlive one pass of the volume loop,
    the provider's world and the trace of events.  [current_snap] and
    [dest_conn] are [None] while the name is unbound. *)
Record State (W : Type) := mkState {
  world : W;
  trace : list Event;
  message : string;
  errmsg : string;
  total_creates : Z;
  total_copies : Z;
  total_deletes : Z;
  count_errors : Z;
  count_success : Z;
  count_total : Z;
  current_snap : option Snapshot;
  dest_conn : option string
}.

(** How a block of statements ends: normally, by an exception, or not
    within the steps allowed to the completion wait. *)
Inductive Res (A : Type) :=
| Ok (a : A)
| Raise (e : Exn)
| OutOfFuel.
Arguments Raise {A} e.
Arguments OutOfFuel {A}.

Definition M (W A : Type) : Type := State W -> State W * Res A.

Section Monad.
Context {W : Type}.

Definition ret {A} (a : A) : M W A := fun st => (st, Ok a).

Definition bind {A B} (m : M W A) (k : A -> M W B) : M W B :=
  fun st =>
    match m st with
    | (st1, Ok a) => k a st1
    | (st1, Raise e) => (st1, Raise e)
    | (st1, OutOfFuel) => (st1, OutOfFuel)
    end.

Definition raise {A} (e : Exn) : M W A := fun st => (st, Raise e).

Definition out_of_fuel {A} : M W A := fun st => (st, OutOfFuel).

(** [try: body / except ... as e: handler e] *)
Definition try_except {A} (body : M W A) (handler : Exn -> M W A)
  : M W A :=
  fun st =>
    match body st with
    | (st1, Raise e) => handler e st1
    | other => other
    end.

(** [try: body / except: handler e / else: orelse] *)
Definition try_except_else (body : M W unit) (handler : Exn -> M W unit)
  (orelse : M W unit) : M W unit :=
  fun st =>
    match body st with
    | (st1, Ok _) => orelse st1
    | (st1, Raise e) => handler e st1
    | (st1, OutOfFuel) => (st1, OutOfFuel)
    end.

Definition gets {A} (f : State W -> A) : M W A := fun st => (st, Ok (f st)).

Definition modify (f : State W -> State W) : M W unit :=
  fun st => (f st, Ok tt).

Definition emit (e : Event) : M W unit :=
  modify (fun st =>
    mkState (world st) ((trace st ++ [e])%list) (message st) (errmsg st)
      (total_creates st) (total_copies st) (total_deletes st)
      (count_errors st) (count_success st) (count_total st)
      (current_snap st) (dest_conn st)).

(** The state after a request: the world has moved and the request is
    recorded with its answer. *)
Definition answered (st : State W) (w : W) (c : Call) (a : Answer)
  : State W :=
  mkState w ((trace st ++ [EvCall c a])%list) (message st) (errmsg st)
    (total_creates st) (total_copies st) (total_deletes st)
    (count_errors st) (count_success st) (count_total st)
    (current_snap st) (dest_conn st).

(** A request; a rejection is raised as an exception. *)
Definition call {A} (c : Call) (got : A -> Answer) (op : W -> W * Reply A)
  : M W A :=
  fun st =>
    match op (world st) with
    | (w, Ret a) => (answered st w c (got a), Ok a)
    | (w, Rejected msg) =>
        (answered st w c (Refused msg), Raise (ProviderError c msg))
    end.

(** [for x in l: body x] *)
Fixpoint for_each {A} (l : list A) (body : A -> M W unit) : M W unit :=
  match l with
  | [] => ret tt
  | x :: r => bind (body x) (fun _ => for_each r body)
  end.

End Monad.

Declare Scope script_scope.
Delimit Scope script_scope with script.
Notation "x <- m ;; k" := (bind m (fun x => k))
  (at level 100, m at next level, right associativity) : script_scope.
Notation "m ;; k" := (bind m (fun _ => k))
  (at level 100, right associativity) : script_scope.
Local Open Scope script_scope.

(** Assignments to the module-level variables. *)
Section Assign.
Context {W : Type}.

Definition set_message (v : string) : M W unit :=
  modify (fun st =>
    mkState (world st) (trace st) v (errmsg st)
      (total_creates st) (total_copies st) (total_deletes st)
      (count_errors st) (count_success st) (count_total st)
      (current_snap st) (dest_conn st)).

Definition set_errmsg (v : string) : M W unit :=
  modify (fun st =>
    mkState (world st) (trace st) (message st) v
      (total_creates st) (total_copies st) (total_deletes st)
      (count_errors st) (count_success st) (count_total st)
      (current_snap st) (dest_conn st)).

Definition set_total_creates (v : Z) : M W unit :=
  modify (fun st =>
    mkState (world st) (trace st) (message st) (errmsg st)
      v (total_copies st) (total_deletes st)
      (count_errors st) (count_success st) (count_total st)
      (current_snap st) (dest_conn st)).

Definition set_total_copies (v : Z) : M W unit :=
  modify (fun st =>
    mkState (world st) (trace st) (message st) (errmsg st)
      (total_creates st) v (total_deletes st)
      (count_errors st) (count_success st) (count_total st)
      (current_snap st) (dest_conn st)).

Definition set_total_deletes (v : Z) : M W unit :=
  modify (fun st =>
    mkState (world st) (trace st) (message st) (errmsg st)
      (total_creates st) (total_copies st) v
      (count_errors st) (count_success st) (count_total st)
      (current_snap st) (dest_conn st)).

Definition set_count_errors (v : Z) : M W unit :=
  modify (fun st =>
    mkState (world st) (trace st) (message st) (errmsg st)
      (total_creates st) (total_copies st) (total_deletes st)
      v (count_success st) (count_total st)
      (current_snap st) (dest_conn st)).

Definition set_count_success (v : Z) : M W unit :=
  modify (fun st =>
    mkState (world st) (trace st) (message st) (errmsg st)
      (total_creates st) (total_copies st) (total_deletes st)
      (count_errors st) v (count_total st)
      (current_snap st) (dest_conn st)).

Definition set_count_total (v : Z) : M W unit :=
  modify (fun st =>
    mkState (world st) (trace st) (message st) (errmsg st)
      (total_creates st) (total_copies st) (total_deletes st)
      (count_errors st) (count_success st) v
      (current_snap st) (dest_conn st)).

Definition set_current_snap (v : Snapshot) : M W unit :=
  modify (fun st =>
    mkState (world st) (trace st) (message st) (errmsg st)
      (total_creates st) (total_copies st) (total_deletes st)
      (count_errors st) (count_success st) (count_total st)
      (Some v) (dest_conn st)).

Definition set_dest_conn (v : string) : M W unit :=
  modify (fun st =>
    mkState (world st) (trace st) (message st) (errmsg st)
      (total_creates st) (total_copies st) (total_deletes st)
      (count_errors st) (count_success st) (count_total st)
      (current_snap st) (Some v)).

(** Reading a name that may be unbound. *)
Definition read_current_snap : M W Snapshot :=
  fun st =>
    match current_snap st with
    | Some s => (st, Ok s)
    | None => (st, Raise (NameError "current_snap"))
    end.

Definition read_dest_conn : M W string :=
  fun st =>
    match dest_conn st with
    | Some c => (st, Ok c)
    | None => (st, Raise (NameError "dest_conn"))
    end.

Definition print (line : string) : M W unit := emit (EvPrint line).
Definition logging_info (text : string) : M W unit := emit (EvLog INFO text).
Definition logging_error (text : string) : M W unit :=
  emit (EvLog ERROR text).
Definition sleep (seconds : Z) : M W unit := emit (EvSleep seconds).

End Assign.

(** ** The script *)

Definition nl : string := String (ascii_of_nat 10) EmptyString.
Definition dquote : string := String (ascii_of_nat 34) EmptyString.

(** The provider's tag list as the [dict] built by lines 147-150. *)
Definition non_reserved (acc : Py.dict) (tag : string * string) : Py.dict :=
  if negb (Py.startswith (fst tag) "aws:")
  then Py.set acc (fst tag) (snd tag)
  else acc.

(** The test of line 156. *)
Definition needs_tag (resource : Snapshot) (tag_key tag_value : string)
  : bool :=
  match Py.get (tags resource) tag_key with
  | None => true
  | Some v => negb (v =? tag_value)
  end.

Definition with_status (s : Snapshot) (v : string) : Snapshot :=
  mkSnapshot (snap_id s) (description s) (start_time s) v (tags s).

Definition with_tag (s : Snapshot) (k v : string) : Snapshot :=
  mkSnapshot (snap_id s) (description s) (start_time s) (status s)
    (Py.set (tags s) k v).

(** [tags_volume.get('Name') or current_snap.id] *)
Definition name_or (tags_volume : Py.dict) (fallback : string) : string :=
  match Py.get tags_volume "Name" with
  | Some v => if Py.truthy v then v else fallback
  | None => fallback
  end.

Section Script.
Context {W : Type}.
Variable P : Provider W.
Variable cfg : Config.
(** The number of status requests allowed to one completion wait. *)
Variable fuel : nat.

Definition today (fmt : string) : M W string :=
  gets (fun st => strftime P (world st) fmt).

(** [get_resource_tags] (lines 143-151) *)
Definition get_resource_tags (resource_id : string) : M W Py.dict :=
  if Py.truthy resource_id then
    tags <- call (GetAllTags resource_id) GotTags
              (fun w => get_all_tags P w resource_id) ;;
    ret (fold_left non_reserved tags [])
  else ret [].

(** [resource.add_tag(key, value)]: the request, then the object's own
    [tags] are updated.  The one resource the script tags is the object
    bound to [current_snap]. *)
Definition resource_add_tag (tag_key tag_value : string) : M W unit :=
  resource <- read_current_snap ;;
  call (AddTag (snap_id resource) tag_key tag_value) (fun _ => Done)
    (fun w => add_tag P w (snap_id resource) tag_key tag_value) ;;
  resource <- read_current_snap ;;
  set_current_snap (with_tag resource tag_key tag_value).

(** The body of the loop of [set_resource_tags] (lines 156-162). *)
Definition set_resource_tag (item : string * string) : M W unit :=
  let tag_key := fst item in
  let tag_value := snd item in
  resource <- read_current_snap ;;
  if needs_tag resource tag_key tag_value then
    print ("Tagging " ++ snap_id resource ++ " with [" ++ tag_key
           ++ ": " ++ tag_value ++ "]") ;;
    resource_add_tag tag_key tag_value
  else ret tt.

(** [set_resource_tags(current_snap, tags)] (lines 154-162) *)
Definition set_resource_tags (tags : Py.dict) : M W unit :=
  for_each tags set_resource_tag.

(** The handler shared by the creation and the copy step. *)
Definition log_unexpected (e : Exn) : M W unit :=
  print ("Unexpected error: " ++ exn_class e) ;;
  emit (EvTraceback e) ;;
  logging_error (exn_str e).

(** The completion wait (lines 196-201); [n] status requests are
    allowed to it. *)
Fixpoint wait_completed (n : nat) : M W unit :=
  snap <- read_current_snap ;;
  if status snap =? "completed" then ret tt
  else
    match n with
    | O => out_of_fuel
    | S n' =>
        sleep 5 ;;
        snap <- read_current_snap ;;
        new_status <- call (UpdateSnapshot (snap_id snap)) GotStatus
                        (fun w => update P w (snap_id snap)) ;;
        set_current_snap (with_status snap new_status) ;;
        snap <- read_current_snap ;;
        print ("     " ++ status snap) ;;
        wait_completed n'
    end.

Section Loop.
Variable period : Period.
Variable date_suffix : string.

(** Lines 180-190. *)
Definition create_step (vol : Volume) (tags_volume : Py.dict)
  (descr : string) : M W unit :=
  try_except
    (snap <- call (CreateSnapshot (vol_id vol) descr) GotSnapshot
               (fun w => create_snapshot P w (vol_id vol) descr) ;;
     set_current_snap snap ;;
     set_resource_tags tags_volume ;;
     let suc_message :=
       "Snapshot created with description: " ++ descr
       ++ " and tags: " ++ Py.repr tags_volume in
     print ("     " ++ suc_message) ;;
     logging_info suc_message ;;
     n <- gets (@total_creates W) ;;
     set_total_creates (n + 1)%Z)
    log_unexpected.

(** Lines 212-219: the tags of the copy and the report of the copy. *)
Definition tag_copy (copied_snap region : string) (tags_volume : Py.dict)
  : M W unit :=
  _ <- read_dest_conn ;;
  snap <- read_current_snap ;;
  let new_tags :=
    [("source_snapshot_id", snap_id snap);
     ("Name", name_or tags_volume (snap_id snap))] in
  call (CreateTags copied_snap new_tags) (fun _ => Done)
    (fun w => create_tags P w copied_snap new_tags) ;;
  let suc_message := "Snapshot copied to " ++ region in
  print ("     " ++ suc_message) ;;
  logging_info suc_message ;;
  n <- gets (@total_copies W) ;;
  set_total_copies (n + 1)%Z.

(** Lines 203-219: the client of the destination region, the copy
    request and the tags of the copy. *)
Definition ship_snapshot (region : string) (tags_volume : Py.dict)
  (descr : string) : M W unit :=
  call (Boto3Client region) (fun _ => Done)
    (fun w => boto3_client P w region) ;;
  set_dest_conn region ;;
  _ <- read_dest_conn ;;
  snap <- read_current_snap ;;
  let copy_descr :=
    "[Copied from " ++ ec2_region_name cfg ++ "] " ++ descr in
  copied_snap <-
    call (CopySnapshot (ec2_region_name cfg) (snap_id snap) copy_descr)
      GotId
      (fun w => copy_snapshot P w (ec2_region_name cfg) (snap_id snap)
                  copy_descr) ;;
  tag_copy copied_snap region tags_volume.

(** Lines 193-223. *)
Definition copy_step (tags_volume : Py.dict) (descr : string)
  : M W unit :=
  if Py.truthy_opt (copy_region_name cfg) then
    let region :=
      match copy_region_name cfg with
      | Some r => r
      | None => EmptyString
      end in
    try_except
      (wait_completed fuel ;;
       ship_snapshot region tags_volume descr)
      log_unexpected
  else ret tt.

(** The classification loop (lines 226-236): the candidates are
    appended to [deletelist], the others are logged. *)
Fixpoint classify_loop (snaps deletelist : list Snapshot)
  : M W (list Snapshot) :=
  match snaps with
  | [] => ret deletelist
  | snap :: rest =>
      let sndesc := description snap in
      if is_candidate period sndesc
      then classify_loop rest ((deletelist ++ [snap])%list)
      else
        logging_info ("     Skipping, not added to deletelist: "
                      ++ sndesc) ;;
        classify_loop rest deletelist
  end.

(** One pass of the deletion loop (lines 254-271). *)
Definition delete_with_cascade (deletelist : list Snapshot) (i : nat)
  : M W unit :=
  snap <- match nth_error deletelist i with
          | Some s => ret s
          | None => raise IndexError
          end ;;
  let del_message := "     Deleting snapshot " ++ description snap in
  logging_info del_message ;;
  call (DeleteSnapshot snap) (fun _ => Done)
    (fun w => delete P w (snap_id snap)) ;;
  _ <- read_dest_conn ;;
  logging_info ("     Deleting snapshots copies sourced from the "
                ++ "original snapshot: " ++ snap_id snap) ;;
  copied_vols <-
    call (DescribeSnapshots "self" "tag:source_snapshot_id"
            [snap_id snap]) GotIds
      (fun w => describe_snapshots P w "self" "tag:source_snapshot_id"
                  [snap_id snap]) ;;
  for_each copied_vols (fun copied_vol =>
    logging_info ("     Deleting copied snapshot: " ++ copied_vol) ;;
    call (DestDeleteSnapshot copied_vol) (fun _ => Done)
      (fun w => delete_snapshot P w copied_vol)) ;;
  n <- gets (@total_deletes W) ;;
  set_total_deletes (n + 1)%Z.

(** Lines 238-272: the candidates are logged and sorted, and the
    oldest in excess of [keep] are deleted. *)
Definition prune (deletelist : list Snapshot) : M W unit :=
  for_each deletelist (fun snap =>
    logging_info ("Snapshot:" ++ snap_id snap) ;;
    logging_info (start_time snap)) ;;
  let deletelist := sort_by date_compare deletelist in
  keep <- match keep_of cfg period with
          | Some k => ret k
          | None => raise (NameError "keep")
          end ;;
  let delta := delta_of deletelist keep in
  for_each (Py.range delta) (delete_with_cascade deletelist) ;;
  sleep 3.

(** Lines 225-272. *)
Definition retention_step (vol : Volume) : M W unit :=
  snaps <- call (VolumeSnapshots (vol_id vol)) GotSnapshots
             (fun w => snapshots P w (vol_id vol)) ;;
  deletelist <- classify_loop snaps [] ;;
  prune deletelist.

(** Lines 171-179: the volume is counted and logged, its tags are
    fetched and the description of the new snapshot is built. *)
Definition describe_volume (vol : Volume) : M W (Py.dict * string) :=
  n <- gets (@count_total W) ;;
  set_count_total (n + 1)%Z ;;
  logging_info ("Volume:" ++ vol_id vol) ;;
  tags_volume <- get_resource_tags (vol_id vol) ;;
  date <- today "%d-%m-%Y %H:%M:%S" ;;
  let descr :=
    period_name period ++ "_snapshot " ++ vol_id vol ++ "_"
    ++ period_name period ++ "_" ++ date_suffix
    ++ " by snapshot script at " ++ date in
  ret (tags_volume, descr).

(** Lines 171-223: the new snapshot and its copy. *)
Definition snapshot_step (vol : Volume) : M W unit :=
  described <- describe_volume vol ;;
  create_step vol (fst described) (snd described) ;;
  copy_step (fst described) (snd described).

(** The [try] block of the volume loop (lines 171-272). *)
Definition volume_body (vol : Volume) : M W unit :=
  snapshot_step vol ;;
  retention_step vol.

Definition volume_error_text (vol : Volume) : string :=
  "Error in processing volume with id: " ++ vol_id vol.

(** The [except:] clause of the volume loop (lines 273-278). *)
Definition volume_failed (vol : Volume) (e : Exn) : M W unit :=
  print ("Unexpected error: " ++ exn_class e) ;;
  emit (EvTraceback e) ;;
  logging_error (volume_error_text vol) ;;
  m <- gets (@errmsg W) ;;
  set_errmsg (m ++ volume_error_text vol) ;;
  n <- gets (@count_errors W) ;;
  set_count_errors (n + 1)%Z.

(** One pass of the volume loop (lines 169-280). *)
Definition process_volume (vol : Volume) : M W unit :=
  try_except_else (volume_body vol) (volume_failed vol)
    (n <- gets (@count_success W) ;;
     set_count_success (n + 1)%Z).

Definition volume_loop (vols : list Volume) : M W unit :=
  for_each vols process_volume.

End Loop.

(** [result] (lines 282-286). *)
Definition result_text (date : string) (ok total : Z) : string :=
  nl ++ "Finished making snapshots at " ++ date ++ " with "
  ++ Py.str ok ++ " snapshots of " ++ Py.str total ++ " possible."
  ++ nl ++ nl.

(** What lines 288-292 append to [message]. *)
Definition totals_text (result : string) (creates copies errors deletes : Z)
  : string :=
  result
  ++ nl ++ "Total snapshots created: " ++ Py.str creates
  ++ nl ++ "Total snapshots copied: " ++ Py.str copies
  ++ nl ++ "Total snapshots errors: " ++ Py.str errors
  ++ nl ++ "Total snapshots deleted: " ++ Py.str deletes ++ nl.

(** The notifications (lines 298-301). *)
Definition sns_reporting (m : string) : M W unit :=
  if Py.truthy_opt (arn cfg) then
    let sns_arn := match arn cfg with Some a => a | None => EmptyString end in
    err <- gets (@errmsg W) ;;
    (if Py.truthy err then
       call (SnsPublish sns_arn ("Error in processing volumes: " ++ err)
               "Error with AWS Snapshot") (fun _ => Done)
         (fun w => publish P w sns_arn
                     ("Error in processing volumes: " ++ err)
                     "Error with AWS Snapshot")
     else ret tt) ;;
    call (SnsPublish sns_arn m "Finished AWS snapshotting")
      (fun _ => Done)
      (fun w => publish P w sns_arn m "Finished AWS snapshotting")
  else ret tt.

(** The summary and the notifications (lines 282-303). *)
Definition summary : M W unit :=
  date <- today "%d-%m-%Y %H:%M:%S" ;;
  ok <- gets (@count_success W) ;;
  total <- gets (@count_total W) ;;
  let result := result_text date ok total in
  creates <- gets (@total_creates W) ;;
  copies <- gets (@total_copies W) ;;
  errors <- gets (@count_errors W) ;;
  deletes <- gets (@total_deletes W) ;;
  m <- gets (@message W) ;;
  set_message (m ++ totals_text result creates copies errors deletes) ;;
  m <- gets (@message W) ;;
  print (nl ++ m ++ nl) ;;
  print result ;;
  sns_reporting m ;;
  logging_info result.

(** The validation of [sys.argv] (lines 38-53); [quit()] raises
    [SystemExit]. *)
Definition validate_argv (argv : list string) : M W (Period * string) :=
  if (length argv <? 2)%nat then
    print "Please add a positional argument: day, week or month." ;;
    raise SystemExit
  else
    let arg := nth 1 argv EmptyString in
    if arg =? "day" then
      date_suffix <- today "%a" ;; ret (Day, date_suffix)
    else if arg =? "week" then
      date_suffix <- today "%U" ;; ret (Week, date_suffix)
    else if arg =? "month" then
      date_suffix <- today "%b" ;; ret (Month, date_suffix)
    else
      print "Please use the parameter day, week or month" ;;
      raise SystemExit.

(** The whole script.  Lines 77-140 (credentials, proxies and the two
    connections) are represented by what they print; the connections
    themselves are the provider [P]. *)
Definition main (argv : list string) : M W unit :=
  checked <- validate_argv argv ;;
  let period := fst checked in
  let date_suffix := snd checked in
  emit EvBasicConfig ;;
  date <- today "%d-%m-%Y %H:%M:%S" ;;
  let start_message :=
    "Started taking " ++ period_name period ++ " snapshots at " ++ date in
  m <- gets (@message W) ;;
  set_message (m ++ start_message ++ nl ++ nl) ;;
  logging_info start_message ;;
  print "Connecting to AWS" ;;
  (if Py.truthy_opt (arn cfg) then print "Connecting to SNS" else ret tt) ;;
  print ("Finding volumes that match the requested tag ({ " ++ dquote
         ++ "tag:" ++ tag_name cfg ++ dquote ++ ": " ++ dquote
         ++ tag_value cfg ++ dquote ++ " })") ;;
  vols <- call (GetAllVolumes ("tag:" ++ tag_name cfg) (tag_value cfg))
            GotVolumes
            (fun w => get_all_volumes P w ("tag:" ++ tag_name cfg)
                        (tag_value cfg)) ;;
  volume_loop period date_suffix vols ;;
  summary.

End Script.

(** The state at line 38: nothing printed, the counters at zero and the
    loop's names unbound. *)
Definition initial {W : Type} (w : W) : State W :=
  mkState w [] EmptyString EmptyString 0 0 0 0 0 0 None None.

(** ** The credentials and the connections (lines 77-140, 203-209) *)

(** The entries of [config] read by lines 77-140; [None] is Python's
    [None]. *)
Record Access := mkAccess {
  iam_role_arn : option string;
  aws_access_key : option string;
  aws_secret_key : option string;
  ec2_region_endpoint : option string;
  proxyHost : option string;
  proxyPort : option string
}.

(** [assumedRoleObject['Credentials']] *)
Record Credentials := mkCredentials {
  AccessKeyId : string;
  SecretAccessKey : string;
  SessionToken : string
}.

(** [aws_access_key], [aws_secret_key] and [security_token] after
    line 89. *)
Record Login := mkLogin {
  access_key : option string;
  secret_key : option string;
  security_token : option string
}.

(** Lines 78-89; [assume_role] stands for [sts.assume_role], called with
    the role. *)
Definition login (a : Access) (assume_role : string -> Reply Credentials)
  : Reply Login :=
  if Py.truthy_opt (iam_role_arn a) then
    match assume_role (match iam_role_arn a with
                       | Some r => r
                       | None => EmptyString
                       end) with
    | Ret c =>
        Ret (mkLogin (Some (AccessKeyId c)) (Some (SecretAccessKey c))
               (Some (SessionToken c)))
    | Rejected msg => Rejected msg
    end
  else Ret (mkLogin (aws_access_key a) (aws_secret_key a) None).

(** The arguments a connection is made with; [None] for one that is not
    passed, or passed as [None]. *)
Record Connection := mkConnection {
  region_name : option string;
  endpoint : option string;
  key_id : option string;
  secret : option string;
  token : option string;
  proxy : option string;
  proxy_port : option string
}.

(** [conn] (lines 108-121). *)
Definition ec2_connection (cfg : Config) (a : Access) (l : Login)
  : Connection :=
  let name := Some (ec2_region_name cfg) in
  let endpoint := ec2_region_endpoint a in
  if Py.truthy_opt (proxyHost a) then
    if Py.truthy_opt (access_key l)
    then mkConnection name endpoint (access_key l) (secret_key l)
           (security_token l) (proxyHost a) (proxyPort a)
    else mkConnection name endpoint None None None (proxyHost a)
           (proxyPort a)
  else
    if Py.truthy_opt (access_key l)
    then mkConnection name endpoint (access_key l) (secret_key l)
           (security_token l) None None
    else mkConnection name endpoint None None None None None.

(** [sns] (lines 124-140); the name is bound when a topic is
    configured. *)
Definition sns_connection (cfg : Config) (a : Access) (l : Login)
  : option Connection :=
  let name := Some (ec2_region_name cfg) in
  if Py.truthy_opt (arn cfg) then
    Some
      (if Py.truthy_opt (proxyHost a) then
         if Py.truthy_opt (access_key l)
         then mkConnection name None (access_key l) (secret_key l)
                (security_token l) (proxyHost a) (proxyPort a)
         else mkConnection name None None None None (proxyHost a)
                (proxyPort a)
       else
         if Py.truthy_opt (access_key l)
         then mkConnection name None (access_key l) (secret_key l) None
                None None
         else mkConnection name None None None None None None)
  else None.

(** The arguments of [boto3.client] for [dest_conn] (lines 203-209). *)
Definition destination_client (cfg : Config) (l : Login) : Connection :=
  mkConnection (copy_region_name cfg) None (access_key l) (secret_key l)
    (security_token l) None None.

(** ** A provider double

    A small simulated provider, for running the script on concrete
    inputs: two snapshot stores (the source and the destination region),
    the volumes and their tags, and faults to inject. *)

Module Double.

Record DestSnapshot := mkDest {
  dest_id : string;
  owned_by_self : bool;
  dest_tags : list (string * string)
}.

Record Cloud := mkCloud {
  volumes : list Volume;
  volume_tags : list (string * list (string * string));
  source : list (string * Snapshot);
  destination : list DestSnapshot;
  (** volumes whose [create_snapshot] is rejected *)
  broken_create : list string;
  (** status requests still answered [pending]; [None]: all of them *)
  pending : option nat;
  created : nat;
  now : string
}.

Definition mem (x : string) (l : list string) : bool :=
  existsb (String.eqb x) l.

Definition lookup {A} (k : string) (l : list (string * A)) : option A :=
  option_map snd (find (fun kv => fst kv =? k) l).

Definition c_strftime (c : Cloud) (fmt : string) : string := now c.

Definition c_get_all_volumes (c : Cloud) (n v : string)
  : Cloud * Reply (list Volume) := (c, Ret (volumes c)).

Definition c_get_all_tags (c : Cloud) (rid : string)
  : Cloud * Reply (list (string * string)) :=
  (c, Ret (match lookup rid (volume_tags c) with
           | Some l => l
           | None => []
           end)).

Definition c_create_snapshot (c : Cloud) (vid descr : string)
  : Cloud * Reply Snapshot :=
  if mem vid (broken_create c) then (c, Rejected "SnapshotLimitExceeded")
  else
    let snap :=
      mkSnapshot ("snap-" ++ Py.str (Z.of_nat (created c))) descr (now c)
        "pending" [] in
    (mkCloud (volumes c) (volume_tags c)
       ((source c ++ [(vid, snap)])%list)
       (destination c) (broken_create c) (pending c) (S (created c))
       (now c),
     Ret snap).

Definition c_add_tag (c : Cloud) (rid k v : string) : Cloud * Reply unit :=
  (c, Ret tt).

Definition c_update (c : Cloud) (sid : string) : Cloud * Reply string :=
  match pending c with
  | None => (c, Ret "pending")
  | Some O => (c, Ret "completed")
  | Some (S n) =>
      (mkCloud (volumes c) (volume_tags c) (source c) (destination c)
         (broken_create c) (Some n) (created c) (now c),
       Ret "pending")
  end.

Definition c_boto3_client (c : Cloud) (region : string)
  : Cloud * Reply unit := (c, Ret tt).

Definition c_copy_snapshot (c : Cloud) (region sid descr : string)
  : Cloud * Reply string :=
  let cid := "copy-" ++ Py.str (Z.of_nat (created c)) in
  (mkCloud (volumes c) (volume_tags c) (source c)
     ((destination c ++ [mkDest cid true []])%list)
     (broken_create c) (pending c) (S (created c)) (now c),
   Ret cid).

Definition c_create_tags (c : Cloud) (rid : string)
  (new_tags : list (string * string)) : Cloud * Reply unit :=
  (mkCloud (volumes c) (volume_tags c) (source c)
     (map (fun d =>
             if dest_id d =? rid
             then mkDest (dest_id d) (owned_by_self d)
                    (fold_left (fun acc kv => Py.set acc (fst kv) (snd kv))
                       new_tags (dest_tags d))
             else d)
        (destination c))
     (broken_create c) (pending c) (created c) (now c),
   Ret tt).

Definition c_snapshots (c : Cloud) (vid : string)
  : Cloud * Reply (list Snapshot) :=
  (c, Ret (map snd (filter (fun e => fst e =? vid) (source c)))).

Definition c_delete (c : Cloud) (sid : string) : Cloud * Reply unit :=
  (mkCloud (volumes c) (volume_tags c)
     (filter (fun e => negb (snap_id (snd e) =? sid)) (source c))
     (destination c) (broken_create c) (pending c) (created c) (now c),
   Ret tt).

(** The provider's filter: the snapshots of the given owner whose tag
    under the filter's key is one of the values. *)
Definition matches (owner filter_name : string) (values : list string)
  (d : DestSnapshot) : bool :=
  (if owner =? "self" then owned_by_self d else true)
  && existsb (fun kv =>
                (("tag:" ++ fst kv) =? filter_name) && mem (snd kv) values)
       (dest_tags d).

Definition c_describe_snapshots (c : Cloud) (owner filter_name : string)
  (values : list string) : Cloud * Reply (list string) :=
  (c, Ret (map dest_id
             (filter (matches owner filter_name values) (destination c)))).

Definition c_delete_snapshot (c : Cloud) (sid : string)
  : Cloud * Reply unit :=
  (mkCloud (volumes c) (volume_tags c) (source c)
     (filter (fun d => negb (dest_id d =? sid)) (destination c))
     (broken_create c) (pending c) (created c) (now c),
   Ret tt).

Definition c_publish (c : Cloud) (topic msg subject : string)
  : Cloud * Reply unit := (c, Ret tt).

Definition provider : Provider Cloud :=
  mkProvider c_strftime c_get_all_volumes c_get_all_tags c_create_snapshot
    c_add_tag c_update c_boto3_client c_copy_snapshot c_create_tags
    c_snapshots c_delete c_describe_snapshots c_delete_snapshot c_publish.

End Double.

(** ** A provider with outages

    The provider double, with some of its operations out of service:
    a request to one of them is rejected and changes nothing. *)

Module Faulty.
Import Double.

Inductive Op :=
| OpVolumes | OpTags | OpCreate | OpAddTag | OpUpdate | OpClient | OpCopy
| OpCreateTags | OpSnapshots | OpDelete | OpDescribe | OpDestDelete
| OpPublish.

Definition same_op (a b : Op) : bool :=
  match a, b with
  | OpVolumes, OpVolumes | OpTags, OpTags | OpCreate, OpCreate
  | OpAddTag, OpAddTag | OpUpdate, OpUpdate | OpClient, OpClient
  | OpCopy, OpCopy | OpCreateTags, OpCreateTags | OpSnapshots, OpSnapshots
  | OpDelete, OpDelete | OpDescribe, OpDescribe
  | OpDestDelete, OpDestDelete | OpPublish, OpPublish => true
  | _, _ => false
  end.

Definition unless {A} (down : list Op) (o : Op) (c : Cloud)
  (answer : Cloud * Reply A) : Cloud * Reply A :=
  if existsb (same_op o) down then (c, Rejected "ServiceUnavailable"%string)
  else answer.

Definition provider (down : list Op) : Provider Cloud :=
  mkProvider c_strftime
    (fun c n v => unless down OpVolumes c (c_get_all_volumes c n v))
    (fun c rid => unless down OpTags c (c_get_all_tags c rid))
    (fun c vid descr => unless down OpCreate c (c_create_snapshot c vid descr))
    (fun c rid k v => unless down OpAddTag c (c_add_tag c rid k v))
    (fun c sid => unless down OpUpdate c (c_update c sid))
    (fun c region => unless down OpClient c (c_boto3_client c region))
    (fun c region sid descr =>
       unless down OpCopy c (c_copy_snapshot c region sid descr))
    (fun c rid new_tags =>
       unless down OpCreateTags c (c_create_tags c rid new_tags))
    (fun c vid => unless down OpSnapshots c (c_snapshots c vid))
    (fun c sid => unless down OpDelete c (c_delete c sid))
    (fun c owner filter_name values =>
       unless down OpDescribe c
         (c_describe_snapshots c owner filter_name values))
    (fun c sid => unless down OpDestDelete c (c_delete_snapshot c sid))
    (fun c topic msg subject =>
       unless down OpPublish c (c_publish c topic msg subject)).

End Faulty.

(** ** Concrete inputs *)

Module Sample.
Import Double.

(** No destination region. *)
Definition plain : Config :=
  mkConfig "Backup" "yes" 3 2 1 "eu-west-1" None None.

(** A destination region. *)
Definition replicated : Config :=
  mkConfig "Backup" "yes" 3 2 1 "eu-west-1" (Some "us-east-1") None.

Definition three_volumes : list Volume :=
  [mkVolume "vol-1"; mkVolume "vol-2"; mkVolume "vol-3"].

(** Three volumes without snapshots; [create_snapshot] is rejected for
    the second one. *)
Definition second_broken : Cloud :=
  mkCloud three_volumes [] [] [] ["vol-2"] (Some 0%nat) 0 "2021-01-01".

(** Two volumes, [create_snapshot] rejected for both. *)
Definition both_broken : Cloud :=
  mkCloud [mkVolume "vol-1"; mkVolume "vol-2"] [] [] []
    ["vol-1"; "vol-2"] (Some 0%nat) 0 "2021-01-01".

Definition old (day : string) : Snapshot :=
  mkSnapshot ("snap-old-" ++ day) ("day_snapshot vol-1_day_" ++ day)
    ("2020-01-0" ++ day) "completed" [].

(** One volume with five daily snapshots, listed out of order. *)
Definition five_old : Cloud :=
  mkCloud [mkVolume "vol-1"] [("vol-1", [("Name", "db")])]
    [("vol-1", old "1"); ("vol-1", old "3"); ("vol-1", old "2");
     ("vol-1", old "5"); ("vol-1", old "4")]
    [] [] (Some 1%nat) 0 "2021-01-01".

(** A snapshot that never completes. *)
Definition never_completes : Cloud :=
  mkCloud [mkVolume "vol-1"] [] [] [] [] None 0 "2021-01-01".

Definition argv_day : list string := ["makesnapshots.py"; "day"].
Definition argv_year : list string := ["makesnapshots.py"; "year"].

Definition candidates : list Snapshot :=
  [old "1"; old "3"; old "2"; old "5"; old "4"].

(** A new snapshot with one tag, and the tags of its volume. *)
Definition resource : Snapshot :=
  mkSnapshot "snap-0" "day_snapshot vol-1_day_Fri" "2021-01-01" "pending"
    [("Name", "old")].

Definition tags_of_volume : Py.dict := [("Name", "db"); ("Env", "prod")].

Definition tagging_state : State Cloud :=
  mkState five_old [] EmptyString EmptyString 0 0 0 0 0 0 (Some resource)
    None.

Definition waiting_state : State Cloud :=
  mkState never_completes [] EmptyString EmptyString 0 0 0 0 0 0
    (Some resource) None.

(** A destination region with a copy of [old "1"], a copy of another
    snapshot, and a snapshot of another owner. *)
Definition with_copies : Cloud :=
  mkCloud [mkVolume "vol-1"] [] [("vol-1", old "1")]
    [mkDest "copy-a" true [("source_snapshot_id", "snap-old-1")];
     mkDest "copy-b" true [("source_snapshot_id", "snap-old-2")];
     mkDest "copy-c" false [("source_snapshot_id", "snap-old-1")]]
    [] (Some 0%nat) 0 "2021-01-01".

Definition cascade_state : State Cloud :=
  mkState with_copies [] EmptyString EmptyString 0 0 0 0 0 0 None
    (Some "us-east-1").

(** A destination region, and nothing is kept. *)
Definition purge : Config :=
  mkConfig "Backup" "yes" 0 0 0 "eu-west-1" (Some "us-east-1") None.

(** One volume without snapshots. *)
Definition empty_volume : Cloud :=
  mkCloud [mkVolume "vol-1"] [] [] [] [] (Some 1%nat) 0 "2021-01-01".

(** The date suffix the double's clock gives. *)
Definition suffix : string := "2021-01-01".

End Sample.

(** ** More concrete inputs *)

Module Cases.
Import Double.

(** A volume with a reserved tag among its tags. *)
Definition tagged_volume : Cloud :=
  mkCloud [mkVolume "vol-1"%string]
    [("vol-1", [("Name", "db"); ("aws:cloudformation:stack-name", "prod");
                ("Env", "prod"); ("Name", "db-2")])]%string
    [] [] [] (Some 0%nat) 0 "2021-01-01"%string.

(** A topic for the notifications, and no destination region. *)
Definition notified : Config :=
  mkConfig "Backup" "yes" 3 2 1 "eu-west-1" None
    (Some "arn:aws:sns:eu-west-1:1:backup")%string.

(** A negative number of snapshots to keep. *)
Definition negative : Config :=
  mkConfig "Backup" "yes" (-1) (-1) (-1) "eu-west-1" None None%string.

(** Nothing carries the tag. *)
Definition no_volumes : Cloud :=
  mkCloud [] [] [] [] [] (Some 0%nat) 0 "2021-01-01"%string.

(** A state in which one volume has failed. *)
Definition after_failure : State Cloud :=
  mkState Sample.five_old [] "Started"%string
    "Error in processing volume with id: vol-1"%string 0 0 0 1 0 1 None None.

(** A volume with five daily snapshots whose [create_snapshot] is
    rejected. *)
Definition broken_history : Cloud :=
  mkCloud [mkVolume "vol-1"%string] []
    (map (fun s => ("vol-1"%string, s)) Sample.candidates)
    [] ["vol-1"%string] (Some 0%nat) 0 "2021-01-01"%string.


(** The tags of [tagged_volume]. *)
Definition listed_tags : list (string * string) :=
  [("Name", "db"); ("aws:cloudformation:stack-name", "prod");
   ("Env", "prod"); ("Name", "db-2")]%string.

(** The description the script gives on the double's clock. *)
Definition description_of (vol period : string) : string :=
  (period ++ "_snapshot " ++ vol ++ "_" ++ period
   ++ "_2021-01-01 by snapshot script at 2021-01-01")%string.

(** A role to assume, and the credentials it gives. *)
Definition with_role : Access :=
  mkAccess (Some "arn:aws:iam::1:role/backup"%string) None None None None
    None.

Definition temporary : Credentials :=
  mkCredentials "ASIAEXAMPLE" "secret" "session".

End Cases.

(** * Properties *)

Local Open Scope list_scope.

(** ** Ordering of creation times *)

Lemma leb_refl (a : string) : String.leb a a = true.
Proof. destruct (String.leb_total a a); assumption. Qed.

Lemma leb_trans (a b c : string) :
  String.leb a b = true -> String.leb b c = true -> String.leb a c = true.
Proof.
  unfold String.leb. intros Hab Hbc.
  destruct (String.compare a b) eqn:Eab; try discriminate.
  - apply String.compare_eq_iff in Eab. subst b. exact Hbc.
  - destruct (String.compare b c) eqn:Ebc; try discriminate.
    + apply String.compare_eq_iff in Ebc. subst c. rewrite Eab. reflexivity.
    + apply OrderedTypeEx.String_as_OT.cmp_lt in Eab, Ebc.
      pose proof (@OrderedTypeEx.String_as_OT.lt_trans _ _ _ Eab Ebc) as Hac.
      apply OrderedTypeEx.String_as_OT.cmp_lt in Hac.
      unfold OrderedTypeEx.String_as_OT.cmp in Hac. rewrite Hac. reflexivity.
Qed.

Lemma leb_false_flip (a b : string) :
  String.leb a b = false -> String.leb b a = true.
Proof.
  intros H. destruct (String.leb_total a b) as [H1 | H1]; congruence.
Qed.

(** ** The stable sort *)

Section SortFacts.
Variable A : Type.
Variable key : A -> string.

Definition key_le (a b : A) : Prop := String.leb (key a) (key b) = true.

Lemma insert_by_perm (x : A) (l : list A) :
  Permutation (insert_by key x l) (x :: l).
Proof.
  induction l as [| y r IH]; simpl.
  - apply Permutation_refl.
  - destruct (String.leb (key x) (key y)).
    + apply Permutation_refl.
    + apply perm_trans with (y :: x :: r).
      * apply perm_skip. exact IH.
      * apply perm_swap.
Qed.

Lemma sort_by_perm (l : list A) : Permutation (sort_by key l) l.
Proof.
  induction l as [| x r IH]; simpl.
  - apply perm_nil.
  - apply perm_trans with (x :: sort_by key r).
    + apply insert_by_perm.
    + apply perm_skip. exact IH.
Qed.

Lemma sort_by_length (l : list A) : length (sort_by key l) = length l.
Proof. apply Permutation_length, sort_by_perm. Qed.

Lemma insert_by_sorted (x : A) (l : list A) :
  Sorted.StronglySorted key_le l ->
  Sorted.StronglySorted key_le (insert_by key x l).
Proof.
  induction 1 as [| y r Hr IH Hy]; simpl.
  - constructor; constructor.
  - destruct (String.leb (key x) (key y)) eqn:E.
    + constructor.
      * constructor; assumption.
      * constructor; [exact E |].
        rewrite Forall_forall in Hy |- *. intros z Hz.
        unfold key_le. apply leb_trans with (key y); [exact E |].
        apply Hy, Hz.
    + constructor; [exact IH |].
      rewrite Forall_forall in Hy |- *. intros z Hz.
      apply (Permutation_in _ (insert_by_perm x r)) in Hz.
      destruct Hz as [<- | Hz].
      * apply leb_false_flip, E.
      * apply Hy, Hz.
Qed.

Lemma sort_by_sorted (l : list A) :
  Sorted.StronglySorted key_le (sort_by key l).
Proof.
  induction l as [| x r IH]; simpl.
  - constructor.
  - apply insert_by_sorted, IH.
Qed.

(** Stability: among the elements with a given key the order of the
    input is kept. *)
Lemma insert_by_stable (t : string) (x : A) (l : list A) :
  Forall (fun y => key y = t -> String.leb (key x) (key y) = true
                   \/ key x <> t) l ->
  filter (fun y => key y =? t)%string (insert_by key x l)
  = filter (fun y => key y =? t)%string (x :: l).
Proof.
  induction l as [| y r IH]; intros _; [reflexivity |].
  simpl. destruct (String.leb (key x) (key y)) eqn:E; [reflexivity |].
  simpl. rewrite IH by (apply Forall_forall; intros z _ Hz;
                        destruct (string_dec (key x) t) as [Hx | Hx];
                        [left; rewrite Hx, Hz; apply leb_refl
                        | right; exact Hx]).
  simpl.
  destruct (String.eqb_spec (key x) t) as [Hx | Hx];
    destruct (String.eqb_spec (key y) t) as [Hy | Hy]; try reflexivity.
  rewrite Hx, Hy, leb_refl in E. discriminate.
Qed.

Lemma sort_by_stable (t : string) (l : list A) :
  filter (fun y => key y =? t)%string (sort_by key l)
  = filter (fun y => key y =? t)%string l.
Proof.
  induction l as [| x r IH]; [reflexivity |].
  simpl sort_by. rewrite insert_by_stable.
  - simpl. rewrite IH. reflexivity.
  - apply Forall_forall. intros z _ Hz.
    destruct (string_dec (key x) t) as [Hx | Hx].
    + left. rewrite Hx, Hz. apply leb_refl.
    + right. exact Hx.
Qed.

(** In a sorted list every element of a prefix is at most every
    element of the rest. *)
Lemma sorted_split (l : list A) (n : nat) :
  Sorted.StronglySorted key_le l ->
  forall a b, In a (firstn n l) -> In b (skipn n l) -> key_le a b.
Proof.
  intros Hs. revert n.
  induction Hs as [| y r Hr IH Hy]; intros n a b Ha Hb.
  - destruct n; simpl in Ha; contradiction.
  - destruct n as [| n]; simpl in Ha, Hb; [contradiction |].
    destruct Ha as [<- | Ha].
    + rewrite Forall_forall in Hy. apply Hy.
      rewrite <- (firstn_skipn n r). apply in_or_app. right. exact Hb.
    + apply (IH n); assumption.
Qed.

End SortFacts.

(** ** Reasoning about blocks of statements *)

(** The part of a trace a selector picks. *)
Definition proj {X : Type} (sel : Event -> list X) (tr : list Event)
  : list X := flat_map sel tr.

Lemma proj_app {X} (sel : Event -> list X) (a b : list Event) :
  proj sel (a ++ b) = proj sel a ++ proj sel b.
Proof. apply flat_map_app. Qed.

Lemma proj_snoc {X} (sel : Event -> list X) (a : list Event) (e : Event) :
  proj sel (a ++ [e]) = proj sel a ++ sel e.
Proof. rewrite proj_app. simpl. rewrite app_nil_r. reflexivity. Qed.

Section Blocks.
Context {W : Type}.
Implicit Types st : State W.

(** [f] has the same value after the block as before. *)
Definition preserves {A X} (f : State W -> X) (m : M W A) : Prop :=
  forall st, f (fst (m st)) = f st.

(** The block raises only exceptions in [Q]. *)
Definition raises_only {A} (Q : Exn -> Prop) (m : M W A) : Prop :=
  forall st e, snd (m st) = Raise e -> Q e.

(** The block ends, normally or by an exception. *)
Definition ends {A} (m : M W A) : Prop :=
  forall st, snd (m st) <> OutOfFuel.

Lemma preserves_ret {A X} (f : State W -> X) (a : A) : preserves f (ret a).
Proof. intro st. reflexivity. Qed.

Lemma preserves_raise {A X} (f : State W -> X) (e : Exn) :
  preserves f (@raise W A e).
Proof. intro st. reflexivity. Qed.

Lemma preserves_out_of_fuel {A X} (f : State W -> X) :
  preserves f (@out_of_fuel W A).
Proof. intro st. reflexivity. Qed.

Lemma preserves_gets {A X} (f : State W -> X) (g : State W -> A) :
  preserves f (gets g).
Proof. intro st. reflexivity. Qed.

Lemma preserves_bind {A B X} (f : State W -> X) (m : M W A)
  (k : A -> M W B) :
  preserves f m -> (forall a, preserves f (k a)) -> preserves f (bind m k).
Proof.
  intros Hm Hk st. unfold bind. specialize (Hm st).
  destruct (m st) as [st1 [a | e |]]; simpl in *; try assumption.
  rewrite Hk. assumption.
Qed.

Lemma preserves_try_except {A X} (f : State W -> X) (m : M W A)
  (h : Exn -> M W A) :
  preserves f m -> (forall e, preserves f (h e)) ->
  preserves f (try_except m h).
Proof.
  intros Hm Hh st. unfold try_except. specialize (Hm st).
  destruct (m st) as [st1 [a | e |]]; simpl in *; try assumption.
  rewrite Hh. assumption.
Qed.

Lemma preserves_try_except_else {X} (f : State W -> X) (m : M W unit)
  (h : Exn -> M W unit) (orelse : M W unit) :
  preserves f m -> (forall e, preserves f (h e)) -> preserves f orelse ->
  preserves f (try_except_else m h orelse).
Proof.
  intros Hm Hh Ho st. unfold try_except_else. specialize (Hm st).
  destruct (m st) as [st1 [a | e |]]; simpl in *; try assumption.
  - rewrite Ho. assumption.
  - rewrite Hh. assumption.
Qed.

Lemma preserves_bind_ret {A B X} (f : State W -> X) (a : A)
  (k : A -> M W B) :
  preserves f (k a) -> preserves f (bind (ret a) k).
Proof. intros H st. exact (H st). Qed.

Lemma preserves_for_each {A X} (f : State W -> X) (l : list A)
  (body : A -> M W unit) :
  (forall a, preserves f (body a)) -> preserves f (for_each l body).
Proof.
  intros Hb. induction l as [| x r IH]; simpl.
  - apply preserves_ret.
  - apply preserves_bind; [apply Hb | intros _; exact IH].
Qed.

Lemma preserves_read_current_snap {X} (f : State W -> X) :
  preserves f read_current_snap.
Proof.
  intro st. unfold read_current_snap.
  destruct (current_snap st); reflexivity.
Qed.

Lemma preserves_read_dest_conn {X} (f : State W -> X) :
  preserves f read_dest_conn.
Proof.
  intro st. unfold read_dest_conn. destruct (dest_conn st); reflexivity.
Qed.

(** A selection of the trace is kept by what emits nothing selected. *)
Lemma proj_emit {X} (sel : Event -> list X) (e : Event) :
  sel e = [] -> preserves (fun st => proj sel (trace st)) (emit e).
Proof.
  intros He st. simpl. rewrite proj_snoc, He. apply app_nil_r.
Qed.

Lemma proj_call {X A} (sel : Event -> list X) (c : Call)
  (got : A -> Answer) (op : W -> W * Reply A) :
  (forall a, sel (EvCall c a) = []) ->
  preserves (fun st => proj sel (trace st)) (call c got op).
Proof.
  intros Hc st. unfold call.
  destruct (op (world st)) as [w [a | msg]]; simpl;
    rewrite proj_snoc, Hc; apply app_nil_r.
Qed.

Lemma raises_only_ret {A} Q (a : A) : raises_only Q (@ret W A a).
Proof. intros st e H. discriminate. Qed.

Lemma raises_only_raise {A} (Q : Exn -> Prop) (e : Exn) :
  Q e -> raises_only Q (@raise W A e).
Proof. intros He st e' H. simpl in H. injection H as <-. exact He. Qed.

Lemma raises_only_bind {A B} Q (m : M W A) (k : A -> M W B) :
  raises_only Q m -> (forall a, raises_only Q (k a)) ->
  raises_only Q (bind m k).
Proof.
  intros Hm Hk st e. unfold bind. specialize (Hm st).
  destruct (m st) as [st1 [a | e1 |]]; simpl in *.
  - apply Hk.
  - intros H. injection H as <-. apply Hm. reflexivity.
  - discriminate.
Qed.

Lemma raises_only_try_except {A} Q (m : M W A) (h : Exn -> M W A) :
  (forall e, raises_only Q (h e)) -> raises_only Q (try_except m h).
Proof.
  intros Hh st e. unfold try_except.
  destruct (m st) as [st1 [a | e1 |]]; simpl; try discriminate.
  apply Hh.
Qed.

Lemma raises_only_for_each {A} Q (l : list A) (body : A -> M W unit) :
  (forall a, raises_only Q (body a)) -> raises_only Q (for_each l body).
Proof.
  intros Hb. induction l as [| x r IH]; simpl.
  - apply raises_only_ret.
  - apply raises_only_bind; [apply Hb | intros _; exact IH].
Qed.

Lemma raises_only_modify Q (g : State W -> State W) :
  raises_only Q (modify g).
Proof. intros st e H. discriminate. Qed.

Lemma raises_only_gets {A} Q (g : State W -> A) : raises_only Q (gets g).
Proof. intros st e H. discriminate. Qed.

Lemma raises_only_call {A} (Q : Exn -> Prop) (c : Call)
  (got : A -> Answer) (op : W -> W * Reply A) :
  (forall msg, Q (ProviderError c msg)) -> raises_only Q (call c got op).
Proof.
  intros Hc st e. unfold call.
  destruct (op (world st)) as [w [a | msg]]; simpl; intros H.
  - discriminate.
  - injection H as <-. apply Hc.
Qed.

Lemma raises_only_read_current_snap (Q : Exn -> Prop) :
  Q (NameError "current_snap") -> raises_only Q (@read_current_snap W).
Proof.
  intros HQ st e. unfold read_current_snap.
  destruct (current_snap st); simpl; intros H.
  - discriminate.
  - injection H as <-. exact HQ.
Qed.

Lemma raises_only_read_dest_conn (Q : Exn -> Prop) :
  Q (NameError "dest_conn") -> raises_only Q (@read_dest_conn W).
Proof.
  intros HQ st e. unfold read_dest_conn.
  destruct (dest_conn st); simpl; intros H.
  - discriminate.
  - injection H as <-. exact HQ.
Qed.

Lemma ends_ret {A} (a : A) : ends (@ret W A a).
Proof. intros st H. discriminate. Qed.

Lemma ends_raise {A} (e : Exn) : ends (@raise W A e).
Proof. intros st H. discriminate. Qed.

Lemma ends_modify (g : State W -> State W) : ends (modify g).
Proof. intros st H. discriminate. Qed.

Lemma ends_gets {A} (g : State W -> A) : ends (gets g).
Proof. intros st H. discriminate. Qed.

Lemma ends_call {A} (c : Call) (got : A -> Answer)
  (op : W -> W * Reply A) : ends (call c got op).
Proof.
  intros st. unfold call.
  destruct (op (world st)) as [w [a | msg]]; simpl; discriminate.
Qed.

Lemma ends_read_current_snap : ends (@read_current_snap W).
Proof.
  intros st. unfold read_current_snap.
  destruct (current_snap st); simpl; discriminate.
Qed.

Lemma ends_read_dest_conn : ends (@read_dest_conn W).
Proof.
  intros st. unfold read_dest_conn.
  destruct (dest_conn st); simpl; discriminate.
Qed.

Lemma ends_bind {A B} (m : M W A) (k : A -> M W B) :
  ends m -> (forall a, ends (k a)) -> ends (bind m k).
Proof.
  intros Hm Hk st. unfold bind. specialize (Hm st).
  destruct (m st) as [st1 [a | e |]]; simpl in *.
  - apply Hk.
  - discriminate.
  - exfalso. apply Hm. reflexivity.
Qed.

Lemma ends_try_except {A} (m : M W A) (h : Exn -> M W A) :
  ends m -> (forall e, ends (h e)) -> ends (try_except m h).
Proof.
  intros Hm Hh st. unfold try_except. specialize (Hm st).
  destruct (m st) as [st1 [a | e |]]; simpl in *.
  - discriminate.
  - apply Hh.
  - exfalso. apply Hm. reflexivity.
Qed.

Lemma ends_for_each {A} (l : list A) (body : A -> M W unit) :
  (forall a, ends (body a)) -> ends (for_each l body).
Proof.
  intros Hb. induction l as [| x r IH]; simpl.
  - apply ends_ret.
  - apply ends_bind; [apply Hb | intros _; exact IH].
Qed.

End Blocks.

(** ** Frames of the script's blocks *)

Section Frames.
Context {W : Type}.
Variable P : Provider W.

Lemma preserves_call {A X} (f : State W -> X) (c : Call)
  (got : A -> Answer) (op : W -> W * Reply A) :
  (forall st w a, f (answered st w c a) = f st) ->
  preserves f (call c got op).
Proof.
  intros Hf st. unfold call.
  destruct (op (world st)) as [w [a | msg]]; simpl; apply Hf.
Qed.

Lemma preserves_wait_completed {X} (f : State W -> X) (n : nat) :
  preserves f (@sleep W 5) ->
  (forall i, preserves f
               (call (UpdateSnapshot i) GotStatus (fun w => update P w i))) ->
  (forall s, preserves f (@set_current_snap W s)) ->
  (forall l, preserves f (@print W l)) ->
  preserves f (wait_completed P n).
Proof.
  intros Hs Hu Hc Hp.
  induction n as [| n IH]; simpl;
    (apply preserves_bind; [apply preserves_read_current_snap | intro s]);
    (destruct (status s =? "completed")%string; [apply preserves_ret |]).
  - apply preserves_out_of_fuel.
  - repeat first
      [ apply preserves_bind; [| intro]
      | apply preserves_read_current_snap
      | apply Hs | apply Hu | apply Hc | apply Hp | exact IH ].
Qed.

Lemma preserves_classify_loop {X} (f : State W -> X) (period : Period)
  (snaps acc : list Snapshot) :
  (forall l, preserves f (@logging_info W l)) ->
  preserves f (classify_loop period snaps acc).
Proof.
  intros Hl. revert acc. induction snaps as [| s r IH]; intros acc; simpl.
  - apply preserves_ret.
  - destruct (is_candidate period (description s)); [apply IH |].
    apply preserves_bind; [apply Hl | intros _; apply IH].
Qed.

End Frames.

Ltac head_of t :=
  lazymatch t with
  | ?f _ => head_of f
  | _ => t
  end.

(** One step of a frame proof: a fact at hand, else by the shape of the
    block, else by unfolding the block. *)
Ltac frame_shape :=
  lazymatch goal with
  | |- preserves _ (bind _ _) => apply preserves_bind; [| intro]
  | |- preserves _ (try_except _ _) => apply preserves_try_except; [| intro]
  | |- preserves _ (for_each _ _) => apply preserves_for_each; intro
  | |- preserves _ (ret _) => apply preserves_ret
  | |- preserves _ (raise _) => apply preserves_raise
  | |- preserves _ (gets _) => apply preserves_gets
  | |- preserves _ read_current_snap => apply preserves_read_current_snap
  | |- preserves _ read_dest_conn => apply preserves_read_dest_conn
  | |- preserves _ (wait_completed _ _) =>
      apply preserves_wait_completed; intros
  | |- preserves _ (classify_loop _ _ _) =>
      apply preserves_classify_loop; intros
  | |- preserves _ (if ?b then _ else _) =>
      first [ match goal with H : b = _ |- _ => rewrite H end | destruct b ]
  | |- preserves _ (match ?x with _ => _ end) => destruct x
  | |- preserves (fun st => proj _ (trace st)) (emit _) =>
      apply proj_emit; try reflexivity
  | |- preserves (fun st => proj _ (trace st)) (print _) =>
      apply proj_emit; try reflexivity
  | |- preserves (fun st => proj _ (trace st)) (logging_info _) =>
      apply proj_emit; try reflexivity
  | |- preserves (fun st => proj _ (trace st)) (logging_error _) =>
      apply proj_emit; try reflexivity
  | |- preserves (fun st => proj _ (trace st)) (sleep _) =>
      apply proj_emit; try reflexivity
  | |- preserves (fun st => proj _ (trace st)) (call _ _ _) =>
      apply proj_call; try (intro; reflexivity)
  | |- preserves _ (call _ _ _) =>
      apply preserves_call; intros; reflexivity
  end.

Ltac frame_step :=
  cbv beta zeta;
  first
    [ match goal with
      | H : _ |- preserves _ _ => solve [apply H]
      end
    | frame_shape
    | lazymatch goal with
      | |- preserves _ ?m => solve [intro; reflexivity]
      end
    | lazymatch goal with
      | |- preserves _ ?m => let h := head_of m in progress unfold h
      end ].

Ltac frame := repeat frame_step.

Section FrameFacts.
Context {W : Type}.
Variable P : Provider W.
Variable cfg : Config.
Variable fuel : nat.
Variable period : Period.
Variable date_suffix : string.

Lemma body_keeps_count_errors (vol : Volume) :
  preserves (@count_errors W)
    (volume_body P cfg fuel period date_suffix vol).
Proof. frame. Qed.

Lemma body_keeps_count_success (vol : Volume) :
  preserves (@count_success W)
    (volume_body P cfg fuel period date_suffix vol).
Proof. frame. Qed.

Lemma body_keeps_errmsg (vol : Volume) :
  preserves (@errmsg W) (volume_body P cfg fuel period date_suffix vol).
Proof. frame. Qed.

End FrameFacts.

(** ** States that differ by what was recorded *)

(** [st] with more events recorded and nothing else changed. *)
Definition record {W : Type} (st : State W) (evs : list Event) : State W :=
  mkState (world st) (trace st ++ evs) (message st) (errmsg st)
    (total_creates st) (total_copies st) (total_deletes st)
    (count_errors st) (count_success st) (count_total st)
    (current_snap st) (dest_conn st).

Lemma record_nil {W} (st : State W) : record st [] = st.
Proof. destruct st. unfold record. simpl. rewrite app_nil_r. reflexivity. Qed.

Lemma record_record {W} (st : State W) (a b : list Event) :
  record (record st a) b = record st (a ++ b).
Proof. unfold record. simpl. rewrite app_assoc. reflexivity. Qed.

Lemma emit_record {W} (e : Event) (st : State W) :
  emit e st = (record st [e], Ok tt).
Proof. reflexivity. Qed.

(** ** Validation of the command line *)

(** C6.  When the period argument is missing, or is not one of [day],
    [week], [month], the script prints a usage line and ends by
    [SystemExit]: the trace holds that one line, so no request was made
    and no log entry written, and the world is untouched. *)
Theorem argv_rejected {W} (P : Provider W) (cfg : Config) (fuel : nat)
  (argv : list string) (w : W) :
  (length argv < 2)%nat
  \/ ~ In (nth 1 argv EmptyString) ["day"; "week"; "month"]%string ->
  exists usage,
    main P cfg fuel argv (initial w)
    = (record (initial w) [EvPrint usage], Raise SystemExit)
    /\ (usage = "Please add a positional argument: day, week or month."
        \/ usage = "Please use the parameter day, week or month")%string.
Proof.
  intros H. unfold main, validate_argv.
  destruct (length argv <? 2)%nat eqn:E.
  - eexists. split; [reflexivity | left; reflexivity].
  - destruct H as [H | H]; [apply Nat.ltb_ge in E; lia |].
    cbv zeta.
    destruct (nth 1 argv EmptyString =? "day")%string eqn:E1;
      [apply String.eqb_eq in E1; exfalso; apply H; rewrite E1; simpl; auto |].
    destruct (nth 1 argv EmptyString =? "week")%string eqn:E2;
      [apply String.eqb_eq in E2; exfalso; apply H; rewrite E2; simpl; auto |].
    destruct (nth 1 argv EmptyString =? "month")%string eqn:E3;
      [apply String.eqb_eq in E3; exfalso; apply H; rewrite E3; simpl; auto |].
    eexists. split; [reflexivity | right; reflexivity].
Qed.

(** ** Classification *)

Lemma is_candidate_prefix (period : Period) (sndesc : string) :
  is_candidate period sndesc
  = Py.startswith sndesc (period_name period ++ "_snapshot").
Proof.
  unfold is_candidate.
  destruct period; simpl period_name; cbn [String.eqb Ascii.eqb Bool.eqb];
    cbn [append];
    rewrite ?andb_false_r, ?andb_true_r;
    repeat match goal with
           | |- context [if ?b then true else _] => destruct b
           end; reflexivity.
Qed.

(** The log line of a snapshot that is not a candidate. *)
Definition skipped (snap : Snapshot) : Event :=
  EvLog INFO ("     Skipping, not added to deletelist: " ++ description snap).

Lemma classify_loop_spec {W} (period : Period) (snaps acc : list Snapshot)
  (st : State W) :
  classify_loop period snaps acc st
  = (record st
       (map skipped
          (filter (fun s => negb (is_candidate period (description s)))
             snaps)),
     Ok (acc ++ classify period snaps)).
Proof.
  revert acc st. induction snaps as [| s r IH]; intros acc st; simpl.
  - rewrite record_nil, app_nil_r. reflexivity.
  - destruct (is_candidate period (description s)); simpl.
    + rewrite IH, <- app_assoc. reflexivity.
    + unfold bind, logging_info. rewrite emit_record, IH, record_record.
      reflexivity.
Qed.

(** ** Tag propagation *)

#[local] Arguments String.append : simpl never.

Lemma get_set_same (d : Py.dict) (k v : string) :
  Py.get (Py.set d k v) k = Some v.
Proof.
  induction d as [| [k' v'] r IH]; simpl.
  - rewrite String.eqb_refl. reflexivity.
  - destruct (k' =? k)%string eqn:E; simpl; rewrite E; auto.
Qed.

Lemma get_set_other (d : Py.dict) (k k' v : string) :
  k <> k' -> Py.get (Py.set d k' v) k = Py.get d k.
Proof.
  intros Hk. induction d as [| [k0 v0] r IH]; simpl.
  - destruct (String.eqb_spec k' k); [congruence | reflexivity].
  - destruct (String.eqb_spec k0 k') as [-> | Hne]; simpl.
    + destruct (String.eqb_spec k' k); [congruence | reflexivity].
    + destruct (k0 =? k)%string; [reflexivity | exact IH].
Qed.

(** The resource after one pass of the loop of [set_resource_tags]. *)
Definition tag_once (r : Snapshot) (item : string * string) : Snapshot :=
  if needs_tag r (fst item) (snd item)
  then with_tag r (fst item) (snd item)
  else r.

Definition tagged (r : Snapshot) (tags : Py.dict) : Snapshot :=
  fold_left tag_once tags r.

(** The tagging requests in a trace. *)
Definition tagging (ev : Event) : list Call :=
  match ev with
  | EvCall (AddTag i k v) _ => [AddTag i k v]
  | _ => []
  end.

(** The requests of a run of [set_resource_tags] on [r]. *)
Fixpoint tag_requests (r : Snapshot) (tags : Py.dict) : list Call :=
  match tags with
  | [] => []
  | item :: rest =>
      (if needs_tag r (fst item) (snd item)
       then [AddTag (snap_id r) (fst item) (snd item)]
       else [])
      ++ tag_requests (tag_once r item) rest
  end.

Lemma tag_once_id (r : Snapshot) (item : string * string) :
  snap_id (tag_once r item) = snap_id r.
Proof. unfold tag_once. destruct (needs_tag _ _ _); reflexivity. Qed.

Lemma tag_once_get_same (r : Snapshot) (item : string * string) :
  Py.get (tags (tag_once r item)) (fst item) = Some (snd item).
Proof.
  unfold tag_once, needs_tag.
  destruct (Py.get (tags r) (fst item)) as [v |] eqn:E; simpl.
  - destruct (String.eqb_spec v (snd item)) as [-> | Hne]; simpl.
    + exact E.
    + apply get_set_same.
  - apply get_set_same.
Qed.

Lemma tag_once_get_other (r : Snapshot) (item : string * string)
  (k : string) :
  k <> fst item -> Py.get (tags (tag_once r item)) k = Py.get (tags r) k.
Proof.
  intros Hk. unfold tag_once.
  destruct (needs_tag _ _ _); simpl; [apply get_set_other; exact Hk |].
  reflexivity.
Qed.

Lemma tagged_get_other (tgs : Py.dict) (r : Snapshot) (k : string) :
  ~ In k (Py.keys tgs) -> Py.get (tags (tagged r tgs)) k = Py.get (tags r) k.
Proof.
  revert r. induction tgs as [| item rest IH]; intros r Hk; simpl.
  - reflexivity.
  - simpl in Hk. unfold tagged in *. simpl. rewrite IH by tauto.
    apply tag_once_get_other. intros ->. tauto.
Qed.

Lemma tagged_has_all (tgs : Py.dict) (r : Snapshot) :
  NoDup (Py.keys tgs) ->
  forall item, In item tgs ->
    needs_tag (tagged r tgs) (fst item) (snd item) = false.
Proof.
  revert r. induction tgs as [| it rest IH]; intros r Hnd item Hin.
  - contradiction.
  - simpl in Hnd. inversion Hnd as [| ? ? Hnotin Hrest]; subst.
    unfold tagged in *. simpl. destruct Hin as [-> | Hin].
    + unfold needs_tag.
      change (fold_left tag_once rest (tag_once r item))
        with (tagged (tag_once r item) rest).
      rewrite tagged_get_other by exact Hnotin.
      rewrite tag_once_get_same, String.eqb_refl. reflexivity.
    + apply IH; assumption.
Qed.

Lemma tag_requests_filter (tgs : Py.dict) (r : Snapshot) :
  NoDup (Py.keys tgs) ->
  tag_requests r tgs
  = map (fun item => AddTag (snap_id r) (fst item) (snd item))
      (filter (fun item => needs_tag r (fst item) (snd item)) tgs).
Proof.
  revert r. induction tgs as [| it rest IH]; intros r Hnd; [reflexivity |].
  simpl in Hnd. inversion Hnd as [| ? ? Hnotin Hrest]; subst.
  simpl. rewrite IH by exact Hrest. rewrite tag_once_id.
  assert (Hf : filter (fun item => needs_tag (tag_once r it) (fst item)
                                     (snd item)) rest
               = filter (fun item => needs_tag r (fst item) (snd item))
                   rest).
  { apply filter_ext_in. intros item Hin. unfold needs_tag.
    rewrite tag_once_get_other; [reflexivity |].
    intros Heq. apply Hnotin. rewrite <- Heq. apply in_map. exact Hin. }
  rewrite Hf. destruct (needs_tag r (fst it) (snd it)); reflexivity.
Qed.

Section Tagging.
Context {W : Type}.
Variable P : Provider W.

Lemma set_resource_tag_run (item : string * string) (r : Snapshot)
  (st st1 : State W) :
  current_snap st = Some r ->
  set_resource_tag P item st = (st1, Ok tt) ->
  current_snap st1 = Some (tag_once r item)
  /\ proj tagging (trace st1)
     = proj tagging (trace st) ++ tag_requests r [item].
Proof.
  intros Hcur.
  unfold set_resource_tag, tag_once, bind, read_current_snap, print,
    resource_add_tag, bind, read_current_snap, call, emit, modify.
  rewrite Hcur. cbn.
  destruct (needs_tag r (fst item) (snd item)); cbn; rewrite ?Hcur; cbn.
  - match goal with
    | |- context [add_tag P ?w ?i ?k ?v] =>
        destruct (add_tag P w i k v) as [w' [[] | msg]]
    end; cbn; rewrite ?Hcur; cbn; intros H; [| discriminate].
    injection H as <-. cbn. split; [reflexivity |].
    rewrite <- app_assoc, proj_app. reflexivity.
  - intros H. injection H as <-. split; [exact Hcur |].
    cbn. rewrite app_nil_r. reflexivity.
Qed.

Lemma set_resource_tags_run (tgs : Py.dict) (r : Snapshot)
  (st st1 : State W) :
  current_snap st = Some r ->
  set_resource_tags P tgs st = (st1, Ok tt) ->
  current_snap st1 = Some (tagged r tgs)
  /\ proj tagging (trace st1)
     = proj tagging (trace st) ++ tag_requests r tgs.
Proof.
  unfold set_resource_tags. revert r st.
  induction tgs as [| item rest IH]; intros r st Hcur Hrun; simpl in Hrun.
  - injection Hrun as <-. simpl. rewrite app_nil_r. auto.
  - unfold bind in Hrun.
    destruct (set_resource_tag P item st) as [st0 [[] | e |]] eqn:E;
      try discriminate.
    destruct (set_resource_tag_run item st Hcur E) as [Hc0 Hp0].
    destruct (IH _ _ Hc0 Hrun) as [Hc1 Hp1].
    split; [exact Hc1 |].
    rewrite Hp1, Hp0. simpl. rewrite app_nil_r, <- app_assoc. reflexivity.
Qed.

Lemma set_resource_tags_noop (tgs : Py.dict) (r : Snapshot) (st : State W) :
  current_snap st = Some r ->
  (forall item, In item tgs -> needs_tag r (fst item) (snd item) = false) ->
  set_resource_tags P tgs st = (st, Ok tt).
Proof.
  intros Hcur. unfold set_resource_tags.
  induction tgs as [| item rest IH]; intros Hall; simpl; [reflexivity |].
  unfold bind, set_resource_tag, bind, read_current_snap.
  rewrite Hcur, (Hall item (or_introl eq_refl)). simpl.
  apply IH. intros it Hit. apply Hall. right. exact Hit.
Qed.

(** C7.  A run of [set_resource_tags] that returns has requested a tag
    exactly for the entries absent from the resource or present with
    another value, and a second run with the same tags changes nothing:
    it records no event, so it makes no request. *)
Theorem tag_propagation_idempotent (tgs : Py.dict) (r : Snapshot)
  (st st1 : State W) :
  NoDup (Py.keys tgs) ->
  current_snap st = Some r ->
  set_resource_tags P tgs st = (st1, Ok tt) ->
  proj tagging (trace st1)
  = proj tagging (trace st)
    ++ map (fun item => AddTag (snap_id r) (fst item) (snd item))
         (filter (fun item => needs_tag r (fst item) (snd item)) tgs)
  /\ set_resource_tags P tgs st1 = (st1, Ok tt).
Proof.
  intros Hnd Hcur Hrun.
  destruct (set_resource_tags_run tgs st Hcur Hrun) as [Hc Hp].
  split.
  - rewrite Hp, tag_requests_filter by exact Hnd. reflexivity.
  - apply set_resource_tags_noop with (r := tagged r tgs); [exact Hc |].
    apply tagged_has_all. exact Hnd.
Qed.

End Tagging.

(** ** The completion wait *)

(** One round of the wait: the pause, the status request and the
    printed status. *)
Definition round (snapshot status : string) : list Event :=
  [EvSleep 5; EvCall (UpdateSnapshot snapshot) (GotStatus status);
   EvPrint ("     " ++ status)].

(** The copy requests in a trace. *)
Definition copy_requests (ev : Event) : list Call :=
  match ev with
  | EvCall (CopySnapshot a b c) _ => [CopySnapshot a b c]
  | _ => []
  end.

Lemma last_default {A : Type} (l : list A) (a d d' : A) :
  last (a :: l) d = last (a :: l) d'.
Proof.
  revert a. induction l as [| b r IH]; intros a; [reflexivity |].
  change (last (b :: r) d = last (b :: r) d'). apply IH.
Qed.

Section Wait.
Context {W : Type}.
Variable P : Provider W.

Lemma wait_done (n : nat) (s : Snapshot) (st : State W) :
  current_snap st = Some s ->
  (status s =? "completed")%string = true ->
  wait_completed P n st = (st, Ok tt).
Proof.
  intros Hc Hs. destruct n; simpl; unfold bind, read_current_snap;
    rewrite Hc, Hs; reflexivity.
Qed.

Lemma wait_exhausted (s : Snapshot) (st : State W) :
  current_snap st = Some s ->
  (status s =? "completed")%string = false ->
  wait_completed P 0 st = (st, OutOfFuel).
Proof.
  intros Hc Hs. simpl. unfold bind, read_current_snap.
  rewrite Hc, Hs. reflexivity.
Qed.

Lemma wait_round (n : nat) (s : Snapshot) (st : State W) :
  current_snap st = Some s ->
  (status s =? "completed")%string = false ->
  wait_completed P (S n) st
  = match update P (world st) (snap_id s) with
    | (w, Ret v) =>
        wait_completed P n
          (mkState w (trace st ++ round (snap_id s) v) (message st)
             (errmsg st) (total_creates st) (total_copies st)
             (total_deletes st) (count_errors st) (count_success st)
             (count_total st) (Some (with_status s v)) (dest_conn st))
    | (w, Rejected msg) =>
        (answered (record st [EvSleep 5]) w (UpdateSnapshot (snap_id s))
           (Refused msg),
         Raise (ProviderError (UpdateSnapshot (snap_id s)) msg))
    end.
Proof.
  intros Hc Hs. cbn [wait_completed].
  unfold bind, read_current_snap, sleep, print, call, emit, modify,
    set_current_snap.
  rewrite Hc, Hs. cbn. rewrite Hc. cbn.
  destruct (update P (world st) (snap_id s)) as [w [v | msg]]; cbn.
  - rewrite <- !app_assoc. reflexivity.
  - unfold record. rewrite Hc. reflexivity.
Qed.

Lemma wait_returns (n : nat) (s : Snapshot) (st st' : State W) :
  current_snap st = Some s ->
  wait_completed P n st = (st', Ok tt) ->
  exists statuses s',
    trace st' = trace st ++ flat_map (round (snap_id s)) statuses
    /\ current_snap st' = Some s'
    /\ snap_id s' = snap_id s
    /\ status s' = last statuses (status s)
    /\ status s' = "completed"
    /\ (length statuses <= n)%nat.
Proof.
  revert s st. induction n as [| n IH]; intros s st Hc Hrun;
    destruct (status s =? "completed")%string eqn:Es.
  - rewrite (wait_done 0 st Hc Es) in Hrun. injection Hrun as <-.
    exists [], s. simpl. rewrite app_nil_r.
    apply String.eqb_eq in Es. repeat split; auto.
  - rewrite (wait_exhausted st Hc Es) in Hrun. discriminate.
  - rewrite (wait_done (S n) st Hc Es) in Hrun. injection Hrun as <-.
    exists [], s. simpl. rewrite app_nil_r.
    apply String.eqb_eq in Es. repeat split; auto. lia.
  - rewrite (wait_round n st Hc Es) in Hrun.
    destruct (update P (world st) (snap_id s)) as [w [v | msg]];
      [| discriminate].
    apply IH with (s := with_status s v) in Hrun; [| reflexivity].
    destruct Hrun as (statuses & s' & Ht & Hc' & Hid & Hlast & Hdone & Hn).
    exists (v :: statuses), s'. simpl in Ht, Hid, Hlast.
    repeat split; auto.
    + rewrite Ht. simpl. rewrite <- !app_assoc. reflexivity.
    + rewrite Hlast. destruct statuses as [| v0 r]; [reflexivity |].
      change (last (v0 :: r) v = last (v0 :: r) (status s)).
      apply last_default.
    + simpl. lia.
Qed.

(** When the provider has reached worlds [Stuck] in which no status
    request is answered [completed], the wait does not return. *)
Lemma wait_never_returns (Stuck : W -> Prop) (n : nat) (s : Snapshot)
  (st : State W) :
  (forall w i, Stuck w ->
     exists w' v,
       update P w i = (w', Ret v) /\ v <> "completed" /\ Stuck w') ->
  Stuck (world st) ->
  current_snap st = Some s ->
  status s <> "completed" ->
  snd (wait_completed P n st) = OutOfFuel.
Proof.
  intros Hnever. revert s st.
  induction n as [| n IH]; intros s st Hw Hc Hs;
    apply String.eqb_neq in Hs.
  - rewrite (wait_exhausted st Hc Hs). reflexivity.
  - rewrite (wait_round n st Hc Hs).
    destruct (Hnever (world st) (snap_id s) Hw) as (w & v & -> & Hv & Hw').
    apply IH with (s := with_status s v);
      [exact Hw' | reflexivity | exact Hv].
Qed.

(** The status is [completed] after at most [k] requests. *)
Fixpoint completes_within (k : nat) (w : W) (i : string) : Prop :=
  match k with
  | O => False
  | S k' =>
      match update P w i with
      | (w', Ret v) => v = "completed" \/ completes_within k' w' i
      | (_, Rejected _) => False
      end
  end.

(** With enough status requests allowed, the wait returns. *)
Lemma wait_completes (k n : nat) (s : Snapshot) (st : State W) :
  current_snap st = Some s ->
  completes_within k (world st) (snap_id s) ->
  (k <= n)%nat ->
  snd (wait_completed P n st) = Ok tt.
Proof.
  revert n s st. induction k as [| k IH]; intros n s st Hc Hk Hn.
  - contradiction.
  - destruct n as [| n]; [lia |].
    destruct (status s =? "completed")%string eqn:Es.
    + rewrite (wait_done (S n) st Hc Es). reflexivity.
    + rewrite (wait_round n st Hc Es). simpl in Hk.
      destruct (update P (world st) (snap_id s)) as [w [v | msg]];
        [| contradiction].
      destruct (String.eqb_spec v "completed") as [-> | Hv].
      * rewrite (wait_done n (s := with_status s "completed"));
          reflexivity.
      * destruct Hk as [Hk | Hk]; [contradiction |].
        apply IH with (s := with_status s v); [reflexivity | exact Hk | lia].
Qed.

End Wait.

Section WaitThenCopy.
Context {W : Type}.
Variable P : Provider W.
Variable cfg : Config.
Variable fuel : nat.

Lemma wait_needs_snapshot (n : nat) (st st' : State W) :
  wait_completed P n st = (st', Ok tt) -> exists s, current_snap st = Some s.
Proof.
  destruct (current_snap st) as [s |] eqn:Hc; [eauto |].
  destruct n as [| n]; simpl; unfold bind, read_current_snap;
    rewrite Hc; discriminate.
Qed.

Lemma copy_after_completed (tags_volume : Py.dict) (descr : string)
  (st : State W) :
  proj copy_requests (trace (fst (copy_step P cfg fuel tags_volume descr st)))
  <> proj copy_requests (trace st) ->
  exists s,
    current_snap (fst (copy_step P cfg fuel tags_volume descr st)) = Some s
    /\ status s = "completed".
Proof.
  unfold copy_step.
  destruct (Py.truthy_opt (copy_region_name cfg)); [| simpl; congruence].
  cbv zeta. set (region := match copy_region_name cfg with
                           | Some r => r
                           | None => EmptyString
                           end).
  unfold try_except, bind.
  assert (Hw : preserves (fun st => proj copy_requests (trace st))
                 (wait_completed P fuel)) by frame.
  specialize (Hw st).
  destruct (wait_completed P fuel st) as [st1 [[] | e |]] eqn:Ew;
    simpl in Hw.
  - intros _.
    destruct (wait_needs_snapshot _ _ Ew) as [s Hc].
    destruct (wait_returns P _ _ Hc Ew) as (_ & s' & _ & Hc' & _ & _ & Hd & _).
    exists s'. split; [| exact Hd].
    assert (Hs : preserves (@current_snap W)
                   (ship_snapshot P cfg region tags_volume descr)).
    { unfold ship_snapshot. frame. }
    specialize (Hs st1).
    destruct (ship_snapshot P cfg region tags_volume descr st1)
      as [st2 [[] | e |]]; simpl in *; congruence.
  - assert (Hl : preserves (fun st => proj copy_requests (trace st))
                   (@log_unexpected W e)) by frame.
    rewrite Hl, Hw. congruence.
  - simpl. congruence.
Qed.

(** The wait returns at the first status that is [completed]. *)
Lemma wait_returns_at_first (n : nat) (s : Snapshot) (st st' : State W) :
  current_snap st = Some s ->
  wait_completed P n st = (st', Ok tt) ->
  exists statuses s',
    trace st' = trace st ++ flat_map (round (snap_id s)) statuses
    /\ current_snap st' = Some s'
    /\ snap_id s' = snap_id s
    /\ status s' = last statuses (status s)
    /\ status s' = "completed"
    /\ Forall (fun v => v <> "completed") (removelast statuses)
    /\ (statuses <> [] -> status s <> "completed")
    /\ (length statuses <= n)%nat.
Proof.
  revert s st. induction n as [| n IH]; intros s st Hc Hrun;
    destruct (status s =? "completed")%string eqn:Es.
  - rewrite (@wait_done W P 0 s st Hc Es) in Hrun. injection Hrun as <-.
    exists [], s. simpl. rewrite app_nil_r.
    apply String.eqb_eq in Es. repeat split; auto; congruence.
  - rewrite (@wait_exhausted W P s st Hc Es) in Hrun. discriminate.
  - rewrite (@wait_done W P (S n) s st Hc Es) in Hrun. injection Hrun as <-.
    exists [], s. simpl. rewrite app_nil_r.
    apply String.eqb_eq in Es. repeat split; auto; try congruence; lia.
  - rewrite (@wait_round W P n s st Hc Es) in Hrun.
    destruct (update P (world st) (snap_id s)) as [w [v | msg]];
      [| discriminate].
    apply String.eqb_neq in Es.
    destruct (String.eqb_spec v "completed") as [-> | Hv].
    + rewrite (@wait_done W P n (with_status s "completed")) in Hrun;
        [| reflexivity | reflexivity].
      injection Hrun as <-.
      exists ["completed"], (with_status s "completed").
      cbn [trace current_snap flat_map with_status snap_id status last
           removelast length].
      rewrite app_nil_r.
      repeat split; auto; try congruence; lia.
    + apply IH with (s := with_status s v) in Hrun; [| reflexivity].
      destruct Hrun
        as (statuses & s' & Ht & Hc' & Hid & Hlast & Hdone & Hall & _ & Hn).
      exists (v :: statuses), s'. simpl in Ht, Hid, Hlast.
      repeat split; auto.
      * rewrite Ht. simpl. rewrite <- !app_assoc. reflexivity.
      * rewrite Hlast. destruct statuses as [| v0 r]; [reflexivity |].
        change (last (v0 :: r) v = last (v0 :: r) (status s)).
        apply last_default.
      * destruct statuses as [| v0 r]; [constructor |].
        change (Forall (fun v1 => v1 <> "completed")
                  (v :: removelast (v0 :: r))).
        constructor; assumption.
      * simpl. lia.
Qed.

(** While no status request is answered [completed], every request
    allowed to the wait is made. *)
Lemma wait_keeps_polling (Stuck : W -> Prop) (n : nat) (s : Snapshot)
  (st : State W) :
  (forall w i, Stuck w ->
     exists w' v,
       update P w i = (w', Ret v) /\ v <> "completed" /\ Stuck w') ->
  Stuck (world st) ->
  current_snap st = Some s ->
  status s <> "completed" ->
  snd (wait_completed P n st) = OutOfFuel
  /\ exists statuses,
       length statuses = n
       /\ trace (fst (wait_completed P n st))
          = trace st ++ flat_map (round (snap_id s)) statuses.
Proof.
  intros Hnever. revert s st.
  induction n as [| n IH]; intros s st Hw Hc Hs;
    apply String.eqb_neq in Hs.
  - rewrite (@wait_exhausted W P s st Hc Hs). split; [reflexivity |].
    exists []. simpl. rewrite app_nil_r. auto.
  - rewrite (@wait_round W P n s st Hc Hs).
    destruct (Hnever (world st) (snap_id s) Hw) as (w & v & -> & Hv & Hw').
    match goal with
    | |- context [wait_completed P n ?s0] =>
        destruct (IH (with_status s v) s0 Hw' eq_refl Hv)
          as (Hout & statuses & Hlen & Ht)
    end.
    split; [exact Hout |].
    exists (v :: statuses). split; [simpl; lia |].
    rewrite Ht. simpl. rewrite <- !app_assoc. reflexivity.
Qed.

(** C8.  On a snapshot whose status is [completed] the wait returns at
    once.  Otherwise it pauses five seconds, requests the status and
    prints it, and goes on with the status it got; a rejected request
    ends it with the exception.  It returns as soon as a status request
    is answered [completed], when that happens within the requests
    allowed to it, and not before: the status it has observed last is
    [completed] and no earlier one was.  A copy request is made only
    with such a snapshot.  When no status request is ever answered
    [completed], the wait makes every request allowed to it and does not
    return, whatever their number. *)
Theorem completion_wait :
  (forall n s (st : State W),
      current_snap st = Some s ->
      status s = "completed" ->
      wait_completed P n st = (st, Ok tt))
  /\ (forall n s (st : State W),
         current_snap st = Some s ->
         status s <> "completed" ->
         wait_completed P (S n) st
         = match update P (world st) (snap_id s) with
           | (w, Ret v) =>
               wait_completed P n
                 (mkState w (trace st ++ round (snap_id s) v) (message st)
                    (errmsg st) (total_creates st) (total_copies st)
                    (total_deletes st) (count_errors st) (count_success st)
                    (count_total st) (Some (with_status s v)) (dest_conn st))
           | (w, Rejected msg) =>
               (answered (record st [EvSleep 5]) w
                  (UpdateSnapshot (snap_id s)) (Refused msg),
                Raise (ProviderError (UpdateSnapshot (snap_id s)) msg))
           end)
  /\ (forall k n s (st : State W),
         current_snap st = Some s ->
         completes_within P k (world st) (snap_id s) ->
         (k <= n)%nat ->
         snd (wait_completed P n st) = Ok tt)
  /\ (forall n s (st st' : State W),
         current_snap st = Some s ->
         wait_completed P n st = (st', Ok tt) ->
         exists statuses s',
           trace st' = trace st ++ flat_map (round (snap_id s)) statuses
           /\ current_snap st' = Some s'
           /\ snap_id s' = snap_id s
           /\ status s' = last statuses (status s)
           /\ status s' = "completed"
           /\ Forall (fun v => v <> "completed") (removelast statuses)
           /\ (statuses <> [] -> status s <> "completed")
           /\ (length statuses <= n)%nat)
  /\ (forall tags_volume descr (st : State W),
         proj copy_requests
           (trace (fst (copy_step P cfg fuel tags_volume descr st)))
         <> proj copy_requests (trace st) ->
         exists s,
           current_snap (fst (copy_step P cfg fuel tags_volume descr st))
           = Some s
           /\ status s = "completed")
  /\ (forall (Stuck : W -> Prop) n s (st : State W),
         (forall w i, Stuck w ->
            exists w' v,
              update P w i = (w', Ret v) /\ v <> "completed" /\ Stuck w') ->
         Stuck (world st) ->
         current_snap st = Some s ->
         status s <> "completed" ->
         snd (wait_completed P n st) = OutOfFuel
         /\ exists statuses,
              length statuses = n
              /\ trace (fst (wait_completed P n st))
                 = trace st ++ flat_map (round (snap_id s)) statuses).
Proof.
  split; [| split; [| split; [| split; [| split]]]].
  - intros n s st Hc Hs. apply (@wait_done W P n s st Hc).
    apply String.eqb_eq. exact Hs.
  - intros n s st Hc Hs. apply (@wait_round W P n s st Hc).
    apply String.eqb_neq. exact Hs.
  - intros k n s st. apply wait_completes.
  - intros n s st st'. apply wait_returns_at_first.
  - apply copy_after_completed.
  - intros Stuck n s st. apply wait_keeps_polling.
Qed.

End WaitThenCopy.

(** ** Running a block step by step *)

Section Steps.
Context {W : Type}.
Implicit Types st : State W.

Lemma bind_assoc {A B C} (m : M W A) (k : A -> M W B) (k' : B -> M W C) st :
  bind (bind m k) k' st = bind m (fun a => bind (k a) k') st.
Proof. unfold bind. destruct (m st) as [st1 [a | e |]]; reflexivity. Qed.

Lemma bind_gets {A B} (f : State W -> A) (k : A -> M W B) st :
  bind (gets f) k st = k (f st) st.
Proof. reflexivity. Qed.

Lemma bind_modify {B} (g : State W -> State W) (k : unit -> M W B) st :
  bind (modify g) k st = k tt (g st).
Proof. reflexivity. Qed.

Lemma bind_emit {B} (e : Event) (k : unit -> M W B) st :
  bind (emit e) k st = k tt (record st [e]).
Proof. reflexivity. Qed.

Lemma bind_ok {A B} (m : M W A) (k : A -> M W B) st st1 a :
  m st = (st1, Ok a) -> bind m k st = k a st1.
Proof. intros H. unfold bind. rewrite H. reflexivity. Qed.

Lemma bind_raise {A B} (m : M W A) (k : A -> M W B) st st1 e :
  m st = (st1, Raise e) -> bind m k st = (st1, Raise e).
Proof. intros H. unfold bind. rewrite H. reflexivity. Qed.

Lemma bind_out_of_fuel {A B} (m : M W A) (k : A -> M W B) st st1 :
  m st = (st1, OutOfFuel) -> bind m k st = (st1, OutOfFuel).
Proof. intros H. unfold bind. rewrite H. reflexivity. Qed.

(** What a block keeps, read on one run of it. *)
Lemma preserves_run {A X} (f : State W -> X) (m : M W A) st st1 r :
  preserves f m -> m st = (st1, r) -> f st1 = f st.
Proof. intros Hp H. specialize (Hp st). rewrite H in Hp. exact Hp. Qed.

Lemma raises_only_run {A} (Q : Exn -> Prop) (m : M W A) st st1 e :
  raises_only Q m -> m st = (st1, Raise e) -> Q e.
Proof. intros Hq H. apply (Hq st). rewrite H. reflexivity. Qed.

End Steps.

(** ** The volume boundary *)

(** The exceptions whose traceback was printed. *)
Definition raised (ev : Event) : list Exn :=
  match ev with
  | EvTraceback e => [e]
  | _ => []
  end.

(** What the [except:] clause of the volume loop records. *)
Definition failure_report (vol : Volume) (e : Exn) : list Event :=
  [EvPrint ("Unexpected error: " ++ exn_class e); EvTraceback e;
   EvLog ERROR (volume_error_text vol)].

Section Boundary.
Context {W : Type}.
Variable P : Provider W.
Variable cfg : Config.
Variable fuel : nat.
Variable period : Period.
Variable date_suffix : string.

Let body := volume_body P cfg fuel period date_suffix.
Let process := process_volume P cfg fuel period date_suffix.
Let loop := volume_loop P cfg fuel period date_suffix.

(** The state after a volume whose [try] block ended normally. *)
Definition succeeded (st1 : State W) : State W :=
  mkState (world st1) (trace st1) (message st1) (errmsg st1)
    (total_creates st1) (total_copies st1) (total_deletes st1)
    (count_errors st1) (count_success st1 + 1)%Z (count_total st1)
    (current_snap st1) (dest_conn st1).

(** The state after a volume whose [try] block raised [e]. *)
Definition failed (vol : Volume) (e : Exn) (st1 : State W) : State W :=
  mkState (world st1) (trace st1 ++ failure_report vol e) (message st1)
    (errmsg st1 ++ volume_error_text vol)%string
    (total_creates st1) (total_copies st1) (total_deletes st1)
    (count_errors st1 + 1)%Z (count_success st1) (count_total st1)
    (current_snap st1) (dest_conn st1).

Lemma process_volume_ok (vol : Volume) (st st1 : State W) :
  body vol st = (st1, Ok tt) -> process vol st = (succeeded st1, Ok tt).
Proof.
  intros H. unfold process, process_volume, try_except_else.
  fold body. rewrite H. reflexivity.
Qed.

Lemma process_volume_raise (vol : Volume) (e : Exn) (st st1 : State W) :
  body vol st = (st1, Raise e) -> process vol st = (failed vol e st1, Ok tt).
Proof.
  intros H. unfold process, process_volume, try_except_else.
  fold body. rewrite H. unfold failed, failure_report. cbn.
  rewrite <- !app_assoc. reflexivity.
Qed.

Lemma process_volume_out_of_fuel (vol : Volume) (st st1 : State W) :
  body vol st = (st1, OutOfFuel) -> process vol st = (st1, OutOfFuel).
Proof.
  intros H. unfold process, process_volume, try_except_else.
  fold body. rewrite H. reflexivity.
Qed.

Lemma process_volume_never_raises (vol : Volume) (st : State W) (e : Exn) :
  snd (process vol st) <> Raise e.
Proof.
  destruct (body vol st) as [st1 [[] | e1 |]] eqn:E.
  - rewrite (process_volume_ok _ _ E). discriminate.
  - rewrite (process_volume_raise _ _ E). discriminate.
  - rewrite (process_volume_out_of_fuel _ _ E). discriminate.
Qed.

Lemma volume_loop_never_raises (vols : list Volume) (st : State W)
  (e : Exn) :
  snd (loop vols st) <> Raise e.
Proof.
  unfold loop, volume_loop. revert st.
  induction vols as [| v r IH]; intros st; simpl.
  - discriminate.
  - unfold bind. fold process.
    pose proof (process_volume_never_raises v st) as Hv.
    destruct (process v st) as [st1 [[] | e1 |]]; simpl in *.
    + apply IH.
    + exfalso. apply (Hv e1). reflexivity.
    + discriminate.
Qed.

Lemma body_counts_volume (vol : Volume) (st : State W) :
  count_total (fst (body vol st)) = (count_total st + 1)%Z.
Proof.
  unfold body, volume_body, snapshot_step, describe_volume.
  rewrite !bind_assoc, bind_gets. unfold set_count_total at 1.
  rewrite !bind_assoc, bind_modify.
  match goal with
  | |- count_total (fst (?m ?s)) = _ =>
      assert (H : preserves (@count_total W) m) by frame; rewrite (H s)
  end.
  reflexivity.
Qed.

End Boundary.

(** ** Blocks only append to the trace *)

Section Extends.
Context {W : Type}.

Definition extends {A} (m : M W A) : Prop :=
  forall st, exists more, trace (fst (m st)) = trace st ++ more.

Lemma extends_ret {A} (a : A) : extends (@ret W A a).
Proof. intros st. exists []. simpl. rewrite app_nil_r. reflexivity. Qed.

Lemma extends_raise {A} (e : Exn) : extends (@raise W A e).
Proof. intros st. exists []. simpl. rewrite app_nil_r. reflexivity. Qed.

Lemma extends_out_of_fuel {A} : extends (@out_of_fuel W A).
Proof. intros st. exists []. simpl. rewrite app_nil_r. reflexivity. Qed.

Lemma extends_gets {A} (f : State W -> A) : extends (gets f).
Proof. intros st. exists []. simpl. rewrite app_nil_r. reflexivity. Qed.

Lemma extends_modify (g : State W -> State W) :
  (forall st, trace (g st) = trace st) -> extends (modify g).
Proof.
  intros Hg st. exists []. simpl. rewrite app_nil_r. apply Hg.
Qed.

Lemma extends_emit (e : Event) : extends (@emit W e).
Proof. intros st. exists [e]. reflexivity. Qed.

Lemma extends_call {A} (c : Call) (got : A -> Answer)
  (op : W -> W * Reply A) : extends (call c got op).
Proof.
  intros st. unfold call.
  destruct (op (world st)) as [w [a | msg]]; eexists; reflexivity.
Qed.

Lemma extends_read_current_snap : extends (@read_current_snap W).
Proof.
  intros st. exists []. unfold read_current_snap.
  destruct (current_snap st); simpl; rewrite app_nil_r; reflexivity.
Qed.

Lemma extends_read_dest_conn : extends (@read_dest_conn W).
Proof.
  intros st. exists []. unfold read_dest_conn.
  destruct (dest_conn st); simpl; rewrite app_nil_r; reflexivity.
Qed.

Lemma extends_bind {A B} (m : M W A) (k : A -> M W B) :
  extends m -> (forall a, extends (k a)) -> extends (bind m k).
Proof.
  intros Hm Hk st. unfold bind. destruct (Hm st) as [more Hmore].
  destruct (m st) as [st1 [a | e |]]; simpl in *; eauto.
  destruct (Hk a st1) as [more' Hmore'].
  exists (more ++ more'). rewrite Hmore', Hmore, app_assoc. reflexivity.
Qed.

Lemma extends_try_except {A} (m : M W A) (h : Exn -> M W A) :
  extends m -> (forall e, extends (h e)) -> extends (try_except m h).
Proof.
  intros Hm Hh st. unfold try_except. destruct (Hm st) as [more Hmore].
  destruct (m st) as [st1 [a | e |]]; simpl in *; eauto.
  destruct (Hh e st1) as [more' Hmore'].
  exists (more ++ more'). rewrite Hmore', Hmore, app_assoc. reflexivity.
Qed.

Lemma extends_for_each {A} (l : list A) (body : A -> M W unit) :
  (forall a, extends (body a)) -> extends (for_each l body).
Proof.
  intros Hb. induction l as [| x r IH]; simpl.
  - apply extends_ret.
  - apply extends_bind; [apply Hb | intros _; exact IH].
Qed.

Lemma extends_classify_loop (period : Period) (snaps acc : list Snapshot) :
  extends (@classify_loop W period snaps acc).
Proof. intros st. rewrite classify_loop_spec. eexists. reflexivity. Qed.

Lemma extends_wait_completed (P : Provider W) (n : nat) :
  extends (wait_completed P n).
Proof.
  induction n as [| n IH]; simpl;
    (apply extends_bind; [apply extends_read_current_snap | intro s]);
    (destruct (status s =? "completed")%string; [apply extends_ret |]).
  - apply extends_out_of_fuel.
  - repeat first
      [ apply extends_bind; [| intro]
      | apply extends_read_current_snap
      | apply extends_call
      | apply extends_emit
      | apply extends_modify; intro; reflexivity
      | exact IH ].
Qed.

End Extends.

(** ** How the blocks end *)

Lemma ends_classify_loop {W} (period : Period) (snaps acc : list Snapshot) :
  ends (@classify_loop W period snaps acc).
Proof. intros st. rewrite classify_loop_spec. discriminate. Qed.

Lemma raises_only_classify_loop {W} (Q : Exn -> Prop) (period : Period)
  (snaps acc : list Snapshot) :
  raises_only Q (@classify_loop W period snaps acc).
Proof. intros st e. rewrite classify_loop_spec. discriminate. Qed.

Lemma raises_only_wait_completed {W} (P : Provider W) (Q : Exn -> Prop)
  (n : nat) :
  Q (NameError "current_snap") ->
  (forall i msg, Q (ProviderError (UpdateSnapshot i) msg)) ->
  raises_only Q (wait_completed P n).
Proof.
  intros Hn Hu.
  induction n as [| n IH]; simpl;
    (apply raises_only_bind; [apply raises_only_read_current_snap, Hn |]);
    intro s;
    (destruct (status s =? "completed")%string; [apply raises_only_ret |]).
  - intros st e H. discriminate.
  - repeat first
      [ apply raises_only_bind; [| intro]
      | apply raises_only_read_current_snap, Hn
      | apply raises_only_call, Hu
      | apply raises_only_modify
      | exact IH ].
Qed.

Ltac unfold_blocks :=
  cbv beta zeta delta
    [today get_resource_tags resource_add_tag set_resource_tag
     set_resource_tags log_unexpected create_step tag_copy ship_snapshot
     copy_step
     delete_with_cascade prune retention_step describe_volume snapshot_step
     volume_body volume_failed print logging_info logging_error sleep emit
     set_message set_errmsg set_total_creates set_total_copies
     set_total_deletes set_count_errors set_count_success set_count_total
     set_current_snap set_dest_conn].

Ltac ends_step :=
  unfold_blocks;
  lazymatch goal with
  | |- ends (bind _ _) => apply ends_bind; [| intro]
  | |- ends (try_except _ _) => apply ends_try_except; [| intro]
  | |- ends (for_each _ _) => apply ends_for_each; intro
  | |- ends (ret _) => apply ends_ret
  | |- ends (raise _) => apply ends_raise
  | |- ends (gets _) => apply ends_gets
  | |- ends (modify _) => apply ends_modify
  | |- ends (call _ _ _) => apply ends_call
  | |- ends read_current_snap => apply ends_read_current_snap
  | |- ends read_dest_conn => apply ends_read_dest_conn
  | |- ends (classify_loop _ _ _) => apply ends_classify_loop
  | |- ends (if ?b then _ else _) =>
      first [ match goal with H : b = _ |- _ => rewrite H end | destruct b ]
  | |- ends (match ?x with _ => _ end) => destruct x
  end.

Ltac ends_all := repeat ends_step.

Ltac raises_step :=
  unfold_blocks;
  lazymatch goal with
  | |- raises_only _ (bind _ _) => apply raises_only_bind; [| intro]
  | |- raises_only _ (try_except _ _) =>
      apply raises_only_try_except; intro
  | |- raises_only _ (for_each _ _) => apply raises_only_for_each; intro
  | |- raises_only _ (ret _) => apply raises_only_ret
  | |- raises_only _ (raise _) => apply raises_only_raise; try reflexivity
  | |- raises_only _ (gets _) => apply raises_only_gets
  | |- raises_only _ (modify _) => apply raises_only_modify
  | |- raises_only _ (call _ _ _) =>
      apply raises_only_call; try (intro; reflexivity)
  | |- raises_only _ read_current_snap =>
      apply raises_only_read_current_snap; try reflexivity
  | |- raises_only _ read_dest_conn =>
      apply raises_only_read_dest_conn; try reflexivity
  | |- raises_only _ (classify_loop _ _ _) =>
      apply raises_only_classify_loop
  | |- raises_only _ (wait_completed _ _) =>
      apply raises_only_wait_completed;
      [try reflexivity | try (intros; reflexivity)]
  | |- raises_only _ (if ?b then _ else _) => destruct b
  | |- raises_only _ (match ?x with _ => _ end) => destruct x
  end.

Ltac raises_all := repeat raises_step.

Ltac extends_step :=
  unfold_blocks;
  lazymatch goal with
  | |- extends (bind _ _) => apply extends_bind; [| intro]
  | |- extends (try_except _ _) => apply extends_try_except; [| intro]
  | |- extends (for_each _ _) => apply extends_for_each; intro
  | |- extends (ret _) => apply extends_ret
  | |- extends (raise _) => apply extends_raise
  | |- extends (gets _) => apply extends_gets
  | |- extends (modify (fun st => mkState _ (trace st ++ _) _ _ _ _ _ _ _ _ _ _))
    => apply extends_emit
  | |- extends (modify _) => apply extends_modify; intro; reflexivity
  | |- extends (call _ _ _) => apply extends_call
  | |- extends read_current_snap => apply extends_read_current_snap
  | |- extends read_dest_conn => apply extends_read_dest_conn
  | |- extends (classify_loop _ _ _) => apply extends_classify_loop
  | |- extends (wait_completed _ _) => apply extends_wait_completed
  | |- extends (if ?b then _ else _) => destruct b
  | |- extends (match ?x with _ => _ end) => destruct x
  end.

Ltac extends_all := repeat extends_step.

(** Exceptions of a rejected [create_snapshot]. *)
Definition is_create_error (e : Exn) : bool :=
  match e with
  | ProviderError (CreateSnapshot _ _) _ => true
  | _ => false
  end.

Section Endings.
Context {W : Type}.
Variable P : Provider W.
Variable cfg : Config.
Variable fuel : nat.
Variable period : Period.
Variable date_suffix : string.

(** Without a destination region there is no completion wait, and the
    [try] block of a volume always ends. *)
Lemma body_ends_without_copy (vol : Volume) :
  Py.truthy_opt (copy_region_name cfg) = false ->
  ends (volume_body P cfg fuel period date_suffix vol).
Proof. intros Hno. ends_all. Qed.

Lemma create_step_ends (vol : Volume) (tgs : Py.dict) (descr : string) :
  ends (create_step P vol tgs descr).
Proof. ends_all. Qed.

Lemma create_step_never_raises (vol : Volume) (tgs : Py.dict)
  (descr : string) :
  raises_only (fun _ => False) (create_step P vol tgs descr).
Proof. raises_all. Qed.

Lemma copy_step_never_raises (tgs : Py.dict) (descr : string) :
  raises_only (fun _ => False) (copy_step P cfg fuel tgs descr).
Proof. raises_all. Qed.

(** No exception of a rejected [create_snapshot] leaves the [try] block
    of a volume. *)
Lemma body_raises_no_create_error (vol : Volume) :
  raises_only (fun e => is_create_error e = false)
    (volume_body P cfg fuel period date_suffix vol).
Proof. raises_all. Qed.

End Endings.

(** ** Isolation of the failure of a volume *)

(** The texts of the script's calls of [logging.error]. *)
Definition logged_errors (ev : Event) : list string :=
  match ev with
  | EvLog ERROR text => [text]
  | _ => []
  end.

Section Isolation.
Context {W : Type}.
Variable P : Provider W.
Variable cfg : Config.
Variable fuel : nat.
Variable period : Period.
Variable date_suffix : string.

Let body := volume_body P cfg fuel period date_suffix.
Let process := process_volume P cfg fuel period date_suffix.
Let loop := volume_loop P cfg fuel period date_suffix.

Lemma process_volume_counts (vol : Volume) (st st' : State W) :
  process vol st = (st', Ok tt) ->
  count_total st' = (count_total st + 1)%Z
  /\ (count_success st' + count_errors st'
      = count_success st + count_errors st + 1)%Z.
Proof.
  intros Hrun.
  pose proof (body_counts_volume P cfg fuel period date_suffix vol st) as Ht.
  pose proof (body_keeps_count_errors P cfg fuel period date_suffix vol st)
    as He.
  pose proof (body_keeps_count_success P cfg fuel period date_suffix vol st)
    as Hs.
  fold body in Ht, He, Hs.
  destruct (body vol st) as [st1 [[] | e |]] eqn:E; simpl in Ht, He, Hs.
  - unfold process in Hrun.
    rewrite (process_volume_ok _ _ _ _ _ _ _ E) in Hrun.
    injection Hrun as <-. simpl. lia.
  - unfold process in Hrun.
    rewrite (process_volume_raise _ _ _ _ _ _ _ E) in Hrun.
    injection Hrun as <-. simpl. lia.
  - unfold process in Hrun.
    rewrite (process_volume_out_of_fuel _ _ _ _ _ _ _ E) in Hrun.
    discriminate.
Qed.

Lemma volume_loop_counts (vols : list Volume) (st st' : State W) :
  loop vols st = (st', Ok tt) ->
  count_total st' = (count_total st + Z.of_nat (length vols))%Z
  /\ (count_success st' + count_errors st'
      = count_success st + count_errors st + Z.of_nat (length vols))%Z.
Proof.
  unfold loop, volume_loop. revert st.
  induction vols as [| v r IH]; intros st Hrun.
  - simpl in Hrun. injection Hrun as <-. simpl. lia.
  - cbn [for_each] in Hrun. unfold bind in Hrun. fold process in Hrun.
    destruct (process v st) as [st1 [[] | e |]] eqn:E; try discriminate.
    destruct (process_volume_counts _ _ E) as [H1 H2].
    destruct (IH _ Hrun) as [H3 H4].
    cbn [length]. lia.
Qed.

Lemma process_volume_ends (vol : Volume) (st : State W) :
  Py.truthy_opt (copy_region_name cfg) = false ->
  snd (process vol st) = Ok tt.
Proof.
  intros Hno.
  pose proof (@body_ends_without_copy _ P cfg fuel period date_suffix vol
                Hno st)
    as He.
  fold body in He.
  destruct (body vol st) as [st1 [[] | e |]] eqn:E.
  - unfold process. rewrite (process_volume_ok _ _ _ _ _ _ _ E). reflexivity.
  - unfold process.
    rewrite (process_volume_raise _ _ _ _ _ _ _ E). reflexivity.
  - exfalso. apply He. reflexivity.
Qed.

Lemma volume_loop_ends (vols : list Volume) (st : State W) :
  Py.truthy_opt (copy_region_name cfg) = false ->
  snd (loop vols st) = Ok tt.
Proof.
  intros Hno. unfold loop, volume_loop. revert st.
  induction vols as [| v r IH]; intros st; [reflexivity |].
  cbn [for_each]. unfold bind. fold process.
  pose proof (process_volume_ends v st Hno) as Hv.
  destruct (process v st) as [st1 [[] | e |]]; simpl in Hv;
    try discriminate.
  apply IH.
Qed.

(** The two lines the summary always prints. *)
Definition summary_lines (st : State W) : list Event :=
  let date := strftime P (world st) "%d-%m-%Y %H:%M:%S" in
  let result := result_text date (count_success st) (count_total st) in
  [EvPrint (nl ++ (message st
                   ++ totals_text result (total_creates st)
                        (total_copies st) (count_errors st)
                        (total_deletes st))
            ++ nl)%string;
   EvPrint result].

Lemma summary_prints (st : State W) :
  exists more,
    trace (fst (summary P cfg st)) = trace st ++ summary_lines st ++ more.
Proof.
  unfold summary, today.
  rewrite !bind_gets. unfold set_message. rewrite bind_modify, bind_gets.
  unfold print. rewrite !bind_emit, !record_record.
  match goal with
  | |- context [bind ?m ?k ?s] =>
      assert (Hx : exists more, trace (fst (bind m k s)) = trace s ++ more)
        by (apply (@extends_bind W); [unfold sns_reporting | intro];
            extends_all)
  end.
  destruct Hx as [more Hx]. exists more. rewrite Hx.
  unfold summary_lines. cbn [trace record].
  rewrite <- app_assoc. reflexivity.
Qed.

(** C3, as the script has it.  An exception that leaves the [try] block
    of a volume is caught by the [except:] clause of the loop: its
    traceback is printed, the volume id is logged and appended to
    [errmsg], [count_errors] grows by one, and the loop goes on; no
    exception leaves the loop, every volume is counted as succeeded or
    as errored, and the summary is printed after the loop whatever the
    number of errored volumes.  Without a destination region the loop
    always ends. *)
Theorem volume_failures_isolated (vols : list Volume) (st : State W) :
  (forall vol st0 st1 e,
      body vol st0 = (st1, Raise e) ->
      process vol st0 = (failed vol e st1, Ok tt)
      /\ count_errors (failed vol e st1) = (count_errors st0 + 1)%Z
      /\ count_success (failed vol e st1) = count_success st0
      /\ errmsg (failed vol e st1)
         = (errmsg st0 ++ volume_error_text vol)%string)
  /\ (forall e, snd (loop vols st) <> Raise e)
  /\ (forall st',
         loop vols st = (st', Ok tt) ->
         count_total st' = (count_total st + Z.of_nat (length vols))%Z
         /\ (count_success st' + count_errors st'
             = count_success st + count_errors st
               + Z.of_nat (length vols))%Z
         /\ exists more,
              trace (fst (bind (loop vols) (fun _ => summary P cfg) st))
              = trace st' ++ summary_lines st' ++ more)
  /\ (Py.truthy_opt (copy_region_name cfg) = false ->
      snd (loop vols st) = Ok tt).
Proof.
  split; [| split; [| split]].
  - intros vol st0 st1 e E. split.
    + apply process_volume_raise. exact E.
    + pose proof (body_keeps_count_errors P cfg fuel period date_suffix
                    vol st0) as He.
      pose proof (body_keeps_count_success P cfg fuel period date_suffix
                    vol st0) as Hs.
      pose proof (body_keeps_errmsg P cfg fuel period date_suffix vol st0)
        as Hm.
      fold body in He, Hs, Hm. rewrite E in He, Hs, Hm. simpl in *.
      rewrite He, Hs, Hm. auto.
  - apply volume_loop_never_raises.
  - intros st' Hrun. destruct (volume_loop_counts _ _ Hrun) as [H1 H2].
    repeat split; auto.
    unfold bind. rewrite Hrun. apply summary_prints.
  - apply volume_loop_ends.
Qed.

End Isolation.

(** ** Only candidates are deleted *)

(** The snapshots whose deletion was requested. *)
Definition deleted (ev : Event) : list Snapshot :=
  match ev with
  | EvCall (DeleteSnapshot s) _ => [s]
  | _ => []
  end.

(** Those among them that are no candidates of the period. *)
Definition wrongly_deleted (period : Period) (ev : Event) : list Snapshot :=
  match ev with
  | EvCall (DeleteSnapshot s) _ =>
      if is_candidate period (description s) then [] else [s]
  | _ => []
  end.

Lemma wrongly_deleted_in (period : Period) (s : Snapshot)
  (tr : list Event) :
  In s (proj deleted tr) ->
  is_candidate period (description s) = false ->
  In s (proj (wrongly_deleted period) tr).
Proof.
  intros Hin Hc. induction tr as [| ev r IH]; [contradiction |].
  unfold proj in *. simpl in *. apply in_app_or in Hin. apply in_or_app.
  destruct Hin as [Hin | Hin]; [left | right; apply IH; exact Hin].
  destruct ev as [| | | | | [] a]; simpl in *; try contradiction.
  destruct Hin as [<- | []]. rewrite Hc. left. reflexivity.
Qed.

Lemma deleted_in (period : Period) (s : Snapshot) (tr : list Event) :
  In s (proj (wrongly_deleted period) tr) -> In s (proj deleted tr).
Proof.
  intros Hin. induction tr as [| ev r IH]; [contradiction |].
  unfold proj in *. simpl in *. apply in_app_or in Hin. apply in_or_app.
  destruct Hin as [Hin | Hin]; [left | right; apply IH; exact Hin].
  destruct ev as [| | | | | [] a]; simpl in *; try contradiction.
  destruct (is_candidate period (description snap)); [contradiction |].
  exact Hin.
Qed.

Lemma skipped_not_deleted {X} (sel : Event -> list X)
  (snaps : list Snapshot) :
  (forall s, sel (skipped s) = []) -> proj sel (map skipped snaps) = [].
Proof.
  intros H. induction snaps as [| s r IH]; [reflexivity |].
  unfold proj in *. simpl. rewrite H, IH. reflexivity.
Qed.

Lemma classify_candidates (period : Period) (snaps : list Snapshot) :
  Forall (fun s => is_candidate period (description s) = true)
    (classify period snaps).
Proof.
  apply Forall_forall. intros s Hs. unfold classify in Hs.
  apply filter_In in Hs. tauto.
Qed.

Section Candidates.
Context {W : Type}.
Variable P : Provider W.
Variable cfg : Config.
Variable fuel : nat.
Variable period : Period.
Variable date_suffix : string.

Let wrong (st : State W) := proj (wrongly_deleted period) (trace st).

Lemma retention_step_run (vol : Volume) (st : State W) :
  retention_step P cfg period vol st
  = match snapshots P (world st) (vol_id vol) with
    | (w, Ret snaps) =>
        prune P cfg period (classify period snaps)
          (record
             (answered st w (VolumeSnapshots (vol_id vol))
                (GotSnapshots snaps))
             (map skipped
                (filter (fun s => negb (is_candidate period (description s)))
                   snaps)))
    | (w, Rejected msg) =>
        (answered st w (VolumeSnapshots (vol_id vol)) (Refused msg),
         Raise (ProviderError (VolumeSnapshots (vol_id vol)) msg))
    end.
Proof.
  unfold retention_step, bind, call.
  destruct (snapshots P (world st) (vol_id vol)) as [w [snaps | msg]].
  - rewrite classify_loop_spec. reflexivity.
  - reflexivity.
Qed.

Lemma delete_with_cascade_candidate (dl : list Snapshot) (i : nat) :
  Forall (fun s => is_candidate period (description s) = true) dl ->
  preserves wrong (delete_with_cascade P dl i).
Proof.
  intros Hall. unfold delete_with_cascade, wrong.
  destruct (nth_error dl i) as [s |] eqn:E.
  - apply preserves_bind_ret.
    assert (Hs : is_candidate period (description s) = true).
    { rewrite Forall_forall in Hall. apply Hall.
      apply nth_error_In with i. exact E. }
    frame. intros ?. simpl. rewrite Hs. reflexivity.
  - intro st. reflexivity.
Qed.

Lemma prune_candidates (dl : list Snapshot) :
  Forall (fun s => is_candidate period (description s) = true) dl ->
  preserves wrong (prune P cfg period dl).
Proof.
  intros Hall.
  assert (Hd : forall i,
             preserves wrong
               (delete_with_cascade P (sort_by date_compare dl) i)).
  { intro i. apply delete_with_cascade_candidate.
    rewrite Forall_forall in *. intros s Hs. apply Hall.
    apply (Permutation_in _ (sort_by_perm date_compare dl)). exact Hs. }
  unfold wrong in *. frame.
Qed.

Lemma retention_step_candidates (vol : Volume) :
  preserves wrong (retention_step P cfg period vol).
Proof.
  intro st. rewrite retention_step_run.
  destruct (snapshots P (world st) (vol_id vol)) as [w [snaps | msg]].
  - rewrite (prune_candidates (classify_candidates period snaps)).
    unfold wrong, record, answered. simpl.
    rewrite proj_app, proj_snoc, skipped_not_deleted by reflexivity.
    simpl. rewrite !app_nil_r. reflexivity.
  - unfold wrong. simpl. rewrite proj_snoc. apply app_nil_r.
Qed.

Lemma volume_loop_candidates (vols : list Volume) :
  preserves wrong (volume_loop P cfg fuel period date_suffix vols).
Proof.
  unfold volume_loop. apply preserves_for_each. intro vol.
  unfold process_volume. apply preserves_try_except_else.
  - unfold volume_body. apply preserves_bind.
    + unfold wrong. frame.
    + intros _. apply retention_step_candidates.
  - intro e. unfold wrong. frame.
  - unfold wrong. frame.
Qed.

(** C4.  A snapshot is a candidate exactly when its description starts
    with the period followed by [_snapshot]; the others are logged as
    skipped by the classification loop; and no deletion is requested
    in the volume loop for a snapshot that is not a candidate. *)
Theorem classification_by_prefix :
  (forall p sndesc,
      is_candidate p sndesc
      = Py.startswith sndesc (period_name p ++ "_snapshot"))
  /\ is_candidate Day "day_snapshot_extra text" = true
  /\ (forall p, is_candidate p "daily_snapshot" = false)
  /\ (forall snaps (st : State W),
         classify_loop period snaps [] st
         = (record st
              (map skipped
                 (filter
                    (fun s => negb (Py.startswith (description s)
                                      (period_name period ++ "_snapshot")))
                    snaps)),
            Ok (filter
                  (fun s => Py.startswith (description s)
                              (period_name period ++ "_snapshot"))
                  snaps)))
  /\ (forall vols (st : State W) s,
         In s (proj deleted
                 (trace (fst (volume_loop P cfg fuel period date_suffix
                                vols st)))) ->
         In s (proj deleted (trace st))
         \/ Py.startswith (description s)
              (period_name period ++ "_snapshot") = true).
Proof.
  split; [| split; [| split; [| split]]].
  - apply is_candidate_prefix.
  - reflexivity.
  - intros []; reflexivity.
  - intros snaps st. rewrite classify_loop_spec. unfold classify.
    f_equal; [f_equal; f_equal | f_equal];
      apply filter_ext; intros s; rewrite is_candidate_prefix; reflexivity.
  - intros vols st s Hin.
    destruct (is_candidate period (description s)) eqn:Hc.
    + right. rewrite <- is_candidate_prefix. exact Hc.
    + left. apply (deleted_in period).
      pose proof (volume_loop_candidates vols st) as Hw. unfold wrong in Hw.
      rewrite <- Hw. apply wrongly_deleted_in; assumption.
Qed.

End Candidates.

(** ** Pruning without a destination connection *)

Section Unbound.
Context {W : Type}.
Variable P : Provider W.
Variable cfg : Config.
Variable fuel : nat.
Variable period : Period.
Variable date_suffix : string.

(** What the loop of lines 238-240 logs. *)
Definition listed (snap : Snapshot) : list Event :=
  [EvLog INFO ("Snapshot:" ++ snap_id snap); EvLog INFO (start_time snap)].

Lemma listing_loop_run (dl : list Snapshot) (st : State W) :
  for_each dl (fun snap =>
    bind (logging_info ("Snapshot:" ++ snap_id snap))
      (fun _ => logging_info (start_time snap))) st
  = (record st (flat_map listed dl), Ok tt).
Proof.
  revert st. induction dl as [| s r IH]; intros st; simpl.
  - rewrite record_nil. reflexivity.
  - unfold bind at 1. unfold logging_info at 1 2.
    rewrite bind_emit, emit_record. rewrite IH, !record_record.
    reflexivity.
Qed.

Lemma delete_with_cascade_unbound (dl : list Snapshot) (i : nat)
  (st : State W) :
  dest_conn st = None ->
  delete_with_cascade P dl i st
  = match nth_error dl i with
    | None => (st, Raise IndexError)
    | Some s =>
        let st1 :=
          record st [EvLog INFO ("     Deleting snapshot " ++ description s)]
        in
        match delete P (world st) (snap_id s) with
        | (w, Ret _) =>
            (answered st1 w (DeleteSnapshot s) Done,
             Raise (NameError "dest_conn"))
        | (w, Rejected msg) =>
            (answered st1 w (DeleteSnapshot s) (Refused msg),
             Raise (ProviderError (DeleteSnapshot s) msg))
        end
    end.
Proof.
  intros Hd. unfold delete_with_cascade.
  destruct (nth_error dl i) as [s |]; [| reflexivity].
  unfold bind, ret, logging_info, emit, modify, call, read_dest_conn,
    record.
  cbn.
  destruct (delete P (world st) (snap_id s)) as [w [[] | msg]]; cbn;
    rewrite ?Hd; reflexivity.
Qed.

(** The state and the exception of the first pass of the deletion loop
    when [dest_conn] is unbound. *)
Definition first_deletion (s : Snapshot) (st : State W) : State W * Exn :=
  let st1 :=
    record st [EvLog INFO ("     Deleting snapshot " ++ description s)] in
  match delete P (world st) (snap_id s) with
  | (w, Ret _) =>
      (answered st1 w (DeleteSnapshot s) Done, NameError "dest_conn")
  | (w, Rejected msg) =>
      (answered st1 w (DeleteSnapshot s) (Refused msg),
       ProviderError (DeleteSnapshot s) msg)
  end.

Lemma prune_unbound (dl : list Snapshot) (k : Z) (s : Snapshot)
  (st : State W) :
  dest_conn st = None ->
  keep_of cfg period = Some k ->
  (k < Z.of_nat (length dl))%Z ->
  hd_error (sort_by date_compare dl) = Some s ->
  prune P cfg period dl st
  = (fst (first_deletion s (record st (flat_map listed dl))),
     Raise (snd (first_deletion s (record st (flat_map listed dl))))).
Proof.
  intros Hd Hk Hlt Hhd. unfold prune.
  erewrite bind_ok by apply listing_loop_run.
  rewrite Hk. cbv zeta.
  change (bind (ret k) ?f ?x) with (f k x). cbv beta.
  unfold delta_of, Py.range. rewrite sort_by_length.
  destruct (Z.to_nat (Z.of_nat (length dl) - k)) as [| n] eqn:En; [lia |].
  cbn [seq for_each]. unfold bind at 1 2.
  rewrite delete_with_cascade_unbound by exact Hd.
  destruct (sort_by date_compare dl) as [| s0 r]; [discriminate |].
  simpl in Hhd. injection Hhd as ->. cbn [nth_error].
  unfold first_deletion. cbv zeta. cbn [world record].
  destruct (delete P (world st) (snap_id s)) as [w [[] | msg]]; reflexivity.
Qed.

Lemma prune_within_keep (dl : list Snapshot) (k : Z) (st : State W) :
  keep_of cfg period = Some k ->
  (Z.of_nat (length dl) <= k)%Z ->
  prune P cfg period dl st
  = (record st (flat_map listed dl ++ [EvSleep 3]), Ok tt).
Proof.
  intros Hk Hle. unfold prune.
  erewrite bind_ok by apply listing_loop_run.
  rewrite Hk. cbv zeta.
  change (bind (ret k) ?f ?x) with (f k x). cbv beta.
  unfold delta_of, Py.range. rewrite sort_by_length.
  replace (Z.to_nat (Z.of_nat (length dl) - k)) with 0%nat by lia.
  cbn [seq for_each]. unfold bind, ret, sleep. rewrite emit_record.
  rewrite record_record. reflexivity.
Qed.

End Unbound.

Lemma listed_not_selected {X} (sel : Event -> list X) (dl : list Snapshot) :
  (forall level text, sel (EvLog level text) = []) ->
  proj sel (flat_map listed dl) = [].
Proof.
  intros H. induction dl as [| s r IH]; [reflexivity |].
  unfold proj in *. simpl. rewrite !H, IH. reflexivity.
Qed.

Section UnboundVolume.
Context {W : Type}.
Variable P : Provider W.
Variable cfg : Config.
Variable fuel : nat.
Variable period : Period.
Variable date_suffix : string.

Hypothesis no_copy : Py.truthy_opt (copy_region_name cfg) = false.

Lemma snapshot_step_keeps_dest_conn (vol : Volume) :
  preserves (@dest_conn W) (snapshot_step P cfg fuel period date_suffix vol).
Proof. frame. Qed.

Lemma snapshot_step_keeps_deleted (vol : Volume) :
  preserves (fun st => proj deleted (trace st))
    (snapshot_step P cfg fuel period date_suffix vol).
Proof. frame. Qed.

Lemma snapshot_step_keeps_total_deletes (vol : Volume) :
  preserves (@total_deletes W)
    (snapshot_step P cfg fuel period date_suffix vol).
Proof. frame. Qed.

Lemma snapshot_step_keeps_count_errors (vol : Volume) :
  preserves (@count_errors W)
    (snapshot_step P cfg fuel period date_suffix vol).
Proof. frame. Qed.

Lemma snapshot_step_keeps_count_success (vol : Volume) :
  preserves (@count_success W)
    (snapshot_step P cfg fuel period date_suffix vol).
Proof. frame. Qed.

(** C9.  With no destination region configured [dest_conn] is never
    bound.  For a volume that reaches the retention step with more
    candidates than [keep], the deletion loop requests the deletion of
    the oldest candidate and then raises before [total_deletes] is
    incremented (a [NameError] on [dest_conn] when the deletion was
    accepted): one deletion is requested for the volume, the volume is
    counted as errored and [total_deletes] is unchanged. *)
Theorem unbound_destination_stops_pruning (vol : Volume) (st st1 : State W)
  (w : W) (snaps : list Snapshot) (k : Z) :
  dest_conn st = None ->
  keep_of cfg period = Some k ->
  (0 <= k)%Z ->
  snapshot_step P cfg fuel period date_suffix vol st = (st1, Ok tt) ->
  snapshots P (world st1) (vol_id vol) = (w, Ret snaps) ->
  (k < Z.of_nat (length (classify period snaps)))%Z ->
  exists oldest st' e,
    hd_error (sort_by date_compare (classify period snaps)) = Some oldest
    /\ process_volume P cfg fuel period date_suffix vol st = (st', Ok tt)
    /\ proj deleted (trace st') = proj deleted (trace st) ++ [oldest]
    /\ proj raised (trace st') = proj raised (trace st1) ++ [e]
    /\ (snd (delete P w (snap_id oldest)) = Ret tt ->
        e = NameError "dest_conn")
    /\ count_errors st' = (count_errors st + 1)%Z
    /\ count_success st' = count_success st
    /\ total_deletes st' = total_deletes st
    /\ dest_conn st' = None.
Proof.
  intros Hd Hk Hk0 Hstep Hsnaps Hlt.
  pose proof (@preserves_run _ _ _ _ _ _ _ _ (snapshot_step_keeps_dest_conn vol) Hstep) as Hd1.
  pose proof (@preserves_run _ _ _ _ _ _ _ _ (snapshot_step_keeps_deleted vol) Hstep) as Hdel1.
  pose proof (@preserves_run _ _ _ _ _ _ _ _ (snapshot_step_keeps_total_deletes vol) Hstep)
    as Htd1.
  pose proof (@preserves_run _ _ _ _ _ _ _ _ (snapshot_step_keeps_count_errors vol) Hstep)
    as Hce1.
  pose proof (@preserves_run _ _ _ _ _ _ _ _ (snapshot_step_keeps_count_success vol) Hstep)
    as Hcs1.
  simpl in Hdel1. rewrite Hd in Hd1.
  set (dl := classify period snaps) in *.
  destruct (sort_by date_compare dl) as [| oldest rest] eqn:Esort.
  { exfalso. pose proof (sort_by_length date_compare dl) as Hl.
    rewrite Esort in Hl. simpl in Hl. lia. }
  set (st2 := record
                (answered st1 w (VolumeSnapshots (vol_id vol))
                   (GotSnapshots snaps))
                (map skipped
                   (filter
                      (fun s => negb (is_candidate period (description s)))
                      snaps))).
  assert (Hbody : volume_body P cfg fuel period date_suffix vol st
                  = (fst (first_deletion P oldest
                            (record st2 (flat_map listed dl))),
                     Raise (snd (first_deletion P oldest
                                   (record st2 (flat_map listed dl)))))).
  { unfold volume_body. erewrite bind_ok by exact Hstep.
    rewrite retention_step_run, Hsnaps. fold dl. fold st2.
    apply prune_unbound with (k := k); auto.
    rewrite Esort. reflexivity. }
  apply process_volume_raise in Hbody.
  exists oldest. eexists.
  exists (snd (first_deletion P oldest (record st2 (flat_map listed dl)))).
  split; [reflexivity |].
  split; [exact Hbody |].
  unfold first_deletion, failed, failure_report, st2. cbn [world record answered].
  destruct (delete P w (snap_id oldest)) as [w' [[] | msg]];
    cbn [fst snd trace answered record count_errors count_success
         total_deletes dest_conn world];
    rewrite !proj_app;
    rewrite ?skipped_not_deleted, ?listed_not_selected by reflexivity;
    cbn [proj flat_map deleted raised app];
    rewrite ?app_nil_r, Hdel1;
    repeat split; auto; try lia; try discriminate.
Qed.

(** Without a destination region the name stays unbound over the whole
    loop. *)
Lemma volume_loop_keeps_unbound (vols : list Volume) :
  preserves (@dest_conn W) (volume_loop P cfg fuel period date_suffix vols).
Proof.
  unfold volume_loop. apply preserves_for_each. intro vol.
  unfold process_volume.
  apply preserves_try_except_else; [frame | intro; frame | frame].
Qed.

End UnboundVolume.

(** ** The snapshot a failed creation leaves bound *)

(** The ids of the snapshots [create_snapshot] returned. *)
Definition created (ev : Event) : list string :=
  match ev with
  | EvCall (CreateSnapshot _ _) (GotSnapshot s) => [snap_id s]
  | _ => []
  end.

Definition latest (l : list string) : option string :=
  last (map Some l) None.

(** The status and copy requests that name another snapshot than [i]. *)
Definition foreign (i : string) (ev : Event) : list string :=
  match ev with
  | EvCall (UpdateSnapshot j) _ => if (j =? i)%string then [] else [j]
  | EvCall (CopySnapshot _ j _) _ => if (j =? i)%string then [] else [j]
  | _ => []
  end.

(** The id of the snapshot bound to [current_snap]. *)
Definition bound_id {W : Type} (st : State W) : option string :=
  option_map snap_id (current_snap st).

Lemma latest_snoc (l : list string) (x : string) :
  latest (l ++ [x]) = Some x.
Proof.
  unfold latest. rewrite map_app. simpl. apply last_last.
Qed.

Section BoundSnapshot.
Context {W : Type}.
Variable P : Provider W.
Variable cfg : Config.
Variable fuel : nat.
Variable period : Period.
Variable date_suffix : string.

(** [current_snap], when bound, is bound to the snapshot returned last. *)
Definition latest_bound (st : State W) : Prop :=
  bound_id st = latest (proj created (trace st)).

Lemma resource_add_tag_keeps_id (k v : string) :
  preserves (@bound_id W) (resource_add_tag P k v).
Proof.
  intro st. unfold resource_add_tag, bind, read_current_snap, call, bound_id.
  destruct (current_snap st) as [r |] eqn:Hc; [| simpl; rewrite Hc; auto].
  destruct (add_tag P (world st) (snap_id r) k v) as [w [[] | msg]]; simpl;
    rewrite Hc; simpl; try rewrite Hc; reflexivity.
Qed.

Lemma wait_completed_keeps_id (n : nat) :
  preserves (@bound_id W) (wait_completed P n).
Proof.
  induction n as [| n IH]; intro st;
    destruct (current_snap st) as [s |] eqn:Hc.
  - destruct (status s =? "completed")%string eqn:Es.
    + rewrite (wait_done P 0 st Hc Es). reflexivity.
    + rewrite (wait_exhausted P st Hc Es). reflexivity.
  - simpl. unfold bind, read_current_snap. rewrite Hc. reflexivity.
  - destruct (status s =? "completed")%string eqn:Es.
    + rewrite (wait_done P (S n) st Hc Es). reflexivity.
    + rewrite (wait_round P n st Hc Es).
      destruct (update P (world st) (snap_id s)) as [w [v | msg]].
      * rewrite IH. unfold bound_id. simpl. rewrite Hc. reflexivity.
      * reflexivity.
  - simpl. unfold bind, read_current_snap. rewrite Hc. reflexivity.
Qed.

Lemma describe_volume_keeps_id (vol : Volume) :
  preserves (@bound_id W) (describe_volume P period date_suffix vol).
Proof. frame. Qed.

Lemma describe_volume_keeps_created (vol : Volume) :
  preserves (fun st => proj created (trace st))
    (describe_volume P period date_suffix vol).
Proof. frame. Qed.

Lemma copy_step_keeps_id (tgs : Py.dict) (descr : string) :
  preserves (@bound_id W) (copy_step P cfg fuel tgs descr).
Proof.
  pose proof wait_completed_keeps_id as Hw. frame.
Qed.

Lemma copy_step_keeps_created (tgs : Py.dict) (descr : string) :
  preserves (fun st => proj created (trace st))
    (copy_step P cfg fuel tgs descr).
Proof. frame. Qed.

Lemma retention_step_keeps_id (vol : Volume) :
  preserves (@bound_id W) (retention_step P cfg period vol).
Proof. frame. Qed.

Lemma retention_step_keeps_created (vol : Volume) :
  preserves (fun st => proj created (trace st))
    (retention_step P cfg period vol).
Proof. frame. Qed.

Lemma set_resource_tags_keeps_id (tgs : Py.dict) :
  preserves (@bound_id W) (set_resource_tags P tgs).
Proof.
  pose proof resource_add_tag_keeps_id as Ha. frame.
Qed.

Lemma set_resource_tags_keeps_created (tgs : Py.dict) :
  preserves (fun st => proj created (trace st)) (set_resource_tags P tgs).
Proof. frame. Qed.

End BoundSnapshot.

Section Keeps.
Context {W : Type}.

(** A property of the state that holds after the block when it held
    before. *)
Definition keeps {A} (I : State W -> Prop) (m : M W A) : Prop :=
  forall st, I st -> I (fst (m st)).

Lemma keeps_bind {A B} (I : State W -> Prop) (m : M W A) (k : A -> M W B) :
  keeps I m -> (forall a, keeps I (k a)) -> keeps I (bind m k).
Proof.
  intros Hm Hk st Hst. unfold bind. specialize (Hm st Hst).
  destruct (m st) as [st1 [a | e |]]; simpl in *; try assumption.
  apply Hk. assumption.
Qed.

Lemma keeps_try_except_else (I : State W -> Prop) (m : M W unit)
  (h : Exn -> M W unit) (orelse : M W unit) :
  keeps I m -> (forall e, keeps I (h e)) -> keeps I orelse ->
  keeps I (try_except_else m h orelse).
Proof.
  intros Hm Hh Ho st Hst. unfold try_except_else. specialize (Hm st Hst).
  destruct (m st) as [st1 [a | e |]]; simpl in *; try assumption.
  - apply Ho. assumption.
  - apply Hh. assumption.
Qed.

Lemma keeps_for_each {A} (I : State W -> Prop) (l : list A)
  (body : A -> M W unit) :
  (forall a, keeps I (body a)) -> keeps I (for_each l body).
Proof.
  intros Hb. induction l as [| x r IH]; simpl.
  - intros st Hst. exact Hst.
  - apply keeps_bind; [apply Hb | intros _; exact IH].
Qed.

Lemma keeps_latest_bound {A} (m : M W A) :
  preserves (@bound_id W) m ->
  preserves (fun st => proj created (trace st)) m ->
  keeps latest_bound m.
Proof.
  intros H1 H2 st Hst. unfold latest_bound in *.
  rewrite H1. simpl in H2. rewrite H2. exact Hst.
Qed.

End Keeps.

Section CreateStep.
Context {W : Type}.
Variable P : Provider W.
Variable cfg : Config.
Variable fuel : nat.
Variable period : Period.
Variable date_suffix : string.

(** What the handler of the creation and copy steps records. *)
Definition unexpected (e : Exn) : list Event :=
  [EvPrint ("Unexpected error: " ++ exn_class e); EvTraceback e;
   EvLog ERROR (exn_str e)].

Lemma log_unexpected_run (e : Exn) (st : State W) :
  log_unexpected e st = (record st (unexpected e), Ok tt).
Proof.
  unfold log_unexpected, print, logging_error.
  rewrite !bind_emit, emit_record, !record_record. reflexivity.
Qed.

Lemma create_step_rejected (vol : Volume) (tgs : Py.dict) (descr : string)
  (st : State W) (w : W) (msg : string) :
  create_snapshot P (world st) (vol_id vol) descr = (w, Rejected msg) ->
  create_step P vol tgs descr st
  = (record
       (answered st w (CreateSnapshot (vol_id vol) descr) (Refused msg))
       (unexpected (ProviderError (CreateSnapshot (vol_id vol) descr) msg)),
     Ok tt).
Proof.
  intros H. unfold create_step, try_except.
  erewrite bind_raise by (unfold call; rewrite H; reflexivity).
  apply log_unexpected_run.
Qed.

(** The rest of the creation step, once [current_snap] is bound. *)
Definition after_create (tgs : Py.dict) (descr : string) : M W unit :=
  bind (set_resource_tags P tgs) (fun _ =>
  bind (print ("     " ++ "Snapshot created with description: " ++ descr
               ++ " and tags: " ++ Py.repr tgs)) (fun _ =>
  bind (logging_info ("Snapshot created with description: " ++ descr
                      ++ " and tags: " ++ Py.repr tgs)) (fun _ =>
  bind (gets (@total_creates W)) (fun n =>
  set_total_creates (n + 1)%Z)))).

(** The state in which the rest of the creation step starts. *)
Definition bound_to (st : State W) (w : W) (c : Call) (snap : Snapshot)
  : State W :=
  mkState w (trace st ++ [EvCall c (GotSnapshot snap)]) (message st)
    (errmsg st) (total_creates st) (total_copies st) (total_deletes st)
    (count_errors st) (count_success st) (count_total st) (Some snap)
    (dest_conn st).

Lemma create_step_accepted (vol : Volume) (tgs : Py.dict) (descr : string)
  (st : State W) (w : W) (snap : Snapshot) :
  create_snapshot P (world st) (vol_id vol) descr = (w, Ret snap) ->
  create_step P vol tgs descr st
  = try_except (after_create tgs descr) log_unexpected
      (bound_to st w (CreateSnapshot (vol_id vol) descr) snap).
Proof.
  intros H. unfold create_step, try_except, bind at 1, call.
  rewrite H. reflexivity.
Qed.

Lemma create_step_keeps_latest_bound (vol : Volume) (tgs : Py.dict)
  (descr : string) :
  keeps latest_bound (create_step P vol tgs descr).
Proof.
  intros st Hst.
  destruct (create_snapshot P (world st) (vol_id vol) descr)
    as [w [snap | msg]] eqn:E.
  - rewrite (create_step_accepted vol tgs descr st E).
    assert (H1 : preserves (@bound_id W)
                   (try_except (after_create tgs descr)
                      (@log_unexpected W))).
    { pose proof (set_resource_tags_keeps_id P) as Ht.
      unfold after_create. frame. }
    assert (H2 : preserves (fun st => proj created (trace st))
                   (try_except (after_create tgs descr)
                      (@log_unexpected W))).
    { pose proof (set_resource_tags_keeps_created P) as Ht.
      unfold after_create. frame. }
    apply (keeps_latest_bound H1 H2).
    unfold latest_bound, bound_id, bound_to. simpl.
    rewrite proj_snoc. simpl. rewrite latest_snoc. reflexivity.
  - rewrite (create_step_rejected vol tgs descr st E).
    unfold latest_bound, bound_id in *. simpl.
    rewrite !proj_app. simpl. rewrite !app_nil_r. exact Hst.
Qed.

Lemma volume_loop_keeps_latest_bound (vols : list Volume) :
  keeps latest_bound (volume_loop P cfg fuel period date_suffix vols).
Proof.
  unfold volume_loop. apply keeps_for_each. intro vol.
  unfold process_volume. apply keeps_try_except_else.
  - unfold volume_body, snapshot_step.
    apply keeps_bind; [apply keeps_bind | intros _].
    + apply keeps_latest_bound;
        [apply describe_volume_keeps_id | apply describe_volume_keeps_created].
    + intros described. apply keeps_bind.
      * apply create_step_keeps_latest_bound.
      * intros _. apply keeps_latest_bound;
          [apply copy_step_keeps_id | apply copy_step_keeps_created].
    + apply keeps_latest_bound;
        [apply retention_step_keeps_id | apply retention_step_keeps_created].
  - intro e. apply keeps_latest_bound; frame.
  - apply keeps_latest_bound; frame.
Qed.

End CreateStep.

Section StaleCopy.
Context {W : Type}.
Variable P : Provider W.
Variable cfg : Config.
Variable fuel : nat.
Variable period : Period.
Variable date_suffix : string.

Hypothesis with_copy : Py.truthy_opt (copy_region_name cfg) = true.

Let region : string :=
  match copy_region_name cfg with
  | Some r => r
  | None => EmptyString
  end.

Lemma copy_step_with_region (tgs : Py.dict) (descr : string) :
  copy_step P cfg fuel tgs descr
  = try_except
      (bind (wait_completed P fuel)
         (fun _ => ship_snapshot P cfg region tgs descr))
      log_unexpected.
Proof. unfold copy_step. rewrite with_copy. reflexivity. Qed.

Lemma copy_step_unbound (tgs : Py.dict) (descr : string) (st : State W) :
  current_snap st = None ->
  copy_step P cfg fuel tgs descr st
  = (record st (unexpected (NameError "current_snap")), Ok tt).
Proof.
  intros Hc. rewrite copy_step_with_region. unfold try_except.
  erewrite bind_raise with (st1 := st) (e := NameError "current_snap").
  - apply log_unexpected_run.
  - destruct fuel; simpl; unfold bind, read_current_snap; rewrite Hc;
      reflexivity.
Qed.

(** The state in which the copy request is made. *)
Definition with_client (st : State W) (w : W) : State W :=
  mkState w (trace st ++ [EvCall (Boto3Client region) Done]) (message st)
    (errmsg st) (total_creates st) (total_copies st) (total_deletes st)
    (count_errors st) (count_success st) (count_total st) (current_snap st)
    (Some region).

Definition copy_request (s : Snapshot) (descr : string) : Call :=
  CopySnapshot (ec2_region_name cfg) (snap_id s)
    ("[Copied from " ++ ec2_region_name cfg ++ "] " ++ descr).

Lemma ship_snapshot_run (tgs : Py.dict) (descr : string) (s : Snapshot)
  (st : State W) :
  current_snap st = Some s ->
  ship_snapshot P cfg region tgs descr st
  = match boto3_client P (world st) region with
    | (w1, Rejected msg) =>
        (answered st w1 (Boto3Client region) (Refused msg),
         Raise (ProviderError (Boto3Client region) msg))
    | (w1, Ret _) =>
        match copy_snapshot P w1 (ec2_region_name cfg) (snap_id s)
                ("[Copied from " ++ ec2_region_name cfg ++ "] " ++ descr)
        with
        | (w2, Rejected msg) =>
            (answered (with_client st w1) w2 (copy_request s descr)
               (Refused msg),
             Raise (ProviderError (copy_request s descr) msg))
        | (w2, Ret copied) =>
            tag_copy P copied region tgs
              (answered (with_client st w1) w2 (copy_request s descr)
                 (GotId copied))
        end
    end.
Proof.
  intros Hc. unfold ship_snapshot, bind at 1, call at 1.
  destruct (boto3_client P (world st) region) as [w1 [[] | msg]];
    [| reflexivity].
  unfold set_dest_conn, bind, modify, read_dest_conn, read_current_snap,
    call, copy_request, with_client, answered.
  cbn [world trace message errmsg total_creates total_copies total_deletes
       count_errors count_success count_total current_snap dest_conn].
  rewrite Hc.
  cbn [world trace message errmsg total_creates total_copies total_deletes
       count_errors count_success count_total current_snap dest_conn].
  destruct (copy_snapshot P w1 (ec2_region_name cfg) (snap_id s) _)
    as [w2 [copied | msg]]; reflexivity.
Qed.

Lemma round_not_foreign (i v : string) :
  proj (foreign i) (round i v) = [].
Proof. unfold proj, round. simpl. rewrite String.eqb_refl. reflexivity. Qed.

Lemma wait_completed_not_foreign (n : nat) (s : Snapshot) (st : State W) :
  current_snap st = Some s ->
  proj (foreign (snap_id s)) (trace (fst (wait_completed P n st)))
  = proj (foreign (snap_id s)) (trace st).
Proof.
  revert s st. induction n as [| n IH]; intros s st Hc;
    destruct (status s =? "completed")%string eqn:Es.
  - rewrite (wait_done P 0 st Hc Es). reflexivity.
  - rewrite (wait_exhausted P st Hc Es). reflexivity.
  - rewrite (wait_done P (S n) st Hc Es). reflexivity.
  - rewrite (wait_round P n st Hc Es).
    destruct (update P (world st) (snap_id s)) as [w [v | msg]].
    + rewrite (IH (with_status s v)) by reflexivity. simpl.
      rewrite proj_app, round_not_foreign. apply app_nil_r.
    + simpl. rewrite !proj_snoc. simpl. rewrite String.eqb_refl.
      rewrite !app_nil_r. reflexivity.
Qed.

Lemma tag_copy_keeps_foreign (i copied : string) (tgs : Py.dict) :
  preserves (fun st => proj (foreign i) (trace st))
    (tag_copy P copied region tgs).
Proof. frame. Qed.

Lemma tag_copy_keeps_copy_requests (copied : string) (tgs : Py.dict) :
  preserves (fun st => proj copy_requests (trace st))
    (tag_copy P copied region tgs).
Proof. frame. Qed.

Lemma ship_snapshot_not_foreign (tgs : Py.dict) (descr : string)
  (s : Snapshot) (st : State W) :
  current_snap st = Some s ->
  proj (foreign (snap_id s))
    (trace (fst (ship_snapshot P cfg region tgs descr st)))
  = proj (foreign (snap_id s)) (trace st).
Proof.
  intros Hc. rewrite (ship_snapshot_run tgs descr st Hc).
  destruct (boto3_client P (world st) region) as [w1 [[] | msg]].
  - destruct (copy_snapshot P w1 _ _ _) as [w2 [copied | msg]].
    + rewrite tag_copy_keeps_foreign. simpl.
      rewrite !proj_snoc. simpl. rewrite String.eqb_refl.
      rewrite !app_nil_r. reflexivity.
    + simpl. rewrite !proj_snoc. simpl. rewrite String.eqb_refl.
      rewrite !app_nil_r. reflexivity.
  - simpl. rewrite proj_snoc. apply app_nil_r.
Qed.

Lemma ship_snapshot_requests_copy (tgs : Py.dict) (descr : string)
  (s : Snapshot) (st : State W) (w1 : W) :
  current_snap st = Some s ->
  boto3_client P (world st) region = (w1, Ret tt) ->
  proj copy_requests
    (trace (fst (ship_snapshot P cfg region tgs descr st)))
  = proj copy_requests (trace st) ++ [copy_request s descr].
Proof.
  intros Hc Hb. rewrite (ship_snapshot_run tgs descr st Hc), Hb.
  destruct (copy_snapshot P w1 _ _ _) as [w2 [copied | msg]].
  - rewrite tag_copy_keeps_copy_requests. simpl.
    rewrite !proj_snoc. simpl. rewrite app_nil_r. reflexivity.
  - simpl. rewrite !proj_snoc. simpl. rewrite app_nil_r. reflexivity.
Qed.

Lemma unexpected_not_selected {X} (sel : Event -> list X) (e : Exn) :
  (forall line, sel (EvPrint line) = []) ->
  sel (EvTraceback e) = [] ->
  (forall level text, sel (EvLog level text) = []) ->
  proj sel (unexpected e) = [].
Proof.
  intros H1 H2 H3. unfold proj, unexpected. simpl.
  rewrite H1, H2, H3. reflexivity.
Qed.

Lemma copy_step_not_foreign (tgs : Py.dict) (descr : string) (s : Snapshot)
  (st : State W) :
  current_snap st = Some s ->
  proj (foreign (snap_id s)) (trace (fst (copy_step P cfg fuel tgs descr st)))
  = proj (foreign (snap_id s)) (trace st).
Proof.
  intros Hc. rewrite copy_step_with_region. unfold try_except, bind.
  pose proof (wait_completed_not_foreign fuel st Hc) as Hw.
  pose proof (wait_completed_keeps_id P fuel st) as Hi.
  destruct (wait_completed P fuel st) as [std [[] | e |]];
    cbn [fst snd] in Hw, Hi |- *.
  - unfold bound_id in Hi. rewrite Hc in Hi.
    destruct (current_snap std) as [s' |] eqn:Hc'; [| discriminate].
    simpl in Hi. injection Hi as Hi.
    pose proof (ship_snapshot_not_foreign tgs descr std Hc') as Hs.
    rewrite Hi in Hs.
    destruct (ship_snapshot P cfg region tgs descr std) as [ste [[] | e |]];
      cbn [fst snd] in Hs |- *; try congruence.
    rewrite log_unexpected_run. cbn [fst snd trace record].
    rewrite proj_app, unexpected_not_selected by reflexivity.
    rewrite app_nil_r. congruence.
  - rewrite log_unexpected_run. cbn [fst snd trace record].
    rewrite proj_app, unexpected_not_selected by reflexivity.
    rewrite app_nil_r. exact Hw.
  - exact Hw.
Qed.

Lemma copy_step_requests_copy (tgs : Py.dict) (descr : string)
  (s : Snapshot) (st std : State W) (w1 : W) :
  current_snap st = Some s ->
  wait_completed P fuel st = (std, Ok tt) ->
  boto3_client P (world std) region = (w1, Ret tt) ->
  proj copy_requests (trace (fst (copy_step P cfg fuel tgs descr st)))
  = proj copy_requests (trace st)
    ++ [CopySnapshot (ec2_region_name cfg) (snap_id s)
          ("[Copied from " ++ ec2_region_name cfg ++ "] " ++ descr)].
Proof.
  intros Hc Hw Hb. rewrite copy_step_with_region. unfold try_except, bind.
  rewrite Hw.
  assert (Hk : preserves (fun st => proj copy_requests (trace st))
                 (wait_completed P fuel)) by frame.
  pose proof (@preserves_run _ _ _ _ _ _ _ _ Hk Hw) as Hk'. simpl in Hk'.
  pose proof (@preserves_run _ _ _ _ _ _ _ _
                (wait_completed_keeps_id P fuel) Hw) as Hi.
  unfold bound_id in Hi. rewrite Hc in Hi.
  destruct (current_snap std) as [s' |] eqn:Hc'; [| discriminate].
  simpl in Hi. injection Hi as Hi.
  pose proof (ship_snapshot_requests_copy tgs descr std Hc' Hb) as Hs.
  unfold copy_request in Hs. rewrite Hi, Hk' in Hs.
  destruct (ship_snapshot P cfg region tgs descr std) as [ste [[] | e |]];
    cbn [fst snd] in Hs |- *; try exact Hs.
  rewrite log_unexpected_run. cbn [fst snd trace record].
  rewrite proj_app, unexpected_not_selected by reflexivity.
  rewrite app_nil_r. exact Hs.
Qed.

(** C10, as the script has it.  When [create_snapshot] is rejected for a
    volume and a destination region is configured, [current_snap] is
    not rebound.  If no [create_snapshot] was accepted for an earlier
    volume (so for the first volume), the copy step raises a
    [NameError] on [current_snap], which its handler prints and logs,
    and makes no request.  Otherwise [current_snap] is the snapshot
    returned last for an earlier volume: the status and copy requests
    of the copy step name no other snapshot, and once the wait returns
    and the client is made, a copy of that snapshot is requested. *)
Theorem failed_creation_copies_earlier_snapshot (before : list Volume)
  (vol : Volume) (st_init st0 sta : State W) (tgs : Py.dict)
  (descr : string) (wc : W) (msg : string) :
  current_snap st_init = None ->
  proj created (trace st_init) = [] ->
  volume_loop P cfg fuel period date_suffix before st_init = (st0, Ok tt) ->
  describe_volume P period date_suffix vol st0 = (sta, Ok (tgs, descr)) ->
  create_snapshot P (world sta) (vol_id vol) descr = (wc, Rejected msg) ->
  let stb := fst (create_step P vol tgs descr sta) in
  let stc := fst (copy_step P cfg fuel tgs descr stb) in
  bound_id stb = latest (proj created (trace st0))
  /\ (before = [] -> latest (proj created (trace st0)) = None)
  /\ (latest (proj created (trace st0)) = None ->
      copy_step P cfg fuel tgs descr stb
      = (record stb (unexpected (NameError "current_snap")), Ok tt))
  /\ (forall i,
         latest (proj created (trace st0)) = Some i ->
         (exists s, current_snap stb = Some s /\ snap_id s = i)
         /\ proj (foreign i) (trace stc) = proj (foreign i) (trace stb)
         /\ (forall std w1,
                wait_completed P fuel stb = (std, Ok tt) ->
                boto3_client P (world std) region = (w1, Ret tt) ->
                proj copy_requests (trace stc)
                = proj copy_requests (trace stb)
                  ++ [CopySnapshot (ec2_region_name cfg) i
                        ("[Copied from " ++ ec2_region_name cfg ++ "] "
                         ++ descr)])).
Proof.
  intros Hnone Hfresh Hloop Hdesc Hrej stb stc.
  assert (H0 : latest_bound st0).
  { pose proof (volume_loop_keeps_latest_bound P cfg fuel period
                  date_suffix before) as Hk.
    unfold keeps in Hk. specialize (Hk st_init).
    rewrite Hloop in Hk. apply Hk.
    unfold latest_bound, bound_id. rewrite Hnone, Hfresh. reflexivity. }
  pose proof (@preserves_run _ _ _ _ _ _ _ _
                (describe_volume_keeps_id P period date_suffix vol) Hdesc)
    as Hida.
  assert (Hb : bound_id stb = latest (proj created (trace st0))).
  { unfold stb. rewrite (create_step_rejected P vol tgs descr sta Hrej).
    unfold latest_bound in H0. rewrite <- H0, <- Hida. reflexivity. }
  split; [exact Hb |]. split; [| split].
  - intros ->. simpl in Hloop. injection Hloop as <-.
    rewrite Hfresh. reflexivity.
  - intros Hl. apply copy_step_unbound.
    rewrite Hl in Hb. unfold bound_id in Hb.
    destruct (current_snap stb); [discriminate | reflexivity].
  - intros i Hl. rewrite Hl in Hb. unfold bound_id in Hb.
    destruct (current_snap stb) as [s |] eqn:Hc; [| discriminate].
    simpl in Hb. injection Hb as Hb. subst i.
    split; [exists s; auto |]. split.
    + apply copy_step_not_foreign. exact Hc.
    + intros std w1 Hw Hcl.
      apply (copy_step_requests_copy tgs descr stb Hc Hw Hcl).
Qed.

End StaleCopy.

(** ** Copies and their cascade deletion *)




Section Cascade.
Context {W : Type}.
Variable P : Provider W.
Variable cfg : Config.



End Cascade.

Section CopyAndCascade.
Context {W : Type}.
Variable P : Provider W.
Variable cfg : Config.






Variable fuel : nat.




End CopyAndCascade.

(** ** Accounting of created snapshots and of errors *)

Section Accounting.
Context {W : Type}.
Variable P : Provider W.
Variable cfg : Config.
Variable fuel : nat.
Variable period : Period.
Variable date_suffix : string.

(** Between [st] and [st'] the exceptions [rs] were caught, and of [n]
    snapshots to create, all were created but at most one per exception
    and at least one less per rejected [create_snapshot]. *)
Definition accounted (n : Z) (st st' : State W) (rs : list Exn) : Prop :=
  proj raised (trace st') = proj raised (trace st) ++ rs
  /\ (n - Z.of_nat (length rs)
      <= total_creates st' - total_creates st
      <= n - Z.of_nat (length (filter is_create_error rs)))%Z.

Lemma accounted_trans (n1 n2 : Z) (st st1 st2 : State W)
  (rs1 rs2 : list Exn) :
  accounted n1 st st1 rs1 -> accounted n2 st1 st2 rs2 ->
  accounted (n1 + n2) st st2 (rs1 ++ rs2).
Proof.
  intros [H1 B1] [H2 B2]. split.
  - rewrite H2, H1, app_assoc. reflexivity.
  - rewrite filter_app, !length_app. lia.
Qed.

Lemma accounted_same {A} (m : M W A) (st st1 : State W) (r : Res A) :
  preserves (fun st => proj raised (trace st)) m ->
  preserves (@total_creates W) m ->
  m st = (st1, r) -> accounted 0 st st1 [].
Proof.
  intros H1 H2 Hrun. split.
  - rewrite app_nil_r.
    apply (@preserves_run _ _ _ _ _ _ _ _ H1 Hrun).
  - rewrite (@preserves_run _ _ _ _ _ _ _ _ H2 Hrun). simpl. lia.
Qed.

(** An exception other than a rejected creation makes up for a snapshot
    that was not created. *)
Lemma accounted_skip (n : Z) (st st' : State W) (rs : list Exn) :
  accounted n st st' rs ->
  forall e, is_create_error e = false ->
  forall st'', proj raised (trace st'') = proj raised (trace st') ++ [e] ->
  total_creates st'' = total_creates st' ->
  accounted (n + 1) st st'' (rs ++ [e]).
Proof.
  intros [H1 B1] e He st'' Ht Hc. split.
  - rewrite Ht, H1, app_assoc. reflexivity.
  - rewrite filter_app, !length_app. simpl. rewrite He, Hc. simpl. lia.
Qed.

Lemma accounted_more (n : Z) (st st' : State W) (rs : list Exn) :
  accounted n st st' rs ->
  forall e, is_create_error e = false ->
  forall st'', proj raised (trace st'') = proj raised (trace st') ++ [e] ->
  total_creates st'' = total_creates st' ->
  accounted n st st'' (rs ++ [e]).
Proof.
  intros [H1 B1] e He st'' Ht Hc. split.
  - rewrite Ht, H1, app_assoc. reflexivity.
  - rewrite filter_app, !length_app. simpl. rewrite He, Hc. simpl. lia.
Qed.

Lemma after_create_accounted (tgs : Py.dict) (descr : string)
  (st : State W) :
  exists rs,
    accounted 1 st
      (fst (try_except (after_create P tgs descr) (@log_unexpected W) st))
      rs
    /\ snd (try_except (after_create P tgs descr) (@log_unexpected W) st)
       = Ok tt.
Proof.
  assert (Hr : preserves (fun st => proj raised (trace st))
                 (set_resource_tags P tgs)) by frame.
  assert (Hc : preserves (@total_creates W) (set_resource_tags P tgs))
    by frame.
  assert (He : ends (set_resource_tags P tgs)) by ends_all.
  unfold try_except, after_create.
  specialize (Hr st). specialize (Hc st). specialize (He st).
  destruct (set_resource_tags P tgs st) as [sx [[] | e |]] eqn:Et;
    cbn [fst snd] in Hr, Hc, He.
  - erewrite bind_ok by exact Et.
    unfold print, logging_info. rewrite !bind_emit, bind_gets.
    unfold set_total_creates, modify.
    exists []. split; [| reflexivity]. split.
    + cbn [fst trace record]. rewrite !proj_app, Hr. simpl.
      rewrite !app_nil_r. reflexivity.
    + cbn. rewrite Hc. lia.
  - erewrite bind_raise by exact Et.
    exists [e]. rewrite log_unexpected_run. split; [| reflexivity]. split.
    + cbn [fst trace record]. rewrite proj_app, Hr. reflexivity.
    + cbn. rewrite Hc. destruct (is_create_error e); simpl; lia.
  - exfalso. apply He. reflexivity.
Qed.

Lemma create_step_accounted (vol : Volume) (tgs : Py.dict) (descr : string)
  (st : State W) :
  exists rs,
    accounted 1 st (fst (create_step P vol tgs descr st)) rs
    /\ snd (create_step P vol tgs descr st) = Ok tt.
Proof.
  destruct (create_snapshot P (world st) (vol_id vol) descr)
    as [w [snap | msg]] eqn:E.
  - rewrite (create_step_accepted P vol tgs descr st E).
    destruct (after_create_accounted tgs descr
                (bound_to st w (CreateSnapshot (vol_id vol) descr) snap))
      as (rs & [H1 B1] & Hok).
    exists rs. split; [| exact Hok]. split.
    + rewrite H1. cbn [trace bound_to]. rewrite proj_snoc.
      simpl. rewrite app_nil_r. reflexivity.
    + exact B1.
  - rewrite (create_step_rejected P vol tgs descr st E).
    exists [ProviderError (CreateSnapshot (vol_id vol) descr) msg].
    split; [| reflexivity]. split.
    + cbn [fst trace record answered]. rewrite proj_app, proj_snoc.
      simpl. rewrite app_nil_r. reflexivity.
    + cbn. lia.
Qed.

Lemma copy_step_accounted (tgs : Py.dict) (descr : string) (st : State W) :
  exists rs,
    accounted 0 st (fst (copy_step P cfg fuel tgs descr st)) rs
    /\ Forall (fun e => is_create_error e = false) rs
    /\ forall e, snd (copy_step P cfg fuel tgs descr st) <> Raise e.
Proof.
  unfold copy_step.
  destruct (Py.truthy_opt (copy_region_name cfg)).
  - cbv zeta.
    set (region := match copy_region_name cfg with
                   | Some r => r
                   | None => EmptyString
                   end).
    set (block := bind (wait_completed P fuel)
                    (fun _ => ship_snapshot P cfg region tgs descr)).
    assert (Hr : preserves (fun st => proj raised (trace st)) block)
      by (unfold block; frame).
    assert (Hc : preserves (@total_creates W) block)
      by (unfold block; frame).
    assert (Hq : raises_only (fun e => is_create_error e = false) block)
      by (unfold block; raises_all).
    unfold try_except. specialize (Hr st). specialize (Hc st).
    specialize (Hq st).
    destruct (block st) as [sx [[] | e |]]; cbn [fst snd] in *.
    + exists []. repeat split; try constructor; try discriminate.
      * rewrite app_nil_r. exact Hr.
      * simpl. lia.
      * simpl. lia.
    + exists [e]. rewrite log_unexpected_run.
      specialize (Hq e eq_refl). repeat split.
      * cbn [fst trace record]. rewrite proj_app, Hr. reflexivity.
      * cbn. lia.
      * cbn. rewrite Hq. simpl. lia.
      * constructor; [exact Hq | constructor].
      * discriminate.
    + exists []. repeat split; try constructor; try discriminate.
      * rewrite app_nil_r. exact Hr.
      * simpl. lia.
      * simpl. lia.
  - exists []. repeat split; try constructor; try discriminate.
    + simpl. rewrite app_nil_r. reflexivity.
    + simpl. lia.
    + simpl. lia.
Qed.

(** The exceptions among [rs] that are no rejected creation. *)
Definition other_errors (rs : list Exn) : Z :=
  (Z.of_nat (length rs) - Z.of_nat (length (filter is_create_error rs)))%Z.

Lemma other_errors_app (a b : list Exn) :
  other_errors (a ++ b) = (other_errors a + other_errors b)%Z.
Proof. unfold other_errors. rewrite filter_app, !length_app. lia. Qed.

Lemma other_errors_nonneg (rs : list Exn) : (0 <= other_errors rs)%Z.
Proof.
  unfold other_errors. pose proof (filter_length_le is_create_error rs). lia.
Qed.

Lemma failure_report_raised (vol : Volume) (e : Exn) :
  proj raised (failure_report vol e) = [e].
Proof. reflexivity. Qed.

Lemma process_volume_accounted (vol : Volume) (st st' : State W) :
  process_volume P cfg fuel period date_suffix vol st = (st', Ok tt) ->
  exists rs,
    accounted 1 st st' rs
    /\ (0 <= count_errors st' - count_errors st <= other_errors rs)%Z.
Proof.
  intros Hrun.
  pose proof (body_keeps_count_errors P cfg fuel period date_suffix vol st)
    as Herr.
  assert (Hq : raises_only (fun e => is_create_error e = false)
                 (volume_body P cfg fuel period date_suffix vol))
    by apply body_raises_no_create_error.
  (* the steps of the block, one by one *)
  destruct (describe_volume P period date_suffix vol st) as [sa ra] eqn:Ed.
  assert (Ha : accounted 0 st sa []).
  { eapply accounted_same; [| | exact Ed]; frame. }
  destruct ra as [[tgs descr] | e |].
  2: { assert (Hb : volume_body P cfg fuel period date_suffix vol st
                    = (sa, Raise e)).
       { unfold volume_body, snapshot_step.
         erewrite bind_raise; [reflexivity |].
         erewrite bind_raise; [reflexivity | exact Ed]. }
       pose proof (@raises_only_run _ _ _ _ _ _ _ Hq Hb) as He.
       rewrite Hb in Herr. cbn [fst] in Herr.
       apply process_volume_raise in Hb.
       rewrite Hb in Hrun. injection Hrun as <-.
       exists ([] ++ [e]). split.
       - apply (accounted_skip Ha e He); [| reflexivity].
         cbn [trace failed]. rewrite proj_app, failure_report_raised.
         reflexivity.
       - cbn [count_errors failed app]. unfold other_errors. simpl.
         rewrite He. simpl. lia. }
  2: { exfalso.
       assert (Hb : volume_body P cfg fuel period date_suffix vol st
                    = (sa, OutOfFuel)).
       { unfold volume_body, snapshot_step.
         erewrite bind_out_of_fuel; [reflexivity |].
         erewrite bind_out_of_fuel; [reflexivity | exact Ed]. }
       apply process_volume_out_of_fuel in Hb.
       rewrite Hb in Hrun. discriminate. }
  destruct (create_step_accounted vol tgs descr sa) as (rs1 & Hc1 & Hok1).
  destruct (create_step P vol tgs descr sa) as [sb rb] eqn:Ec.
  cbn [fst snd] in Hc1, Hok1. subst rb.
  destruct (copy_step_accounted tgs descr sb) as (rs2 & Hc2 & Hf2 & Hnr2).
  destruct (copy_step P cfg fuel tgs descr sb) as [sc rc] eqn:Ep.
  cbn [fst snd] in Hc2, Hnr2.
  assert (Hsnap : snapshot_step P cfg fuel period date_suffix vol st
                  = (sc, rc)).
  { unfold snapshot_step. erewrite bind_ok by exact Ed. cbn [fst snd].
    erewrite bind_ok by exact Ec. exact Ep. }
  pose proof (accounted_trans (accounted_trans Ha Hc1) Hc2) as H12.
  cbn [app Z.add] in H12.
  destruct rc as [[] | e |].
  2: { exfalso. apply (Hnr2 e). reflexivity. }
  2: { exfalso.
       assert (Hb : volume_body P cfg fuel period date_suffix vol st
                    = (sc, OutOfFuel)).
       { unfold volume_body.
         erewrite bind_out_of_fuel; [reflexivity | exact Hsnap]. }
       apply process_volume_out_of_fuel in Hb.
       rewrite Hb in Hrun. discriminate. }
  destruct (retention_step P cfg period vol sc) as [sd rd] eqn:Er.
  assert (Hd : accounted 0 sc sd []).
  { eapply accounted_same; [| | exact Er]; frame. }
  assert (Hb : volume_body P cfg fuel period date_suffix vol st
                    = (sd, rd)).
  { unfold volume_body.
    erewrite bind_ok by exact Hsnap. exact Er. }
  pose proof (accounted_trans H12 Hd) as H13.
  rewrite app_nil_r in H13. replace (0 + 1 + 0 + 0)%Z with 1%Z in H13 by lia.
  rewrite Hb in Herr. cbn [fst] in Herr.
  destruct rd as [[] | e |].
  - apply process_volume_ok in Hb. rewrite Hb in Hrun.
    injection Hrun as <-. exists (rs1 ++ rs2). split.
    + destruct H13 as [Ht Hbnd]. split; [exact Ht | exact Hbnd].
    + cbn [count_errors succeeded]. rewrite Herr.
      pose proof (other_errors_nonneg (rs1 ++ rs2)). lia.
  - pose proof (@raises_only_run _ _ _ _ _ _ _ Hq Hb) as He.
    apply process_volume_raise in Hb. rewrite Hb in Hrun.
    injection Hrun as <-. exists ((rs1 ++ rs2) ++ [e]). split.
    + apply (accounted_more H13 e He); [| reflexivity].
      cbn [trace failed]. rewrite proj_app, failure_report_raised.
      reflexivity.
    + cbn [count_errors failed]. rewrite Herr, other_errors_app.
      pose proof (other_errors_nonneg (rs1 ++ rs2)).
      unfold other_errors at 2. simpl. rewrite He. simpl. lia.
  - exfalso. apply process_volume_out_of_fuel in Hb.
    rewrite Hb in Hrun. discriminate.
Qed.

Lemma volume_loop_accounted (vols : list Volume) (st st' : State W) :
  volume_loop P cfg fuel period date_suffix vols st = (st', Ok tt) ->
  exists rs,
    accounted (Z.of_nat (length vols)) st st' rs
    /\ (0 <= count_errors st' - count_errors st <= other_errors rs)%Z.
Proof.
  unfold volume_loop. revert st.
  induction vols as [| v r IH]; intros st Hrun.
  - simpl in Hrun. injection Hrun as <-. exists []. split.
    + split; [rewrite app_nil_r; reflexivity | simpl; lia].
    + unfold other_errors. simpl. lia.
  - cbn [for_each] in Hrun. unfold bind in Hrun.
    destruct (process_volume P cfg fuel period date_suffix v st)
      as [st1 [[] | e |]] eqn:E; try discriminate.
    destruct (process_volume_accounted _ _ E) as (rs1 & Ha1 & Hb1).
    destruct (IH _ Hrun) as (rs2 & Ha2 & Hb2).
    exists (rs1 ++ rs2). split.
    + replace (Z.of_nat (length (v :: r)))
        with (1 + Z.of_nat (length r))%Z by (cbn [length]; lia).
      apply (accounted_trans Ha1 Ha2).
    + rewrite other_errors_app. lia.
Qed.

(** C2, as the script has it.  When in a pass over three volumes the
    only exception raised is one rejected [create_snapshot], all three
    volumes are counted as succeeded and none as errored, and two
    snapshots are counted as created: the creation step catches and
    logs its own exceptions. *)
Theorem one_failed_creation_of_three (v1 v2 v3 : Volume) (st st' : State W)
  (e : Exn) :
  volume_loop P cfg fuel period date_suffix [v1; v2; v3] st = (st', Ok tt) ->
  proj raised (trace st') = proj raised (trace st) ++ [e] ->
  is_create_error e = true ->
  count_success st' = (count_success st + 3)%Z
  /\ count_errors st' = count_errors st
  /\ total_creates st' = (total_creates st + 2)%Z
  /\ count_total st' = (count_total st + 3)%Z.
Proof.
  intros Hrun Hraised He.
  destruct (volume_loop_accounted _ _ Hrun) as (rs & [Ht Hb] & Herr).
  destruct (volume_loop_counts _ _ _ _ _ _ _ Hrun) as [Htotal Hsum].
  rewrite Hraised in Ht. apply app_inv_head in Ht. subst rs.
  unfold other_errors in Herr. cbn [length filter] in Hb, Herr, Htotal, Hsum.
  rewrite He in Hb, Herr. cbn [length] in Hb, Herr. lia.
Qed.

End Accounting.

(** * Further properties of the script *)

(** ** The tags of a resource (lines 143-151) *)

Lemma get_app (a b : Py.dict) (k : string) :
  Py.get (a ++ b) k
  = match Py.get a k with
    | Some v => Some v
    | None => Py.get b k
    end.
Proof.
  induction a as [| [k' v'] r IH]; simpl; [reflexivity |].
  destruct (k' =? k)%string; [reflexivity | exact IH].
Qed.

Lemma keys_set (d : Py.dict) (k v : string) :
  Py.keys (Py.set d k v)
  = if existsb (String.eqb k) (Py.keys d) then Py.keys d
    else Py.keys d ++ [k].
Proof.
  unfold Py.keys.
  induction d as [| [k' v'] r IH]; simpl; [reflexivity |].
  rewrite (String.eqb_sym k k').
  destruct (k' =? k)%string; simpl; [reflexivity |].
  rewrite IH.
  destruct (existsb (String.eqb k) (map fst r)); reflexivity.
Qed.

Lemma set_keys_nodup (d : Py.dict) (k v : string) :
  NoDup (Py.keys d) -> NoDup (Py.keys (Py.set d k v)).
Proof.
  intros Hnd. rewrite keys_set.
  destruct (existsb (String.eqb k) (Py.keys d)) eqn:E; [exact Hnd |].
  apply NoDup_app; [exact Hnd | repeat constructor; intros [] |].
  intros x Hx [Hk | []]. subst x.
  assert (existsb (String.eqb k) (Py.keys d) = true); [| congruence].
  apply existsb_exists. exists k. split; [exact Hx | apply String.eqb_refl].
Qed.

Lemma non_reserved_nodup (tags : list (string * string)) (acc : Py.dict) :
  NoDup (Py.keys acc) -> NoDup (Py.keys (fold_left non_reserved tags acc)).
Proof.
  revert acc. induction tags as [| t r IH]; intros acc Hnd; simpl;
    [exact Hnd |].
  apply IH. unfold non_reserved.
  destruct (negb (Py.startswith (fst t) "aws:")); [| exact Hnd].
  apply set_keys_nodup. exact Hnd.
Qed.

Lemma non_reserved_get (tags : list (string * string)) (acc : Py.dict)
  (k : string) :
  Py.get (fold_left non_reserved tags acc) k
  = if Py.startswith k "aws:" then Py.get acc k
    else match Py.get (rev tags) k with
         | Some v => Some v
         | None => Py.get acc k
         end.
Proof.
  revert acc. induction tags as [| [k' v'] r IH]; intros acc.
  - simpl. destruct (Py.startswith k "aws:"); reflexivity.
  - cbn [fold_left rev]. rewrite IH, get_app. cbn [Py.get].
    unfold non_reserved. cbn [fst snd].
    destruct (Py.startswith k "aws:") eqn:Ek.
    + destruct (Py.startswith k' "aws:") eqn:Ek'; cbn [negb];
        [reflexivity |].
      apply get_set_other. intros ->. congruence.
    + destruct (Py.get (rev r) k); [reflexivity |].
      destruct (String.eqb_spec k' k) as [-> | Hne].
      * rewrite Ek. cbn [negb]. apply get_set_same.
      * destruct (Py.startswith k' "aws:"); cbn [negb]; [reflexivity |].
        apply get_set_other. congruence.
Qed.

Section ResourceTags.
Context {W : Type}.
Variable P : Provider W.

(** X1.  [get_resource_tags] makes no request for an empty resource id
    and returns an empty [dict]; otherwise it makes one request, and of
    the tags in the answer the [dict] holds exactly those whose name does
    not start with [aws:], each name once, with the value listed last
    under that name. *)
Theorem resource_tags_lookup (resource_id : string) (st : State W) :
  (Py.truthy resource_id = false ->
   get_resource_tags P resource_id st = (st, Ok []))
  /\ (forall w tags,
         Py.truthy resource_id = true ->
         get_all_tags P (world st) resource_id = (w, Ret tags) ->
         exists d,
           get_resource_tags P resource_id st
           = (answered st w (GetAllTags resource_id) (GotTags tags), Ok d)
           /\ NoDup (Py.keys d)
           /\ forall k,
                Py.get d k
                = if Py.startswith k "aws:" then None
                  else Py.get (rev tags) k).
Proof.
  split.
  - intros He. unfold get_resource_tags. rewrite He. reflexivity.
  - intros w tags Ht Hr. exists (fold_left non_reserved tags []).
    split; [| split].
    + unfold get_resource_tags, bind, call. rewrite Ht, Hr. reflexivity.
    + apply non_reserved_nodup. constructor.
    + intros k. rewrite non_reserved_get. simpl.
      destruct (Py.startswith k "aws:"); [reflexivity |].
      destruct (Py.get (rev tags) k); reflexivity.
Qed.

End ResourceTags.

(** ** Tagging of the new snapshot (lines 154-162, 180-190) *)

Lemma needs_tag_false (r : Snapshot) (k v : string) :
  needs_tag r k v = false -> Py.get (tags r) k = Some v.
Proof.
  unfold needs_tag. destruct (Py.get (tags r) k) as [v' |]; [| discriminate].
  intros H. apply negb_false_iff, String.eqb_eq in H. congruence.
Qed.

Lemma tagged_id (tgs : Py.dict) (r : Snapshot) :
  snap_id (tagged r tgs) = snap_id r.
Proof.
  revert r. induction tgs as [| it rest IH]; intros r; [reflexivity |].
  unfold tagged in *. simpl. rewrite IH. apply tag_once_id.
Qed.

Section ForEach.
Context {W : Type}.

Lemma for_each_app {A} (a b : list A) (body : A -> M W unit) (st : State W) :
  for_each (a ++ b) body st
  = bind (for_each a body) (fun _ => for_each b body) st.
Proof.
  revert st. induction a as [| x r IH]; intros st; [reflexivity |].
  cbn [app for_each]. rewrite bind_assoc.
  destruct (body x st) as [st1 [[] | e |]] eqn:E.
  - do 2 (erewrite bind_ok by exact E). apply IH.
  - do 2 (erewrite bind_raise by exact E). reflexivity.
  - do 2 (erewrite bind_out_of_fuel by exact E). reflexivity.
Qed.

End ForEach.

Section TaggingMore.
Context {W : Type}.
Variable P : Provider W.

(** X2.  After a run of [set_resource_tags] that returns, the snapshot
    bound to [current_snap] is the same snapshot, it carries every entry
    of the [dict] passed, and its other tags are as before. *)
Theorem tags_reach_snapshot (tgs : Py.dict) (r : Snapshot)
  (st st1 : State W) :
  NoDup (Py.keys tgs) ->
  current_snap st = Some r ->
  set_resource_tags P tgs st = (st1, Ok tt) ->
  exists r',
    current_snap st1 = Some r'
    /\ snap_id r' = snap_id r
    /\ (forall k v, In (k, v) tgs -> Py.get (tags r') k = Some v)
    /\ (forall k, ~ In k (Py.keys tgs) ->
          Py.get (tags r') k = Py.get (tags r) k).
Proof.
  intros Hnd Hcur Hrun.
  destruct (set_resource_tags_run P tgs st Hcur Hrun) as [Hc _].
  exists (tagged r tgs). split; [exact Hc |]. split; [apply tagged_id |].
  split.
  - intros k v Hin. apply needs_tag_false.
    apply (@tagged_has_all tgs r Hnd (k, v) Hin).
  - intros k Hk. apply tagged_get_other. exact Hk.
Qed.

(** What one pass of the loop of [set_resource_tags] prints. *)
Definition tagging_line (r : Snapshot) (k v : string) : Event :=
  EvPrint ("Tagging " ++ snap_id r ++ " with [" ++ k ++ ": " ++ v ++ "]").

(** X3.  [set_resource_tags] stops at the first request that is
    rejected: the entries before it were handled, the exception of the
    rejected request leaves the function, and nothing is recorded for
    the entries after it. *)
Theorem tagging_stops_at_rejection (before after : Py.dict) (k v : string)
  (r : Snapshot) (st st1 : State W) (w : W) (msg : string) :
  set_resource_tags P before st = (st1, Ok tt) ->
  current_snap st1 = Some r ->
  needs_tag r k v = true ->
  add_tag P (world st1) (snap_id r) k v = (w, Rejected msg) ->
  set_resource_tags P (before ++ (k, v) :: after) st
  = (answered (record st1 [tagging_line r k v]) w (AddTag (snap_id r) k v)
       (Refused msg),
     Raise (ProviderError (AddTag (snap_id r) k v) msg)).
Proof.
  intros Hrun Hcur Hneed Hrej. unfold set_resource_tags in *.
  rewrite for_each_app. erewrite bind_ok by exact Hrun.
  cbn [for_each]. unfold bind at 1.
  assert (Hone : set_resource_tag P (k, v) st1
                 = (answered (record st1 [tagging_line r k v]) w
                      (AddTag (snap_id r) k v) (Refused msg),
                    Raise (ProviderError (AddTag (snap_id r) k v) msg))).
  { unfold set_resource_tag. cbn [fst snd]. cbv zeta.
    unfold bind at 1, read_current_snap at 1. rewrite Hcur, Hneed.
    unfold print. rewrite bind_emit.
    unfold resource_add_tag, bind at 1, read_current_snap at 1.
    cbn [current_snap record]. rewrite Hcur.
    unfold bind at 1, call. cbn [world record]. rewrite Hrej.
    reflexivity. }
  rewrite Hone. reflexivity.
Qed.

(** X4.  When [create_snapshot] has returned a snapshot and the tagging
    of it raises, the creation step ends normally with the exception
    logged: the snapshot stays bound to [current_snap], and it is not
    counted in [total_creates]. *)
Theorem untagged_snapshot_not_counted (vol : Volume) (tgs : Py.dict)
  (descr : string) (st st1 : State W) (w : W) (snap : Snapshot) (e : Exn) :
  create_snapshot P (world st) (vol_id vol) descr = (w, Ret snap) ->
  set_resource_tags P tgs
    (bound_to st w (CreateSnapshot (vol_id vol) descr) snap)
  = (st1, Raise e) ->
  create_step P vol tgs descr st = (record st1 (unexpected e), Ok tt)
  /\ total_creates (record st1 (unexpected e)) = total_creates st
  /\ bound_id (record st1 (unexpected e)) = Some (snap_id snap)
  /\ proj created (trace (record st1 (unexpected e)))
     = proj created (trace st) ++ [snap_id snap].
Proof.
  intros Hc Ht.
  assert (Hn : preserves (@total_creates W) (set_resource_tags P tgs))
    by frame.
  pose proof (set_resource_tags_keeps_id P tgs) as Hi.
  pose proof (set_resource_tags_keeps_created P tgs) as Hcr.
  pose proof (@preserves_run _ _ _ _ _ _ _ _ Hn Ht) as Hn1.
  pose proof (@preserves_run _ _ _ _ _ _ _ _ Hi Ht) as Hi1.
  pose proof (@preserves_run _ _ _ _ _ _ _ _ Hcr Ht) as Hcr1.
  split; [| split; [| split]].
  - rewrite (create_step_accepted P vol tgs descr st Hc).
    unfold try_except, after_create.
    erewrite bind_raise by exact Ht. apply log_unexpected_run.
  - cbn [total_creates record]. rewrite Hn1. reflexivity.
  - unfold bound_id in *. cbn [current_snap record]. rewrite Hi1.
    reflexivity.
  - cbn [trace record]. rewrite proj_app. cbn beta in Hcr1. rewrite Hcr1.
    cbn [trace bound_to]. rewrite proj_snoc. simpl. rewrite app_nil_r.
    reflexivity.
Qed.

End TaggingMore.

(** ** The description of a new snapshot (lines 174-179, 229-234) *)

Lemma prefix_append (p s : string) : String.prefix p (p ++ s) = true.
Proof.
  induction p as [| c p IH]; simpl.
  - destruct s; reflexivity.
  - cbn [append].
    destruct (Ascii.ascii_dec c c) as [_ | Hne]; [exact IH | congruence].
Qed.

Lemma period_name_inj (p q : Period) :
  period_name p = period_name q -> p = q.
Proof. destruct p, q; simpl; intros H; congruence. Qed.

Section Description.
Context {W : Type}.
Variable P : Provider W.
Variable period : Period.
Variable date_suffix : string.

(** X5.  The description built for the new snapshot of a volume makes it
    a candidate of the pruning for the period of the run, and for no
    other period. *)
Theorem own_description_is_candidate (vol : Volume) (st st1 : State W)
  (tags_volume : Py.dict) (descr : string) :
  describe_volume P period date_suffix vol st
  = (st1, Ok (tags_volume, descr)) ->
  forall p, is_candidate p descr = true <-> p = period.
Proof.
  intros Hrun p.
  assert (Hd : exists rest,
             descr = (period_name period ++ "_snapshot" ++ rest)%string).
  { unfold describe_volume in Hrun.
    rewrite bind_gets in Hrun. unfold set_count_total in Hrun.
    rewrite bind_modify in Hrun. unfold logging_info in Hrun.
    rewrite bind_emit in Hrun. unfold bind at 1 in Hrun.
    match type of Hrun with
    | context [get_resource_tags P ?i ?s] =>
        destruct (get_resource_tags P i s) as [sx [tg | e |]];
        try discriminate
    end.
    unfold today in Hrun. rewrite bind_gets in Hrun.
    unfold ret in Hrun. injection Hrun as _ _ <-.
    exists (" " ++ vol_id vol ++ "_" ++ period_name period ++ "_"
            ++ date_suffix ++ " by snapshot script at "
            ++ strftime P (world sx) "%d-%m-%Y %H:%M:%S")%string.
    reflexivity. }
  destruct Hd as [rest ->].
  rewrite is_candidate_prefix. unfold Py.startswith.
  split.
  - intros H. destruct p, period; try reflexivity;
      cbn [period_name] in H; cbv in H; discriminate.
  - intros ->.
    replace (period_name period ++ "_snapshot" ++ rest)%string
      with ((period_name period ++ "_snapshot") ++ rest)%string.
    + apply prefix_append.
    + destruct period; reflexivity.
Qed.

End Description.

(** ** The deletion loop (lines 245-272) *)

Section Pruning.
Context {W : Type}.
Variable P : Provider W.
Variable cfg : Config.
Variable period : Period.

Let gone (st : State W) := proj deleted (trace st).

(** The statements of one pass after the deletion request: they request
    no deletion in the source region. *)
Lemma pass_index_error (dl : list Snapshot) (i : nat) (st : State W) :
  nth_error dl i = None ->
  delete_with_cascade P dl i st = (st, Raise IndexError).
Proof.
  intros H. unfold delete_with_cascade. rewrite H. reflexivity.
Qed.

(** One pass of the deletion loop on an index of the list: the deletion
    of that snapshot is requested, and of no other; [total_deletes]
    grows by one when the pass ends normally, and is unchanged when it
    does not. *)
Lemma pass_deletes_one (dl : list Snapshot) (i : nat) (s : Snapshot)
  (st : State W) :
  nth_error dl i = Some s ->
  gone (fst (delete_with_cascade P dl i st)) = gone st ++ [s]
  /\ match snd (delete_with_cascade P dl i st) with
     | Ok _ =>
         total_deletes (fst (delete_with_cascade P dl i st))
         = (total_deletes st + 1)%Z
     | _ =>
         total_deletes (fst (delete_with_cascade P dl i st))
         = total_deletes st
     end.
Proof.
  intros Hn.
  destruct (delete_with_cascade P dl i st) as [st' res] eqn:E.
  cbn [fst snd]. unfold delete_with_cascade in E. rewrite Hn in E.
  change (bind (ret s) ?f ?x) with (f s x) in E. cbv beta zeta in E.
  unfold logging_info at 1 in E. rewrite bind_emit in E.
  unfold bind at 1, call at 1 in E. cbn [world record] in E.
  destruct (delete P (world st) (snap_id s)) as [w [[] | msg]].
  2: { injection E as <- <-. unfold gone. cbn [trace answered record].
       rewrite !proj_snoc. simpl. rewrite app_nil_r. auto. }
  match type of E with
  | _ ?s0 = _ => set (st1 := s0) in E
  end.
  assert (H1 : gone st1 = gone st ++ [s]).
  { unfold gone, st1. cbn [trace answered record]. rewrite !proj_snoc.
    simpl. rewrite app_nil_r. reflexivity. }
  assert (H2 : total_deletes st1 = total_deletes st) by reflexivity.
  clearbody st1.
  unfold bind at 1, read_dest_conn at 1 in E.
  destruct (dest_conn st1) as [c |]; [| injection E as <- <-; auto].
  unfold logging_info at 1 in E. rewrite bind_emit in E.
  unfold bind at 1, call at 1 in E. cbn [world record] in E.
  match type of E with
  | context [describe_snapshots P ?w0 ?o ?f ?v] =>
      destruct (describe_snapshots P w0 o f v) as [w2 [ids | msg]]
  end.
  2: { injection E as <- <-. unfold gone in *.
       cbn [trace answered record total_deletes].
       rewrite !proj_snoc. simpl. rewrite !app_nil_r. auto. }
  match type of E with
  | bind ?m ?k ?s0 = _ =>
      assert (Hg : preserves gone m) by (unfold gone; frame);
      assert (Ht : preserves (@total_deletes W) m) by frame;
      specialize (Hg s0); specialize (Ht s0);
      unfold bind at 1 in E; destruct (m s0) as [st2 [[] | e |]]
  end; cbn [fst snd] in Hg, Ht.
  - unfold bind, gets, set_total_deletes, modify in E.
    injection E as <- <-. unfold gone in *. cbn [trace total_deletes].
    rewrite Hg, Ht. cbn [trace answered record total_deletes].
    rewrite !proj_snoc. simpl. rewrite !app_nil_r. rewrite H1, H2. auto.
  - injection E as <- <-. unfold gone in *. rewrite Hg, Ht.
    cbn [trace answered record total_deletes].
    rewrite !proj_snoc. simpl. rewrite !app_nil_r. rewrite H1, H2. auto.
  - injection E as <- <-. unfold gone in *. rewrite Hg, Ht.
    cbn [trace answered record total_deletes].
    rewrite !proj_snoc. simpl. rewrite !app_nil_r. rewrite H1, H2. auto.
Qed.

(** The passes over the indices [a], ..., [a + d - 1]. *)
Lemma passes_delete_prefix (dl : list Snapshot) (d a : nat) (st : State W) :
  exists m,
    (m <= d)%nat
    /\ gone (fst (for_each (seq a d) (delete_with_cascade P dl) st))
       = gone st ++ firstn m (skipn a dl)
    /\ (total_deletes st
        <= total_deletes
             (fst (for_each (seq a d) (delete_with_cascade P dl) st))
        <= total_deletes st + Z.of_nat (length (firstn m (skipn a dl))))%Z
    /\ (snd (for_each (seq a d) (delete_with_cascade P dl) st) = Ok tt ->
        m = d
        /\ ((0 < d)%nat -> (a + d <= length dl)%nat)
        /\ total_deletes
             (fst (for_each (seq a d) (delete_with_cascade P dl) st))
           = (total_deletes st + Z.of_nat d)%Z).
Proof.
  revert a st. induction d as [| d IH]; intros a st.
  - exists 0%nat. cbn [seq for_each ret fst snd firstn length].
    rewrite app_nil_r.
    split; [lia |]. split; [reflexivity |]. split; [lia |].
    intros _. split; [reflexivity |]. split; lia.
  - cbn [seq for_each].
    destruct (nth_error dl a) as [s |] eqn:En.
    + destruct (@pass_deletes_one dl a s st En) as [Hg Ht].
      assert (Hsk : skipn a dl = s :: skipn (S a) dl).
      { clear -En. revert a En. induction dl as [| x r IHl]; intros a En.
        - destruct a; discriminate.
        - destruct a as [| a]; simpl in *; [congruence |].
          apply IHl. exact En. }
      unfold bind.
      destruct (delete_with_cascade P dl a st) as [st1 [[] | e |]];
        cbn [fst snd] in *.
      * destruct (IH (S a) st1) as (m & Hm & Hgm & Htm & Hok).
        exists (S m). rewrite Hsk. cbn [firstn length].
        rewrite Hgm, Hg, <- app_assoc. cbn [app].
        split; [lia |]. split; [reflexivity |]. split; [lia |].
        intros Hres. destruct (Hok Hres) as (-> & Hlen & Htd).
        split; [reflexivity |]. split; [| lia].
        intros _.
        assert (a < length dl)%nat
          by (apply nth_error_Some; congruence).
        destruct d as [| d']; [lia |]. assert (0 < S d')%nat by lia.
        specialize (Hlen H0). lia.
      * exists 1%nat. rewrite Hsk. cbn [firstn length fst snd].
        split; [lia |]. split; [exact Hg |]. split; [lia |]. discriminate.
      * exists 1%nat. rewrite Hsk. cbn [firstn length fst snd].
        split; [lia |]. split; [exact Hg |]. split; [lia |]. discriminate.
    + unfold bind. rewrite (@pass_index_error dl a st En).
      exists 0%nat. cbn [firstn length fst snd]. rewrite app_nil_r.
      split; [lia |]. split; [reflexivity |]. split; [lia |]. discriminate.
Qed.


(** The deletion loop, after the candidates are logged and sorted. *)
Lemma prune_run (dl : list Snapshot) (k : Z) (st : State W) :
  keep_of cfg period = Some k ->
  prune P cfg period dl st
  = bind (for_each
            (seq 0 (Z.to_nat (Z.of_nat (length dl) - k)))
            (delete_with_cascade P (sort_by date_compare dl)))
      (fun _ => sleep 3)
      (record st (flat_map listed dl)).
Proof.
  intros Hk. unfold prune.
  erewrite bind_ok by apply listing_loop_run.
  rewrite Hk. cbv zeta.
  change (bind (ret k) ?f ?x) with (f k x). cbv beta.
  unfold delta_of, Py.range. rewrite sort_by_length. reflexivity.
Qed.

Lemma listed_not_deleted (dl : list Snapshot) (st : State W) :
  gone (record st (flat_map listed dl)) = gone st.
Proof.
  unfold gone. cbn [trace record]. rewrite proj_app.
  rewrite listed_not_selected by reflexivity. apply app_nil_r.
Qed.

Lemma prune_deletes_prefix (dl : list Snapshot) (k : Z) (st : State W) :
  keep_of cfg period = Some k ->
  exists m,
    (Z.of_nat m <= Z.max 0 (Z.of_nat (length dl) - k))%Z
    /\ proj deleted (trace (fst (prune P cfg period dl st)))
       = proj deleted (trace st) ++ firstn m (sort_by date_compare dl)
    /\ (total_deletes st
        <= total_deletes (fst (prune P cfg period dl st))
        <= total_deletes st + Z.of_nat m)%Z.
Proof.
  intros Hk. rewrite (prune_run dl st Hk).
  set (d := Z.to_nat (Z.of_nat (length dl) - k)).
  set (st0 := record st (flat_map listed dl)).
  set (loop := for_each (seq 0 d)
                 (delete_with_cascade P (sort_by date_compare dl))).
  assert (Hs : gone (fst (bind loop (fun _ => sleep 3) st0))
               = gone (fst (loop st0))
               /\ total_deletes (fst (bind loop (fun _ => sleep 3) st0))
                  = total_deletes (fst (loop st0))).
  { unfold bind. destruct (loop st0) as [s1 [[] | e |]]; cbn [fst];
      [| auto | auto].
    unfold sleep. rewrite emit_record. unfold gone.
    cbn [fst trace record total_deletes]. rewrite proj_snoc.
    cbn [deleted]. rewrite app_nil_r. auto. }
  destruct Hs as [Hs1 Hs2]. unfold gone in Hs1. rewrite Hs1, Hs2.
  destruct (passes_delete_prefix (sort_by date_compare dl) d 0 st0)
    as (m & Hm & Hg & Ht & _).
  cbn [skipn] in Hg, Ht. fold loop in Hg, Ht.
  assert (Hl : (length (firstn m (sort_by date_compare dl)) <= m)%nat)
    by (rewrite length_firstn; lia).
  exists m. split; [unfold d in Hm; lia |]. split.
  - unfold gone in Hg. rewrite Hg. fold (gone st0). unfold st0.
    rewrite listed_not_deleted. reflexivity.
  - assert (H0 : total_deletes st0 = total_deletes st) by reflexivity.
    rewrite H0 in Ht. lia.
Qed.

Lemma prune_ends_normally (dl : list Snapshot) (k : Z) (st st' : State W) :
  keep_of cfg period = Some k ->
  prune P cfg period dl st = (st', Ok tt) ->
  let excess := Z.to_nat (Z.of_nat (length dl) - k) in
  (excess <= length dl)%nat
  /\ proj deleted (trace st')
     = proj deleted (trace st) ++ firstn excess (sort_by date_compare dl)
  /\ total_deletes st' = (total_deletes st + Z.of_nat excess)%Z.
Proof.
  intros Hk Hrun excess. rewrite (prune_run dl st Hk) in Hrun.
  fold excess in Hrun.
  set (st0 := record st (flat_map listed dl)) in Hrun.
  destruct (passes_delete_prefix (sort_by date_compare dl) excess 0 st0)
    as (m & Hm & Hg & _ & Hok).
  cbn [skipn] in Hg. unfold bind in Hrun.
  destruct (for_each (seq 0 excess) _ st0) as [st1 [[] | e |]];
    try discriminate.
  cbn [fst snd] in *. destruct (Hok eq_refl) as (-> & Hlen & Htd).
  unfold sleep in Hrun. rewrite emit_record in Hrun.
  injection Hrun as <-. cbn [trace record total_deletes].
  rewrite proj_snoc. cbn [deleted]. rewrite app_nil_r.
  split; [| split].
  - destruct excess; [lia |]. rewrite sort_by_length in Hlen.
    apply Hlen. lia.
  - unfold gone in Hg. rewrite Hg. fold (gone st0). unfold st0.
    rewrite listed_not_deleted. reflexivity.
  - rewrite Htd. reflexivity.
Qed.

Lemma prune_negative_keep (dl : list Snapshot) (k : Z) (st : State W) :
  keep_of cfg period = Some k ->
  (k < 0)%Z ->
  snd (prune P cfg period dl st) <> Ok tt.
Proof.
  intros Hk Hneg Hok.
  destruct (prune P cfg period dl st) as [st' r] eqn:E.
  cbn [snd] in Hok. subst r.
  destruct (prune_ends_normally dl st Hk E) as (Hlen & _). lia.
Qed.

(** The state in which the pruning starts, once the snapshots of the
    volume are listed and classified. *)
Definition classified (vol : Volume) (st : State W) (w : W)
  (snaps : list Snapshot) : State W :=
  record
    (answered st w (VolumeSnapshots (vol_id vol)) (GotSnapshots snaps))
    (map skipped
       (filter (fun s => negb (is_candidate period (description s))) snaps)).

Lemma classified_keeps_deleted (vol : Volume) (st : State W) (w : W)
  (snaps : list Snapshot) :
  proj deleted (trace (classified vol st w snaps)) = proj deleted (trace st).
Proof.
  unfold classified. cbn [trace record answered].
  rewrite proj_app, proj_snoc, skipped_not_deleted by reflexivity.
  cbn [deleted]. rewrite !app_nil_r. reflexivity.
Qed.

(** X6.  Whatever the way the pruning of a volume ends, the deletions it
    has requested are those of the oldest candidates among the
    snapshots listed for the volume, oldest first and without a gap,
    and no more of them than the candidates in excess of [keep];
    [total_deletes] has grown by no more than the number of these
    requests. *)
Theorem pruning_deletes_oldest_first (vol : Volume) (k : Z) (st : State W)
  (w : W) (snaps : list Snapshot) :
  keep_of cfg period = Some k ->
  snapshots P (world st) (vol_id vol) = (w, Ret snaps) ->
  let candidates := sort_by date_compare (classify period snaps) in
  let st' := fst (retention_step P cfg period vol st) in
  exists m,
    (Z.of_nat m <= Z.max 0 (Z.of_nat (length candidates) - k))%Z
    /\ proj deleted (trace st')
       = proj deleted (trace st) ++ firstn m candidates
    /\ (total_deletes st <= total_deletes st'
        <= total_deletes st + Z.of_nat m)%Z.
Proof.
  intros Hk Hs candidates st'. unfold st'.
  rewrite retention_step_run, Hs. fold (classified vol st w snaps).
  destruct (prune_deletes_prefix (classify period snaps)
              (classified vol st w snaps) Hk)
    as (m & Hm & Hd & Ht).
  exists m. unfold candidates. rewrite sort_by_length.
  split; [exact Hm |]. split.
  - rewrite Hd, classified_keeps_deleted. reflexivity.
  - exact Ht.
Qed.

(** X7.  When the pruning of a volume ends normally, [keep] is not
    negative, the deletions requested are those of the candidates in
    excess of [keep], oldest first, and of no other snapshot, and
    [total_deletes] has grown by their number. *)
Theorem pruning_completed (vol : Volume) (k : Z) (st st' : State W) :
  keep_of cfg period = Some k ->
  retention_step P cfg period vol st = (st', Ok tt) ->
  exists w snaps,
    snapshots P (world st) (vol_id vol) = (w, Ret snaps)
    /\ let candidates := sort_by date_compare (classify period snaps) in
       let excess := Z.to_nat (Z.of_nat (length candidates) - k) in
       (0 <= k)%Z
       /\ proj deleted (trace st')
          = proj deleted (trace st) ++ firstn excess candidates
       /\ total_deletes st' = (total_deletes st + Z.of_nat excess)%Z.
Proof.
  intros Hk Hrun. rewrite retention_step_run in Hrun.
  destruct (snapshots P (world st) (vol_id vol)) as [w [snaps | msg]];
    [| discriminate].
  exists w, snaps. split; [reflexivity |].
  fold (classified vol st w snaps) in Hrun.
  destruct (prune_ends_normally (classify period snaps)
              (classified vol st w snaps) Hk Hrun)
    as (Hlen & Hd & Ht).
  cbv zeta. rewrite sort_by_length.
  split; [lia |]. split.
  - rewrite Hd, classified_keeps_deleted. reflexivity.
  - exact Ht.
Qed.

End Pruning.

(** ** The snapshots selected for deletion (lines 242-256) *)

Section Selection.
Context {W : Type}.
Variable P : Provider W.
Variable cfg : Config.
Variable period : Period.

Lemma prune_ends (dl : list Snapshot) : ends (prune P cfg period dl).
Proof. ends_all. Qed.

(** C1.  For a keep-count [k >= 0] and [n] candidates, the deletion loop
    of [prune] has one pass for each of the first [max(0, n-k)] snapshots
    of the candidates sorted by creation time, ties in listing order,
    and for no other: the deletions it requests are these snapshots,
    oldest first, all of them unless an exception ends the loop before;
    each of them is at most as recent as every snapshot that is kept,
    and with [n <= k] no deletion is requested. *)
Theorem retention_selection (candidates : list Snapshot) (k : Z)
  (st : State W) :
  keep_of cfg period = Some k ->
  (0 <= k)%Z ->
  let n := Z.of_nat (length candidates) in
  let sorted := sort_by date_compare candidates in
  let chosen := firstn (Z.to_nat (n - k)) sorted in
  let kept := skipn (Z.to_nat (n - k)) sorted in
  let run := prune P cfg period candidates st in
  run
  = bind (for_each (seq 0 (length chosen)) (delete_with_cascade P sorted))
      (fun _ => sleep 3) (record st (flat_map listed candidates))
  /\ (exists m,
         proj deleted (trace (fst run))
         = proj deleted (trace st) ++ firstn m chosen)
  /\ (snd run = Ok tt ->
      proj deleted (trace (fst run)) = proj deleted (trace st) ++ chosen
      /\ total_deletes (fst run) = (total_deletes st + Z.max 0 (n - k))%Z)
  /\ (proj deleted (trace (fst run)) <> proj deleted (trace st) ++ chosen ->
      exists e, snd run = Raise e)
  /\ Z.of_nat (length chosen) = Z.max 0 (n - k)
  /\ Permutation (chosen ++ kept) candidates
  /\ Sorted.StronglySorted
       (fun a b => String.leb (start_time a) (start_time b) = true) sorted
  /\ (forall t,
        filter (fun s => start_time s =? t)%string sorted
        = filter (fun s => start_time s =? t)%string candidates)
  /\ (forall a b, In a chosen -> In b kept ->
        String.leb (start_time a) (start_time b) = true)
  /\ ((n <= k)%Z ->
      proj deleted (trace (fst run)) = proj deleted (trace st)
      /\ snd run = Ok tt).
Proof.
  intros Hk Hk0 n sorted chosen kept run.
  assert (Hlen : length sorted = length candidates)
    by apply sort_by_length.
  assert (Hok : snd run = Ok tt ->
                proj deleted (trace (fst run))
                = proj deleted (trace st) ++ chosen
                /\ total_deletes (fst run)
                   = (total_deletes st + Z.max 0 (n - k))%Z).
  { intros Hr. unfold run in *.
    destruct (prune P cfg period candidates st) as [st' r] eqn:E.
    cbn [fst snd] in *. subst r.
    destruct (@prune_ends_normally W P cfg period candidates k st st' Hk E)
      as (Hle & Hd & Ht).
    split; [exact Hd |]. rewrite Ht. unfold n. lia. }
  split; [| split; [| split; [exact Hok | split; [| repeat split]]]].
  - unfold run. rewrite (@prune_run W P cfg period candidates k st Hk).
    unfold chosen. rewrite length_firstn, Hlen.
    replace (Nat.min (Z.to_nat (n - k)) (length candidates))
      with (Z.to_nat (Z.of_nat (length candidates) - k))
      by (unfold n; lia).
    reflexivity.
  - destruct (@prune_deletes_prefix W P cfg period candidates k st Hk)
      as (m & Hm & Hd & _).
    exists m. fold run in Hd. rewrite Hd. f_equal.
    unfold chosen. rewrite firstn_firstn. f_equal. unfold n. lia.
  - intros Hne. pose proof (@prune_ends candidates st) as He.
    fold run in He. destruct (snd run) as [[] | e |] eqn:Er.
    + destruct (Hok eq_refl) as [Hd _]. contradiction.
    + exists e. reflexivity.
    + contradiction.
  - unfold chosen. rewrite length_firstn, Hlen. unfold n. lia.
  - unfold chosen, kept. rewrite firstn_skipn. apply sort_by_perm.
  - apply (sort_by_sorted date_compare).
  - intros t. apply (sort_by_stable date_compare).
  - intros a b Ha Hb.
    apply (sorted_split (key := date_compare) (Z.to_nat (n - k))
             (sort_by_sorted date_compare candidates) a b Ha Hb).
  - unfold run. rewrite (@prune_run W P cfg period candidates k st Hk).
    replace (Z.to_nat (Z.of_nat (length candidates) - k)) with 0%nat
      by (unfold n in *; lia).
    cbn [seq for_each]. change (bind (ret tt) ?f ?x) with (f tt x).
    cbv beta. unfold sleep. rewrite emit_record. cbn [fst trace record].
    rewrite !proj_app.
    rewrite listed_not_selected by reflexivity.
    cbn [proj flat_map deleted app]. rewrite !app_nil_r. reflexivity.
  - unfold run. rewrite (@prune_run W P cfg period candidates k st Hk).
    replace (Z.to_nat (Z.of_nat (length candidates) - k)) with 0%nat
      by (unfold n in *; lia).
    reflexivity.
Qed.

End Selection.

Section NegativeKeep.
Context {W : Type}.
Variable P : Provider W.
Variable cfg : Config.
Variable fuel : nat.
Variable period : Period.
Variable date_suffix : string.

Lemma bind_ok_inv {A B} (m : M W A) (k : A -> M W B) (st st' : State W)
  (b : B) :
  bind m k st = (st', Ok b) ->
  exists st1 a, m st = (st1, Ok a) /\ k a st1 = (st', Ok b).
Proof.
  unfold bind. destruct (m st) as [st1 [a | e |]]; try discriminate.
  intros H. exists st1, a. auto.
Qed.

(** X8.  With a negative number of snapshots to keep the deletion loop
    runs past the end of the list of candidates: the pruning never ends
    normally, and every volume the loop gets through is counted as
    errored, none as succeeded. *)
Theorem negative_keep_fails_volume (k : Z) :
  keep_of cfg period = Some k ->
  (k < 0)%Z ->
  (forall dl (st : State W), snd (prune P cfg period dl st) <> Ok tt)
  /\ (forall vol (st st' : State W),
         process_volume P cfg fuel period date_suffix vol st = (st', Ok tt) ->
         count_errors st' = (count_errors st + 1)%Z
         /\ count_success st' = count_success st).
Proof.
  intros Hk Hneg.
  assert (Hp : forall dl (st : State W),
             snd (prune P cfg period dl st) <> Ok tt)
    by (intros dl st; apply (@prune_negative_keep W P cfg period dl k st Hk Hneg)).
  split; [exact Hp |].
  intros vol st st' Hrun.
  pose proof (body_keeps_count_errors P cfg fuel period date_suffix vol st)
    as He.
  pose proof (body_keeps_count_success P cfg fuel period date_suffix vol st)
    as Hs.
  destruct (volume_body P cfg fuel period date_suffix vol st)
    as [st1 [[] | e |]] eqn:Eb; cbn [fst] in He, Hs.
  - exfalso. unfold volume_body in Eb.
    apply bind_ok_inv in Eb. destruct Eb as (s1 & [] & _ & Er).
    rewrite retention_step_run in Er.
    destruct (snapshots P (world s1) (vol_id vol)) as [w [snaps | msg]];
      [| discriminate].
    eapply Hp. rewrite Er. reflexivity.
  - rewrite (process_volume_raise _ _ _ _ _ _ _ Eb) in Hrun.
    injection Hrun as <-. cbn [count_errors count_success failed].
    rewrite He, Hs. auto.
  - rewrite (process_volume_out_of_fuel _ _ _ _ _ _ _ Eb) in Hrun.
    discriminate.
Qed.

End NegativeKeep.

(** ** The volumes counted as errored (lines 273-280) *)

Lemma append_empty (a b : string) :
  (a ++ b)%string = EmptyString -> a = EmptyString /\ b = EmptyString.
Proof.
  destruct a; cbn [append]; [auto | discriminate].
Qed.

(** [errmsg] after the texts of the volumes [failed] are appended. *)
Definition with_errors (errmsg : string) (failed : list Volume) : string :=
  fold_left (fun acc vol => (acc ++ volume_error_text vol)%string) failed
    errmsg.

Lemma with_errors_empty (failed : list Volume) (m : string) :
  with_errors m failed = EmptyString -> failed = [].
Proof.
  revert m. induction failed as [| v r IH]; intros m H; [reflexivity |].
  exfalso. unfold with_errors in *. cbn [fold_left] in H.
  assert (Hm : forall l m0,
             fold_left (fun acc vol => (acc ++ volume_error_text vol)%string)
               l m0 = EmptyString -> m0 = EmptyString).
  { clear. induction l as [| x l IHl]; intros m0 H0; [exact H0 |].
    cbn [fold_left] in H0. apply IHl, append_empty in H0. tauto. }
  apply Hm, append_empty in H. destruct H as [_ H].
  unfold volume_error_text in H. cbn [append] in H. discriminate.
Qed.

Section Errored.
Context {W : Type}.
Variable P : Provider W.
Variable cfg : Config.
Variable fuel : nat.
Variable period : Period.
Variable date_suffix : string.

(** The volumes of [vols] picked by [flags]. *)
Definition picked (vols : list Volume) (flags : list bool) : list Volume :=
  map fst (filter snd (combine vols flags)).

(** X9.  After the loop over the volumes, [errmsg] holds one text per
    volume counted as errored, in the order of the volumes and without a
    separator, and [count_errors] is their number; the other volumes
    are counted in [count_success].  So [errmsg] is empty exactly when no
    volume was counted as errored. *)
Theorem errmsg_lists_errored_volumes (vols : list Volume)
  (st st' : State W) :
  volume_loop P cfg fuel period date_suffix vols st = (st', Ok tt) ->
  exists flags,
    length flags = length vols
    /\ errmsg st' = with_errors (errmsg st) (picked vols flags)
    /\ count_errors st'
       = (count_errors st + Z.of_nat (length (picked vols flags)))%Z
    /\ count_success st'
       = (count_success st + Z.of_nat (length vols)
          - Z.of_nat (length (picked vols flags)))%Z
    /\ (errmsg st = EmptyString ->
        (errmsg st' = EmptyString <-> count_errors st' = count_errors st)).
Proof.
  unfold volume_loop. revert st.
  induction vols as [| v r IH]; intros st Hrun.
  - simpl in Hrun. injection Hrun as <-. exists []. simpl.
    repeat split; try lia; auto.
  - cbn [for_each] in Hrun. unfold bind in Hrun.
    destruct (process_volume P cfg fuel period date_suffix v st)
      as [st1 [[] | e |]] eqn:E; try discriminate.
    destruct (IH _ Hrun) as (flags & Hlen & Hmsg & Herr & Hsuc & _).
    pose proof (body_keeps_count_errors P cfg fuel period date_suffix v st)
      as He.
    pose proof (body_keeps_count_success P cfg fuel period date_suffix v st)
      as Hs.
    pose proof (body_keeps_errmsg P cfg fuel period date_suffix v st) as Hm.
    assert (Hstep : exists flag : bool,
               errmsg st1
               = with_errors (errmsg st) (if flag then [v] else [])
               /\ count_errors st1
                  = (count_errors st + (if flag then 1 else 0))%Z
               /\ count_success st1
                  = (count_success st + (if flag then 0 else 1))%Z).
    { destruct (volume_body P cfg fuel period date_suffix v st)
        as [sb [[] | eb |]] eqn:Eb; cbn [fst] in He, Hs, Hm.
      - rewrite (process_volume_ok _ _ _ _ _ _ _ Eb) in E.
        injection E as <-. exists false.
        cbn [errmsg count_errors count_success succeeded with_errors
             fold_left].
        rewrite He, Hs, Hm. repeat split; lia.
      - rewrite (process_volume_raise _ _ _ _ _ _ _ Eb) in E.
        injection E as <-. exists true.
        cbn [errmsg count_errors count_success failed with_errors
             fold_left].
        rewrite He, Hs, Hm. repeat split; lia.
      - rewrite (process_volume_out_of_fuel _ _ _ _ _ _ _ Eb) in E.
        discriminate. }
    destruct Hstep as (flag & Hm1 & He1 & Hs1).
    exists (flag :: flags).
    assert (Hpick : picked (v :: r) (flag :: flags)
                    = (if flag then [v] else []) ++ picked r flags)
      by (unfold picked; destruct flag; reflexivity).
    assert (Hmsg' : errmsg st'
                    = with_errors (errmsg st) (picked (v :: r) (flag :: flags))).
    { rewrite Hpick, Hmsg, Hm1. unfold with_errors.
      rewrite fold_left_app. reflexivity. }
    assert (Herr' : count_errors st'
                    = (count_errors st
                       + Z.of_nat (length (picked (v :: r) (flag :: flags))))%Z).
    { rewrite Hpick, length_app, Herr, He1. destruct flag; cbn [length]; lia. }
    split; [cbn [length]; lia |]. split; [exact Hmsg' |].
    split; [exact Herr' |]. split.
    + rewrite Hpick, length_app, Hsuc, Hs1.
      destruct flag; cbn [length]; lia.
    + intros H0. rewrite Hmsg', Herr'. split.
      * intros Hempty. apply with_errors_empty in Hempty.
        rewrite Hempty. simpl. lia.
      * intros Hz.
        destruct (picked (v :: r) (flag :: flags)); [exact H0 |].
        cbn [length] in Hz. lia.
Qed.

End Errored.

(** ** The summary and the notifications (lines 282-303) *)

(** The notifications requested: topic, message and subject. *)
Definition published (ev : Event) : list (string * string * string) :=
  match ev with
  | EvCall (SnsPublish topic m subject) _ => [(topic, m, subject)]
  | _ => []
  end.

(** A request to publish a notification. *)
Definition is_publish (ev : Event) : Prop :=
  exists topic m subject a, ev = EvCall (SnsPublish topic m subject) a.

(** The requests to the provider other than notifications. *)
Definition requested (ev : Event) : list Call :=
  match ev with
  | EvCall (SnsPublish _ _ _) _ => []
  | EvCall c _ => [c]
  | _ => []
  end.

Section Reporting.
Context {W : Type}.
Variable P : Provider W.
Variable cfg : Config.
Variable fuel : nat.

(** [result] as line 282 builds it in [st]. *)
Definition result_of (st : State W) : string :=
  result_text (strftime P (world st) "%d-%m-%Y %H:%M:%S")
    (count_success st) (count_total st).

(** [message] after lines 288-292. *)
Definition report_of (st : State W) : string :=
  (message st
   ++ totals_text (result_of st) (total_creates st) (total_copies st)
        (count_errors st) (total_deletes st))%string.

(** The state in which the notifications are made: [message] is
    complete and the summary is printed. *)
Definition reported (st : State W) : State W :=
  mkState (world st)
    (trace st ++ [EvPrint (nl ++ report_of st ++ nl)%string;
                  EvPrint (result_of st)])
    (report_of st) (errmsg st) (total_creates st) (total_copies st)
    (total_deletes st) (count_errors st) (count_success st) (count_total st)
    (current_snap st) (dest_conn st).

Lemma summary_run (st : State W) :
  summary P cfg st
  = bind (sns_reporting P cfg (report_of st))
      (fun _ => logging_info (result_of st)) (reported st).
Proof.
  unfold summary, today.
  rewrite !bind_gets. unfold set_message. rewrite bind_modify, bind_gets.
  unfold print. rewrite !bind_emit, !record_record. reflexivity.
Qed.

(** X10.  When no topic is configured, a run of the script requests no
    notification, whatever its arguments and however it ends. *)
Theorem no_topic_no_notification (argv : list string) (st : State W) :
  Py.truthy_opt (arn cfg) = false ->
  proj published (trace (fst (main P cfg fuel argv st)))
  = proj published (trace st).
Proof.
  intros Hno.
  assert (Hl : forall period date_suffix vols,
             preserves (fun st => proj published (trace st))
               (volume_loop P cfg fuel period date_suffix vols)).
  { intros period date_suffix vols. unfold volume_loop.
    apply preserves_for_each. intro vol. unfold process_volume.
    apply preserves_try_except_else; [frame | intro; frame | frame]. }
  assert (H : preserves (fun st => proj published (trace st))
                (main P cfg fuel argv)) by frame.
  apply H.
Qed.

(** X11.  When a topic is configured and the summary ends normally, the
    notifications requested are: the error notice with [errmsg], if
    [errmsg] is not empty, and then the final notice with the complete
    [message], the one the summary has printed; the last line of the log
    is [result]. *)
Theorem summary_notifications (topic : string) (st st' : State W) :
  arn cfg = Some topic ->
  Py.truthy topic = true ->
  summary P cfg st = (st', Ok tt) ->
  message st' = report_of st
  /\ proj published (trace st')
     = proj published (trace st)
       ++ (if Py.truthy (errmsg st)
           then [(topic, "Error in processing volumes: " ++ errmsg st,
                  "Error with AWS Snapshot")]%string
           else [])
       ++ [(topic, report_of st, "Finished AWS snapshotting"%string)]
  /\ (exists before,
         trace st' = before ++ [EvLog INFO (result_of st)]
         /\ In (EvPrint (nl ++ report_of st ++ nl)%string) before).
Proof.
  intros Harn Ht Hrun. rewrite summary_run in Hrun.
  unfold sns_reporting in Hrun. rewrite Harn in Hrun.
  cbn [Py.truthy_opt] in Hrun. rewrite Ht in Hrun. cbv zeta in Hrun.
  rewrite bind_assoc, bind_gets in Hrun.
  cbn [errmsg reported] in Hrun.
  rewrite bind_assoc in Hrun.
  destruct (Py.truthy (errmsg st)).
  - unfold bind at 1, call at 1 in Hrun.
    cbn [world reported] in Hrun.
    destruct (publish P (world st) topic _ _) as [w1 [[] | msg]];
      [| discriminate].
    unfold bind at 1, call at 1 in Hrun. cbn [world answered] in Hrun.
    destruct (publish P w1 topic _ _) as [w2 [[] | msg]];
      [| discriminate].
    unfold logging_info in Hrun. rewrite emit_record in Hrun.
    injection Hrun as <-.
    cbn [message trace record answered reported].
    split; [reflexivity |]. split.
    + rewrite !proj_app. cbn [proj flat_map published app].
      rewrite ?app_nil_r, <- ?app_assoc. reflexivity.
    + eexists. split; [reflexivity |].
      rewrite <- !app_assoc. apply in_or_app. right. left. reflexivity.
  - change (bind (ret tt) ?f ?x) with (f tt x) in Hrun. cbv beta in Hrun.
    unfold bind at 1, call at 1 in Hrun. cbn [world reported] in Hrun.
    destruct (publish P (world st) topic _ _) as [w1 [[] | msg]];
      [| discriminate].
    unfold logging_info in Hrun. rewrite emit_record in Hrun.
    injection Hrun as <-.
    cbn [message trace record answered reported].
    split; [reflexivity |]. split.
    + rewrite !proj_app. cbn [proj flat_map published app].
      rewrite ?app_nil_r, <- ?app_assoc. reflexivity.
    + eexists. split; [reflexivity |].
      rewrite <- !app_assoc. apply in_or_app. right. left. reflexivity.
Qed.

Lemma sns_reporting_raises (m : string) :
  raises_only
    (fun e => exists topic m subject msg,
         arn cfg = Some topic
         /\ e = ProviderError (SnsPublish topic m subject) msg)
    (sns_reporting P cfg m).
Proof.
  unfold sns_reporting.
  destruct (arn cfg) as [topic |] eqn:Ea; cbn [Py.truthy_opt];
    [| apply raises_only_ret].
  destruct (Py.truthy topic); [| apply raises_only_ret].
  cbv zeta.
  repeat first
    [ apply raises_only_bind; [| intro]
    | apply raises_only_gets
    | apply raises_only_ret
    | apply raises_only_call; intro; eauto 8
    | match goal with
      | |- raises_only _ (if ?b then _ else _) => destruct b
      end ].
Qed.

Lemma summary_raises :
  raises_only
    (fun e => exists topic m subject msg,
         arn cfg = Some topic
         /\ e = ProviderError (SnsPublish topic m subject) msg)
    (summary P cfg).
Proof.
  intros st e. rewrite summary_run. unfold bind.
  pose proof (@sns_reporting_raises (report_of st) (reported st)) as Hq.
  destruct (sns_reporting P cfg (report_of st) (reported st))
    as [s1 [[] | e1 |]]; cbn [snd] in *; try discriminate.
  intros H. injection H as <-. apply Hq. reflexivity.
Qed.

Lemma sns_reporting_only_publishes (m : string) (st : State W) :
  exists more,
    trace (fst (sns_reporting P cfg m st)) = trace st ++ more
    /\ Forall is_publish more.
Proof.
  unfold sns_reporting.
  destruct (Py.truthy_opt (arn cfg));
    [| exists []; cbn; rewrite app_nil_r; auto].
  cbv zeta. rewrite bind_gets.
  set (topic := match arn cfg with Some a => a | None => EmptyString end).
  destruct (Py.truthy (errmsg st)).
  - unfold bind at 1, call at 1.
    destruct (publish P (world st) topic _ _) as [w1 [[] | msg]].
    + unfold call. cbn [world answered].
      destruct (publish P w1 topic _ _) as [w2 [[] | msg]];
        cbn [fst trace answered]; rewrite <- app_assoc;
        eexists; (split; [reflexivity |]);
        repeat constructor; unfold is_publish; eauto.
    + cbn [fst trace answered]. eexists. split; [reflexivity |].
      repeat constructor; unfold is_publish; eauto.
  - change (bind (ret tt) ?f ?x) with (f tt x). cbv beta.
    unfold call.
    destruct (publish P (world st) topic _ _) as [w1 [[] | msg]];
      cbn [fst trace answered];
      eexists; (split; [reflexivity |]);
      repeat constructor; unfold is_publish; eauto.
Qed.

(** X12.  The summary raises only when a notification is rejected.  The
    summary was printed by then and [message] is complete; after the
    two prints the script has made requests to publish and nothing
    else: its call [logging.info(result)], the last statement, is not
    reached. *)
Theorem rejected_notification_ends_script (st : State W) (e : Exn) :
  snd (summary P cfg st) = Raise e ->
  (exists topic m subject msg,
      arn cfg = Some topic
      /\ e = ProviderError (SnsPublish topic m subject) msg)
  /\ message (fst (summary P cfg st)) = report_of st
  /\ exists more,
       trace (fst (summary P cfg st))
       = trace st
         ++ [EvPrint (nl ++ report_of st ++ nl)%string;
             EvPrint (result_of st)]
         ++ more
       /\ Forall is_publish more.
Proof.
  rewrite summary_run. intros Hr.
  set (notify := sns_reporting P cfg (report_of st)) in *.
  assert (Hm : preserves (@message W) notify) by (unfold notify; frame).
  pose proof (sns_reporting_raises (report_of st)) as Hq.
  fold notify in Hq.
  specialize (Hm (reported st)). specialize (Hq (reported st)).
  destruct (sns_reporting_only_publishes (report_of st) (reported st))
    as (more & Hmore & Hall).
  fold notify in Hmore.
  unfold bind in Hr |- *.
  destruct (notify (reported st)) as [s1 [[] | e1 |]];
    cbn [fst snd] in *; try discriminate.
  injection Hr as ->.
  split; [apply Hq; reflexivity |]. split; [exact Hm |].
  exists more. split; [| exact Hall].
  rewrite Hmore. cbn [trace reported].
  rewrite <- app_assoc. reflexivity.
Qed.

End Reporting.

(** ** The run as a whole (lines 38-75, 107-167, 282-303) *)

(** The format of the date suffix of a period (lines 44, 47, 50). *)
Definition suffix_format (p : Period) : string :=
  match p with
  | Day => "%a"
  | Week => "%U"
  | Month => "%b"
  end.

Section Run.
Context {W : Type}.
Variable P : Provider W.
Variable cfg : Config.
Variable fuel : nat.

Lemma validate_argv_accepted (argv : list string) (p : Period)
  (st : State W) :
  (2 <= length argv)%nat ->
  nth 1 argv EmptyString = period_name p ->
  validate_argv P argv st
  = (st, Ok (p, strftime P (world st) (suffix_format p))).
Proof.
  intros Hlen Harg. unfold validate_argv.
  apply Nat.ltb_ge in Hlen. rewrite Hlen. cbv zeta. rewrite Harg.
  destruct p; reflexivity.
Qed.

Lemma validate_argv_rejected (argv : list string) (st st' : State W)
  (e : Exn) :
  validate_argv P argv st = (st', Raise e) ->
  e = SystemExit
  /\ ((length argv < 2)%nat
      \/ ~ In (nth 1 argv EmptyString) ["day"; "week"; "month"]%string).
Proof.
  unfold validate_argv.
  destruct (length argv <? 2)%nat eqn:E.
  - intros H. injection H as _ <-. apply Nat.ltb_lt in E. auto.
  - cbv zeta.
    destruct (nth 1 argv EmptyString =? "day")%string eqn:E1;
      [discriminate |].
    destruct (nth 1 argv EmptyString =? "week")%string eqn:E2;
      [discriminate |].
    destruct (nth 1 argv EmptyString =? "month")%string eqn:E3;
      [discriminate |].
    intros H. injection H as _ <-. split; [reflexivity |]. right.
    apply String.eqb_neq in E1, E2, E3. simpl. intuition congruence.
Qed.

(** The request of line 167. *)
Definition volumes_request : Call :=
  GetAllVolumes ("tag:" ++ tag_name cfg)%string (tag_value cfg).

Definition start_message (p : Period) (st : State W) : string :=
  ("Started taking " ++ period_name p ++ " snapshots at "
   ++ strftime P (world st) "%d-%m-%Y %H:%M:%S")%string.

(** What is recorded between the validation of the arguments and the
    request for the volumes. *)
Definition preamble (p : Period) (st : State W) : list Event :=
  [EvBasicConfig; EvLog INFO (start_message p st);
   EvPrint "Connecting to AWS"]
  ++ (if Py.truthy_opt (arn cfg) then [EvPrint "Connecting to SNS"] else [])
  ++ [EvPrint ("Finding volumes that match the requested tag ({ " ++ dquote
               ++ "tag:" ++ tag_name cfg ++ dquote ++ ": " ++ dquote
               ++ tag_value cfg ++ dquote ++ " })")%string].

(** The state in which the volumes are requested. *)
Definition started (p : Period) (st : State W) : State W :=
  mkState (world st) (trace st ++ preamble p st)
    (message st ++ start_message p st ++ nl ++ nl)%string (errmsg st)
    (total_creates st) (total_copies st) (total_deletes st)
    (count_errors st) (count_success st) (count_total st)
    (current_snap st) (dest_conn st).

Lemma main_run (argv : list string) (p : Period) (st : State W) :
  (2 <= length argv)%nat ->
  nth 1 argv EmptyString = period_name p ->
  main P cfg fuel argv st
  = bind (call volumes_request GotVolumes
            (fun w => get_all_volumes P w ("tag:" ++ tag_name cfg)%string
                        (tag_value cfg)))
      (fun vols =>
         bind (volume_loop P cfg fuel p
                 (strftime P (world st) (suffix_format p)) vols)
           (fun _ => summary P cfg))
      (started p st).
Proof.
  intros Hlen Harg. unfold main.
  erewrite bind_ok by (apply validate_argv_accepted; eassumption).
  cbn [fst snd]. rewrite bind_emit. unfold today. rewrite !bind_gets.
  unfold set_message. rewrite bind_modify.
  unfold logging_info, print. rewrite !bind_emit.
  unfold started, preamble, start_message, volumes_request.
  destruct (Py.truthy_opt (arn cfg)).
  - rewrite !bind_emit. f_equal. unfold record.
    cbn [world trace message errmsg total_creates total_copies
         total_deletes count_errors count_success count_total current_snap
         dest_conn].
    f_equal. rewrite <- !app_assoc. reflexivity.
  - change (bind (ret tt) ?f ?x) with (f tt x). cbv beta.
    rewrite !bind_emit. f_equal. unfold record.
    cbn [world trace message errmsg total_creates total_copies
         total_deletes count_errors count_success count_total current_snap
         dest_conn].
    f_equal. rewrite <- !app_assoc. reflexivity.
Qed.

(** X13.  When the request for the volumes is rejected, the run ends
    there with the exception of the request: no volume is processed, the
    summary is not printed and no notification is requested. *)
Theorem listing_failure_aborts_run (argv : list string) (p : Period)
  (st : State W) (w : W) (msg : string) :
  (2 <= length argv)%nat ->
  nth 1 argv EmptyString = period_name p ->
  get_all_volumes P (world st) ("tag:" ++ tag_name cfg)%string
    (tag_value cfg)
  = (w, Rejected msg) ->
  main P cfg fuel argv st
  = (answered (started p st) w volumes_request (Refused msg),
     Raise (ProviderError volumes_request msg))
  /\ trace (fst (main P cfg fuel argv st))
     = trace st ++ preamble p st ++ [EvCall volumes_request (Refused msg)].
Proof.
  intros Hlen Harg Hrej.
  assert (Hrun : main P cfg fuel argv st
                 = (answered (started p st) w volumes_request (Refused msg),
                    Raise (ProviderError volumes_request msg))).
  { rewrite (main_run argv p st Hlen Harg).
    unfold bind at 1, call. cbn [world started]. rewrite Hrej.
    reflexivity. }
  split; [exact Hrun |]. rewrite Hrun.
  cbn [fst trace answered started]. rewrite <- app_assoc. reflexivity.
Qed.

(** X14.  When no volume carries the tag, the run goes from the request
    for the volumes straight to the summary: no other request than
    notifications is made, the counters are as they were, so that a run
    from the initial state reports zero snapshots of zero. *)
Theorem no_volumes_run (argv : list string) (p : Period) (st : State W)
  (w : W) :
  (2 <= length argv)%nat ->
  nth 1 argv EmptyString = period_name p ->
  get_all_volumes P (world st) ("tag:" ++ tag_name cfg)%string
    (tag_value cfg)
  = (w, Ret []) ->
  let st1 := answered (started p st) w volumes_request (GotVolumes []) in
  main P cfg fuel argv st = summary P cfg st1
  /\ proj requested (trace (fst (main P cfg fuel argv st)))
     = proj requested (trace st) ++ [volumes_request]
  /\ (count_total st1, count_success st1, count_errors st1)
     = (count_total st, count_success st, count_errors st)
  /\ (total_creates st1, total_copies st1, total_deletes st1)
     = (total_creates st, total_copies st, total_deletes st)
  /\ (Py.truthy_opt (arn cfg) = false ->
      snd (main P cfg fuel argv st) = Ok tt).
Proof.
  intros Hlen Harg Hret st1.
  assert (Hrun : main P cfg fuel argv st = summary P cfg st1).
  { rewrite (main_run argv p st Hlen Harg).
    unfold bind at 1, call. cbn [world started]. rewrite Hret.
    reflexivity. }
  split; [exact Hrun |]. rewrite Hrun.
  split; [| split; [reflexivity | split; [reflexivity |]]].
  - assert (Hs : preserves (fun st => proj requested (trace st))
                   (summary P cfg)) by frame.
    rewrite Hs. unfold st1. cbn [trace answered started].
    rewrite proj_snoc, proj_app.
    assert (Hp : proj requested (preamble p st) = []).
    { unfold preamble. destruct (Py.truthy_opt (arn cfg)); reflexivity. }
    rewrite Hp, app_nil_r. reflexivity.
  - intros Hno. unfold summary, sns_reporting. rewrite Hno.
    reflexivity.
Qed.

(** X15.  The exceptions that end a run: [SystemExit] when the period
    argument is missing or unknown, the exception of a rejected request
    for the volumes, and the exception of a rejected notification.  No
    exception raised while a volume is processed ends the run. *)
Theorem uncaught_exceptions_of_run (argv : list string) (st : State W)
  (e : Exn) :
  snd (main P cfg fuel argv st) = Raise e ->
  (e = SystemExit
   /\ ((length argv < 2)%nat
       \/ ~ In (nth 1 argv EmptyString) ["day"; "week"; "month"]%string))
  \/ (exists msg, e = ProviderError volumes_request msg)
  \/ (exists topic m subject msg,
         arn cfg = Some topic
         /\ e = ProviderError (SnsPublish topic m subject) msg).
Proof.
  unfold main. unfold bind at 1.
  destruct (validate_argv P argv st) as [st0 [[p suffix] | e0 |]] eqn:Ev.
  - cbn [fst snd]. intros Hr. right.
    set (Q := fun e : Exn =>
                (exists msg, e = ProviderError volumes_request msg)
                \/ (exists topic m subject msg,
                       arn cfg = Some topic
                       /\ e = ProviderError (SnsPublish topic m subject)
                              msg)).
    assert (Hsum : raises_only Q (summary P cfg)).
    { intros s e1 H1. right. apply (summary_raises P cfg s H1). }
    assert (Hloop : forall vols,
               raises_only Q (volume_loop P cfg fuel p suffix vols)).
    { intros vols s e1 H1. exfalso.
      apply (volume_loop_never_raises P cfg fuel p suffix vols s H1). }
    match type of Hr with
    | snd (?m st0) = _ => assert (Hq : raises_only Q m)
    end.
    { repeat first
        [ apply Hsum
        | apply Hloop
        | apply raises_only_bind; [| intro]
        | apply raises_only_gets
        | apply raises_only_ret
        | apply raises_only_modify
        | apply raises_only_call; intro; left; eexists; reflexivity
        | match goal with
          | |- raises_only _ (if ?b then _ else _) => destruct b
          end
        | progress unfold today, set_message, logging_info, print, emit ]. }
    apply (Hq st0 e Hr).
  - cbn [snd]. intros H. injection H as <-. left.
    apply (validate_argv_rejected _ _ Ev).
  - discriminate.
Qed.

End Run.

(** ** A volume whose tags cannot be read (lines 171-173, 273-278) *)

Section TagLookup.
Context {W : Type}.
Variable P : Provider W.
Variable cfg : Config.
Variable fuel : nat.
Variable period : Period.
Variable date_suffix : string.

(** The state after lines 171-172. *)
Definition counted (vol : Volume) (st : State W) : State W :=
  mkState (world st) (trace st ++ [EvLog INFO ("Volume:" ++ vol_id vol)])
    (message st) (errmsg st) (total_creates st) (total_copies st)
    (total_deletes st) (count_errors st) (count_success st)
    (count_total st + 1)%Z (current_snap st) (dest_conn st).

(** X16.  When the request for the tags of a volume is rejected, the
    volume is counted as errored at once: no snapshot of it is requested
    and its snapshots are not listed, so that none is deleted. *)
Theorem tag_lookup_failure_skips_volume (vol : Volume) (st : State W)
  (w : W) (msg : string) :
  Py.truthy (vol_id vol) = true ->
  get_all_tags P (world st) (vol_id vol) = (w, Rejected msg) ->
  let lookup := GetAllTags (vol_id vol) in
  let st' := fst (process_volume P cfg fuel period date_suffix vol st) in
  process_volume P cfg fuel period date_suffix vol st
  = (failed vol (ProviderError lookup msg)
       (answered (counted vol st) w lookup (Refused msg)),
     Ok tt)
  /\ proj requested (trace st') = proj requested (trace st) ++ [lookup]
  /\ count_errors st' = (count_errors st + 1)%Z
  /\ count_total st' = (count_total st + 1)%Z.
Proof.
  intros Hid Hrej lookup st'.
  assert (Hb : volume_body P cfg fuel period date_suffix vol st
               = (answered (counted vol st) w lookup (Refused msg),
                  Raise (ProviderError lookup msg))).
  { unfold volume_body, snapshot_step.
    erewrite bind_raise; [reflexivity |].
    erewrite bind_raise; [reflexivity |].
    unfold describe_volume. rewrite bind_gets.
    unfold set_count_total. rewrite bind_modify.
    unfold logging_info. rewrite bind_emit.
    erewrite bind_raise; [reflexivity |].
    unfold get_resource_tags. rewrite Hid.
    erewrite bind_raise; [reflexivity |].
    unfold call. cbn [world record]. rewrite Hrej. reflexivity. }
  pose proof (process_volume_raise _ _ _ _ _ _ _ Hb) as Hp.
  unfold st'. rewrite Hp. split; [reflexivity |].
  cbn [fst trace failed answered counted count_errors count_total].
  split; [| split; reflexivity].
  rewrite !proj_app. cbn [proj flat_map requested lookup app failure_report].
  rewrite !app_nil_r. reflexivity.
Qed.

End TagLookup.

(** ** Copies that are counted (lines 203-223) *)

(** The copies the provider has made. *)
Definition copies_made (ev : Event) : list string :=
  match ev with
  | EvCall (CopySnapshot _ _ _) (GotId i) => [i]
  | _ => []
  end.

(** The copies whose tags the provider has accepted. *)
Definition copies_tagged (ev : Event) : list string :=
  match ev with
  | EvCall (CreateTags i _) Done => [i]
  | _ => []
  end.

Section CountedCopies.
Context {W : Type}.
Variable P : Provider W.
Variable cfg : Config.
Variable fuel : nat.

Lemma tag_copy_counts (copied region : string) (tgs : Py.dict)
  (st : State W) :
  let st' := fst (tag_copy P copied region tgs st) in
  proj copies_made (trace st') = proj copies_made (trace st)
  /\ ((proj copies_tagged (trace st')
       = proj copies_tagged (trace st) ++ [copied]
       /\ total_copies st' = (total_copies st + 1)%Z)
      \/ (proj copies_tagged (trace st') = proj copies_tagged (trace st)
          /\ total_copies st' = total_copies st)).
Proof.
  cbv zeta. split.
  - assert (H : preserves (fun st => proj copies_made (trace st))
                  (tag_copy P copied region tgs)) by frame.
    apply H.
  - destruct (tag_copy P copied region tgs st) as [st' r] eqn:E.
    cbn [fst]. unfold tag_copy, bind at 1, read_dest_conn in E.
    destruct (dest_conn st) as [c |];
      [| injection E as <- _; right; auto].
    unfold bind at 1, read_current_snap in E.
    destruct (current_snap st) as [s |];
      [| injection E as <- _; right; auto].
    cbv zeta in E. unfold bind at 1, call in E.
    destruct (create_tags P (world st) copied _) as [w [[] | msg]].
    + left. unfold print, logging_info in E.
      rewrite !bind_emit, bind_gets in E.
      unfold set_total_copies, modify in E. injection E as <- _.
      cbn [trace record answered total_copies].
      rewrite !proj_app. cbn [proj flat_map copies_tagged app].
      rewrite !app_nil_r. auto.
    + right. injection E as <- _. cbn [trace answered total_copies].
      rewrite proj_snoc. cbn [copies_tagged]. rewrite app_nil_r. auto.
Qed.

Lemma handler_keeps_selected {X} (sel : Event -> list X) (m : M W unit)
  (st : State W) :
  (forall e, proj sel (unexpected e) = []) ->
  proj sel (trace (fst (try_except m log_unexpected st)))
  = proj sel (trace (fst (m st))).
Proof.
  intros Hsel. unfold try_except.
  destruct (m st) as [s1 [[] | e |]]; try reflexivity.
  rewrite log_unexpected_run. cbn [fst trace record].
  rewrite proj_app, Hsel. apply app_nil_r.
Qed.

Lemma handler_keeps_total_copies (m : M W unit) (st : State W) :
  total_copies (fst (try_except m log_unexpected st))
  = total_copies (fst (m st)).
Proof.
  unfold try_except.
  destruct (m st) as [s1 [[] | e |]]; reflexivity.
Qed.

Lemma copy_step_counts (tgs : Py.dict) (descr : string) (st : State W) :
  let st' := fst (copy_step P cfg fuel tgs descr st) in
  exists made tagged,
    proj copies_made (trace st') = proj copies_made (trace st) ++ made
    /\ proj copies_tagged (trace st')
       = proj copies_tagged (trace st) ++ tagged
    /\ total_copies st' = (total_copies st + Z.of_nat (length tagged))%Z
    /\ (length made <= 1)%nat
    /\ (tagged = made \/ tagged = []).
Proof.
  cbv zeta.
  assert (Hnone : forall s : State W,
             proj copies_made (trace s) = proj copies_made (trace st) ->
             proj copies_tagged (trace s) = proj copies_tagged (trace st) ->
             total_copies s = total_copies st ->
             exists made tagged,
               proj copies_made (trace s)
               = proj copies_made (trace st) ++ made
               /\ proj copies_tagged (trace s)
                  = proj copies_tagged (trace st) ++ tagged
               /\ total_copies s
                  = (total_copies st + Z.of_nat (length tagged))%Z
               /\ (length made <= 1)%nat
               /\ (tagged = made \/ tagged = [])).
  { intros s H1 H2 H3. exists [], []. rewrite H1, H2, H3, !app_nil_r.
    simpl. repeat split; auto. lia. }
  destruct (Py.truthy_opt (copy_region_name cfg)) eqn:Ec.
  2: { unfold copy_step. rewrite Ec. apply Hnone; reflexivity. }
  rewrite (copy_step_with_region P cfg fuel Ec).
  rewrite !handler_keeps_selected by reflexivity.
  rewrite handler_keeps_total_copies.
  set (region := match copy_region_name cfg with
                 | Some r => r
                 | None => EmptyString
                 end).
  assert (Hw1 : preserves (fun st => proj copies_made (trace st))
                  (wait_completed P fuel)) by frame.
  assert (Hw2 : preserves (fun st => proj copies_tagged (trace st))
                  (wait_completed P fuel)) by frame.
  assert (Hw3 : preserves (@total_copies W) (wait_completed P fuel))
    by frame.
  specialize (Hw1 st). specialize (Hw2 st). specialize (Hw3 st).
  unfold bind.
  destruct (wait_completed P fuel st) as [s1 [[] | e |]] eqn:Ew;
    cbn [fst] in Hw1, Hw2, Hw3 |- *;
    [| apply Hnone; assumption | apply Hnone; assumption].
  assert (Hcur : exists s, current_snap s1 = Some s).
  { pose proof (wait_completed_keeps_id P fuel st) as Hid.
    rewrite Ew in Hid. cbn [fst] in Hid.
    destruct (wait_needs_snapshot P fuel st Ew) as [s0 Hs0].
    unfold bound_id in Hid. rewrite Hs0 in Hid.
    destruct (current_snap s1) as [s |]; [eauto | discriminate]. }
  destruct Hcur as [s Hcur].
  unfold region. rewrite (ship_snapshot_run P cfg tgs descr s1 Hcur).
  fold region.
  destruct (boto3_client P (world s1) region) as [w1 [[] | msg]].
  2: { apply Hnone; cbn [fst trace answered total_copies];
         rewrite ?proj_snoc; cbn [copies_made copies_tagged];
         rewrite ?app_nil_r; assumption. }
  destruct (copy_snapshot P w1 (ec2_region_name cfg) (snap_id s) _)
    as [w2 [copied | msg]].
  2: { apply Hnone; cbn [fst trace answered with_client total_copies];
         unfold copy_request;
         rewrite ?proj_snoc; cbn [copies_made copies_tagged];
         rewrite ?app_nil_r; assumption. }
  match goal with
  | |- context [tag_copy P copied region tgs ?s0] =>
      destruct (tag_copy_counts copied region tgs s0) as [Hm Ht];
      cbv zeta in Hm, Ht;
      assert (Hm0 : proj copies_made (trace s0)
                    = proj copies_made (trace st) ++ [copied]);
      [ cbn [trace answered with_client]; unfold copy_request;
        rewrite !proj_snoc; cbn [copies_made]; rewrite app_nil_r;
        rewrite Hw1; reflexivity |];
      assert (Ht0 : proj copies_tagged (trace s0)
                    = proj copies_tagged (trace st));
      [ cbn [trace answered with_client]; unfold copy_request;
        rewrite !proj_snoc; cbn [copies_tagged]; rewrite !app_nil_r;
        exact Hw2 |];
      assert (Hc0 : total_copies s0 = total_copies st) by exact Hw3;
      destruct (tag_copy P copied region tgs s0) as [sx r]
  end.
  cbn [fst] in Hm, Ht |- *.
  destruct Ht as [[Ht Hc] | [Ht Hc]].
  - exists [copied], [copied]. rewrite Hm, Hm0, Ht, Ht0, Hc, Hc0.
    simpl. repeat split; auto.
  - exists [copied], []. rewrite Hm, Hm0, Ht, Ht0, Hc, Hc0, app_nil_r.
    simpl. repeat split; auto. lia.
Qed.

(** X17.  In the copy step a copy is counted in [total_copies] exactly
    when the request to tag it was accepted: at most one copy is made,
    and a copy that was made and could not be tagged is not counted. *)
Theorem copy_counted_when_tagged (tgs : Py.dict) (descr : string)
  (st : State W) :
  let st' := fst (copy_step P cfg fuel tgs descr st) in
  exists made tagged,
    proj copies_made (trace st') = proj copies_made (trace st) ++ made
    /\ proj copies_tagged (trace st')
       = proj copies_tagged (trace st) ++ tagged
    /\ total_copies st' = (total_copies st + Z.of_nat (length tagged))%Z
    /\ (length made <= 1)%nat
    /\ (tagged = made \/ tagged = []).
Proof. exact (copy_step_counts tgs descr st). Qed.

End CountedCopies.

(** ** A failed creation for the first volume, with a destination
    region (lines 180-223, 253-257) *)

Section FirstVolume.
Context {W : Type}.
Variable P : Provider W.
Variable cfg : Config.
Variable fuel : nat.
Variable period : Period.
Variable date_suffix : string.

(** X18.  With a destination region configured, when [create_snapshot]
    is rejected while [current_snap] and [dest_conn] are still unbound
    (as for the first volume), the copy step raises on [current_snap]
    and leaves [dest_conn] unbound; if the volume has more candidates
    than [keep], the deletion of the oldest one is then requested and
    the deletion loop raises: the volume is counted as errored, nothing
    was created or copied for it, and [total_deletes] is unchanged. *)
Theorem failed_first_creation_breaks_pruning (vol : Volume)
  (st sa : State W) (tgs : Py.dict) (descr : string) (wc w : W)
  (msg : string) (snaps : list Snapshot) (k : Z) :
  Py.truthy_opt (copy_region_name cfg) = true ->
  current_snap st = None ->
  dest_conn st = None ->
  describe_volume P period date_suffix vol st = (sa, Ok (tgs, descr)) ->
  create_snapshot P (world sa) (vol_id vol) descr = (wc, Rejected msg) ->
  snapshots P wc (vol_id vol) = (w, Ret snaps) ->
  keep_of cfg period = Some k ->
  (0 <= k < Z.of_nat (length (classify period snaps)))%Z ->
  exists oldest st' e,
    hd_error (sort_by date_compare (classify period snaps)) = Some oldest
    /\ process_volume P cfg fuel period date_suffix vol st = (st', Ok tt)
    /\ proj raised (trace st')
       = proj raised (trace st)
         ++ [ProviderError (CreateSnapshot (vol_id vol) descr) msg;
             NameError "current_snap"; e]
    /\ (snd (delete P w (snap_id oldest)) = Ret tt ->
        e = NameError "dest_conn")
    /\ proj deleted (trace st') = proj deleted (trace st) ++ [oldest]
    /\ proj copy_requests (trace st') = proj copy_requests (trace st)
    /\ count_errors st' = (count_errors st + 1)%Z
    /\ count_success st' = count_success st
    /\ total_creates st' = total_creates st
    /\ total_deletes st' = total_deletes st.
Proof.
  intros Hcopy Hcur Hdest Hdesc Hrej Hsnaps Hk Hlt.
  assert (Hp : forall X (f : State W -> X),
             preserves f (describe_volume P period date_suffix vol) ->
             f sa = f st).
  { intros X f Hf. apply (@preserves_run _ _ _ _ _ _ _ _ Hf Hdesc). }
  assert (Hcur1 : current_snap sa = None)
    by (rewrite <- Hcur; apply Hp; frame).
  assert (Hdest1 : dest_conn sa = None)
    by (rewrite <- Hdest; apply Hp; frame).
  assert (Hdel1 : proj deleted (trace sa) = proj deleted (trace st))
    by (apply (Hp _ (fun st => proj deleted (trace st))); frame).
  assert (Hrai1 : proj raised (trace sa) = proj raised (trace st))
    by (apply (Hp _ (fun st => proj raised (trace st))); frame).
  assert (Hcop1 : proj copy_requests (trace sa)
                  = proj copy_requests (trace st))
    by (apply (Hp _ (fun st => proj copy_requests (trace st))); frame).
  assert (Hce1 : count_errors sa = count_errors st) by (apply Hp; frame).
  assert (Hcs1 : count_success sa = count_success st) by (apply Hp; frame).
  assert (Htc1 : total_creates sa = total_creates st) by (apply Hp; frame).
  assert (Htd1 : total_deletes sa = total_deletes st) by (apply Hp; frame).
  set (creation := CreateSnapshot (vol_id vol) descr) in *.
  set (sb := record (answered sa wc creation (Refused msg))
               (unexpected (ProviderError creation msg))).
  set (sc := record sb (unexpected (NameError "current_snap"))).
  assert (Hstep : snapshot_step P cfg fuel period date_suffix vol st
                  = (sc, Ok tt)).
  { unfold snapshot_step. erewrite bind_ok by exact Hdesc. cbn [fst snd].
    erewrite bind_ok by (apply create_step_rejected; exact Hrej).
    apply copy_step_unbound; [exact Hcopy | exact Hcur1]. }
  set (dl := classify period snaps) in *.
  destruct (sort_by date_compare dl) as [| oldest rest] eqn:Esort.
  { exfalso. pose proof (sort_by_length date_compare dl) as Hl.
    rewrite Esort in Hl. simpl in Hl. lia. }
  set (sd := record
               (answered sc w (VolumeSnapshots (vol_id vol))
                  (GotSnapshots snaps))
               (map skipped
                  (filter
                     (fun s => negb (is_candidate period (description s)))
                     snaps))).
  assert (Hbody : volume_body P cfg fuel period date_suffix vol st
                  = (fst (first_deletion P oldest
                            (record sd (flat_map listed dl))),
                     Raise (snd (first_deletion P oldest
                                   (record sd (flat_map listed dl)))))).
  { unfold volume_body. erewrite bind_ok by exact Hstep.
    rewrite retention_step_run.
    change (world sc) with wc. rewrite Hsnaps. fold dl. fold sd.
    apply prune_unbound with (k := k); auto; [lia |].
    rewrite Esort. reflexivity. }
  apply process_volume_raise in Hbody.
  exists oldest. eexists.
  exists (snd (first_deletion P oldest (record sd (flat_map listed dl)))).
  split; [reflexivity |].
  split; [exact Hbody |].
  unfold first_deletion, failed, failure_report, sd, sc, sb, unexpected.
  cbn [world record answered].
  destruct (delete P w (snap_id oldest)) as [w' [[] | msg']];
    cbn [fst snd trace answered record count_errors count_success
         total_creates total_deletes dest_conn world];
    rewrite !proj_app;
    rewrite ?skipped_not_deleted, ?listed_not_selected by reflexivity;
    cbn [proj flat_map deleted raised copy_requests app creation];
    rewrite ?app_nil_r, ?Hdel1, ?Hrai1, ?Hcop1, <- ?app_assoc;
    cbn [app];
    repeat split; auto; try lia; try discriminate.
Qed.

End FirstVolume.

(** ** The totals of the report (lines 186, 219, 271) *)

(** The deletions the provider has accepted in the source region. *)
Definition deletions_accepted (ev : Event) : list Snapshot :=
  match ev with
  | EvCall (DeleteSnapshot s) Done => [s]
  | _ => []
  end.

Section Within.
Context {W : Type} {X : Type}.
Variable f : State W -> Z.
Variable sel : Event -> list X.

(** How far the counter [f] is ahead of the events [sel] selects. *)
Definition surplus (st : State W) : Z :=
  (f st - Z.of_nat (length (proj sel (trace st))))%Z.

(** The block does not let the counter get further ahead. *)
Definition within {A} (m : M W A) : Prop :=
  forall st, (surplus (fst (m st)) <= surplus st)%Z.

Lemma within_bind {A B} (m : M W A) (k : A -> M W B) :
  within m -> (forall a, within (k a)) -> within (bind m k).
Proof.
  intros Hm Hk st. unfold bind. specialize (Hm st).
  destruct (m st) as [st1 [a | e |]]; cbn [fst] in *; try assumption.
  specialize (Hk a st1). lia.
Qed.

Lemma within_try_except_else (m : M W unit) (h : Exn -> M W unit)
  (orelse : M W unit) :
  within m -> (forall e, within (h e)) -> within orelse ->
  within (try_except_else m h orelse).
Proof.
  intros Hm Hh Ho st. unfold try_except_else. specialize (Hm st).
  destruct (m st) as [st1 [a | e |]]; cbn [fst] in *; try assumption.
  - specialize (Ho st1). lia.
  - specialize (Hh e st1). lia.
Qed.

Lemma within_for_each {A} (l : list A) (body : A -> M W unit) :
  (forall a, within (body a)) -> within (for_each l body).
Proof.
  intros Hb. induction l as [| x r IH]; cbn [for_each].
  - intros st. cbn [ret fst]. lia.
  - apply within_bind; [apply Hb | intros _; exact IH].
Qed.

(** A block that leaves the counter alone. *)
Lemma within_frame {A} (m : M W A) :
  preserves f m -> extends m -> within m.
Proof.
  intros Hp Hx st. unfold surplus. rewrite Hp.
  destruct (Hx st) as [more ->]. rewrite proj_app, length_app. lia.
Qed.

End Within.

Section Totals.
Context {W : Type}.
Variable P : Provider W.
Variable cfg : Config.
Variable fuel : nat.
Variable period : Period.
Variable date_suffix : string.

Lemma extends_set_resource_tags (tgs : Py.dict) :
  extends (set_resource_tags P tgs).
Proof. extends_all. Qed.

Lemma create_step_within (vol : Volume) (tgs : Py.dict) (descr : string) :
  within (@total_creates W) created (create_step P vol tgs descr).
Proof.
  intros st. unfold surplus.
  destruct (create_snapshot P (world st) (vol_id vol) descr)
    as [w [snap | msg]] eqn:E.
  - rewrite (create_step_accepted P vol tgs descr st E).
    set (s0 := bound_to st w (CreateSnapshot (vol_id vol) descr) snap).
    assert (Hc : preserves (fun st => proj created (trace st))
                   (try_except (after_create P tgs descr)
                      (@log_unexpected W))).
    { pose proof (set_resource_tags_keeps_created P) as Ht.
      unfold after_create. frame. }
    destruct (after_create_accounted P tgs descr s0) as (rs & [_ Hb] & _).
    rewrite (Hc s0). unfold s0 at 2. cbn [trace bound_to].
    rewrite proj_snoc, length_app. cbn [created length].
    assert (total_creates s0 = total_creates st) by reflexivity. lia.
  - rewrite (create_step_rejected P vol tgs descr st E).
    cbn [fst trace record answered total_creates].
    rewrite !proj_app, !length_app. cbn. lia.
Qed.

Lemma copy_step_within (tgs : Py.dict) (descr : string) :
  within (@total_copies W) copies_tagged (copy_step P cfg fuel tgs descr).
Proof.
  intros st. unfold surplus.
  destruct (copy_step_counts P cfg fuel tgs descr st)
    as (made & tagged & _ & Ht & Hc & _).
  cbv zeta in Ht, Hc. rewrite Ht, Hc, length_app. lia.
Qed.

(** The rest of a pass of the deletion loop, after the deletion request
    (lines 257-271). *)
Definition after_delete (s : Snapshot) : M W unit :=
  bind read_dest_conn (fun _ =>
  bind (logging_info ("     Deleting snapshots copies sourced from the "
                      ++ "original snapshot: " ++ snap_id s)) (fun _ =>
  bind (call (DescribeSnapshots "self" "tag:source_snapshot_id"
                [snap_id s]) GotIds
          (fun w => describe_snapshots P w "self" "tag:source_snapshot_id"
                      [snap_id s])) (fun copied_vols =>
  bind (for_each copied_vols (fun copied_vol =>
          bind (logging_info ("     Deleting copied snapshot: "
                              ++ copied_vol)) (fun _ =>
          call (DestDeleteSnapshot copied_vol) (fun _ => Done)
            (fun w => delete_snapshot P w copied_vol)))) (fun _ =>
  bind (gets (@total_deletes W)) (fun n =>
  set_total_deletes (n + 1)%Z))))).

Lemma pass_run (dl : list Snapshot) (i : nat) (s : Snapshot)
  (st : State W) :
  nth_error dl i = Some s ->
  delete_with_cascade P dl i st
  = match delete P (world st) (snap_id s) with
    | (w, Ret _) =>
        after_delete s
          (answered
             (record st
                [EvLog INFO ("     Deleting snapshot " ++ description s)])
             w (DeleteSnapshot s) Done)
    | (w, Rejected msg) =>
        (answered
           (record st
              [EvLog INFO ("     Deleting snapshot " ++ description s)])
           w (DeleteSnapshot s) (Refused msg),
         Raise (ProviderError (DeleteSnapshot s) msg))
    end.
Proof.
  intros Hn. unfold delete_with_cascade. rewrite Hn.
  change (bind (ret s) ?f ?x) with (f s x). cbv beta zeta.
  unfold logging_info at 1. rewrite bind_emit.
  unfold bind at 1, call at 1. cbn [world record].
  destruct (delete P (world st) (snap_id s)) as [w [[] | msg]];
    reflexivity.
Qed.

Lemma pass_within (dl : list Snapshot) (i : nat) :
  within (@total_deletes W) deletions_accepted (delete_with_cascade P dl i).
Proof.
  intros st. unfold surplus.
  destruct (nth_error dl i) as [s |] eqn:En.
  2: { rewrite (@pass_index_error W P dl i st En). cbn [fst]. lia. }
  destruct (@pass_deletes_one W P dl i s st En) as [_ Ht].
  rewrite (@pass_run dl i s st En) in *.
  destruct (delete P (world st) (snap_id s)) as [w [[] | msg]].
  - set (s1 := answered _ w (DeleteSnapshot s) Done) in *.
    assert (Hx : extends (after_delete s))
      by (unfold after_delete; extends_all).
    destruct (Hx s1) as [more Hmore]. rewrite Hmore.
    assert (Hl : proj deletions_accepted (trace s1)
                 = proj deletions_accepted (trace st) ++ [s]).
    { unfold s1. cbn [trace answered record]. rewrite !proj_snoc.
      cbn [deletions_accepted]. rewrite app_nil_r. reflexivity. }
    rewrite proj_app, Hl, !length_app. cbn [length].
    destruct (snd (after_delete s s1)); lia.
  - cbn [fst snd trace answered record total_deletes] in *.
    rewrite !proj_snoc. cbn [deletions_accepted]. rewrite !app_nil_r. lia.
Qed.

(** X19.  When a pass of the deletion loop raises after the provider
    has accepted the deletion of the source snapshot (on the unbound
    [dest_conn], on a rejected query of the copies, or on a rejected
    deletion of a copy), the snapshot is deleted and [total_deletes] does
    not count it. *)
Theorem deletion_accepted_but_not_counted (dl : list Snapshot) (i : nat)
  (s : Snapshot) (st st' : State W) (e : Exn) :
  nth_error dl i = Some s ->
  delete_with_cascade P dl i st = (st', Raise e) ->
  (forall msg, e <> ProviderError (DeleteSnapshot s) msg) ->
  proj deletions_accepted (trace st')
  = proj deletions_accepted (trace st) ++ [s]
  /\ total_deletes st' = total_deletes st.
Proof.
  intros Hn Hrun He.
  destruct (@pass_deletes_one W P dl i s st Hn) as [_ Ht].
  rewrite Hrun in Ht. cbn [fst snd] in Ht. split; [| exact Ht].
  rewrite (@pass_run dl i s st Hn) in Hrun.
  destruct (delete P (world st) (snap_id s)) as [w [[] | msg]].
  - assert (Hk : preserves (fun st => proj deletions_accepted (trace st))
                   (after_delete s))
      by (unfold after_delete; frame).
    apply (@preserves_run _ _ _ _ _ _ _ _ Hk) in Hrun.
    cbn beta in Hrun. rewrite Hrun. cbn [trace answered record].
    rewrite !proj_snoc. cbn [deletions_accepted]. rewrite app_nil_r.
    reflexivity.
  - injection Hrun as _ <-. exfalso. apply (He msg). reflexivity.
Qed.

Lemma prune_within (dl : list Snapshot) :
  within (@total_deletes W) deletions_accepted (prune P cfg period dl).
Proof.
  unfold prune.
  repeat first
    [ apply pass_within
    | apply within_bind; [| intro]
    | apply within_for_each; intro
    | apply within_frame; [frame | extends_all]
    | match goal with
      | |- within _ _ (match ?x with _ => _ end) => destruct x
      end ].
Qed.

Ltac leaf := apply within_frame; [frame | extends_all].

Lemma volume_loop_within_creates (vols : list Volume) :
  within (@total_creates W) created
    (volume_loop P cfg fuel period date_suffix vols).
Proof.
  unfold volume_loop. apply within_for_each. intro vol.
  unfold process_volume.
  apply within_try_except_else; [| intro; leaf | leaf].
  unfold volume_body, snapshot_step.
  apply within_bind; [| intro; leaf].
  apply within_bind; [leaf | intro].
  apply within_bind; [apply create_step_within | intro; leaf].
Qed.

Lemma volume_loop_within_copies (vols : list Volume) :
  within (@total_copies W) copies_tagged
    (volume_loop P cfg fuel period date_suffix vols).
Proof.
  unfold volume_loop. apply within_for_each. intro vol.
  unfold process_volume.
  apply within_try_except_else; [| intro; leaf | leaf].
  unfold volume_body, snapshot_step.
  apply within_bind; [| intro; leaf].
  apply within_bind; [leaf | intro].
  apply within_bind; [| intro; apply copy_step_within].
  pose proof (set_resource_tags_keeps_id P) as Hid.
  apply within_frame; [frame | extends_all].
Qed.

Lemma volume_loop_within_deletes (vols : list Volume) :
  within (@total_deletes W) deletions_accepted
    (volume_loop P cfg fuel period date_suffix vols).
Proof.
  unfold volume_loop. apply within_for_each. intro vol.
  unfold process_volume.
  apply within_try_except_else; [| intro; leaf | leaf].
  unfold volume_body.
  apply within_bind; [leaf | intro].
  unfold retention_step.
  apply within_bind; [leaf | intro].
  apply within_bind; [leaf | intro].
  apply prune_within.
Qed.

(** X20.  Over the loop on the volumes no total of the report grows by
    more than what the provider has accepted meanwhile:
    [total_creates] by no more than the number of snapshots returned by
    [create_snapshot], [total_copies] by no more than the number of
    copies whose tags were accepted, and [total_deletes] by no more than
    the number of deletions accepted in the source region. *)
Theorem totals_within_accepted (vols : list Volume) (st : State W) :
  let st' := fst (volume_loop P cfg fuel period date_suffix vols st) in
  let grown (sel : Event -> list string) : Z :=
    (Z.of_nat (length (proj sel (trace st')))
     - Z.of_nat (length (proj sel (trace st))))%Z in
  (total_creates st' - total_creates st <= grown created)%Z
  /\ (total_copies st' - total_copies st <= grown copies_tagged)%Z
  /\ (total_deletes st' - total_deletes st
      <= Z.of_nat (length (proj deletions_accepted (trace st')))
         - Z.of_nat (length (proj deletions_accepted (trace st))))%Z.
Proof.
  cbv zeta.
  pose proof (volume_loop_within_creates vols st) as H1.
  pose proof (volume_loop_within_copies vols st) as H2.
  pose proof (volume_loop_within_deletes vols st) as H3.
  unfold surplus in H1, H2, H3. repeat split; lia.
Qed.

End Totals.

(** ** Pruning with a provider that accepts the requests (lines 225-272) *)

Section Accepting.
Context {W : Type}.
Variable P : Provider W.
Variable cfg : Config.
Variable period : Period.

Hypothesis lists :
  forall w i, exists w' snaps, snapshots P w i = (w', Ret snaps).
Hypothesis deletes : forall w i, exists w', delete P w i = (w', Ret tt).
Hypothesis describes :
  forall w o f v, exists w' ids, describe_snapshots P w o f v = (w', Ret ids).
Hypothesis dest_deletes :
  forall w i, exists w', delete_snapshot P w i = (w', Ret tt).

Lemma copies_loop_ends (ids : list string) (st : State W) :
  snd (for_each ids (fun copied_vol =>
         bind (logging_info ("     Deleting copied snapshot: "
                             ++ copied_vol))
           (fun _ => call (DestDeleteSnapshot copied_vol) (fun _ => Done)
                       (fun w => delete_snapshot P w copied_vol))) st)
  = Ok tt.
Proof.
  revert st. induction ids as [| i r IH]; intros st; [reflexivity |].
  cbn [for_each]. unfold bind at 1. unfold bind at 1.
  unfold logging_info at 1. rewrite emit_record. unfold call at 1.
  cbn [world record].
  destruct (dest_deletes (world st) i) as [w' ->]. apply IH.
Qed.

Lemma pass_ends (dl : list Snapshot) (i : nat) (s : Snapshot) (c : string)
  (st : State W) :
  nth_error dl i = Some s ->
  dest_conn st = Some c ->
  snd (delete_with_cascade P dl i st) = Ok tt.
Proof.
  intros Hn Hd. unfold delete_with_cascade. rewrite Hn.
  change (bind (ret s) ?f ?x) with (f s x). cbv beta zeta.
  unfold logging_info at 1. rewrite bind_emit.
  unfold bind at 1, call at 1. cbn [world record].
  destruct (deletes (world st) (snap_id s)) as [w1 ->].
  unfold bind at 1, read_dest_conn at 1. cbn [dest_conn answered record].
  rewrite Hd.
  unfold logging_info at 1. rewrite bind_emit.
  unfold bind at 1, call at 1. cbn [world record answered].
  destruct (describes w1 "self" "tag:source_snapshot_id" [snap_id s])
    as (w2 & ids & ->).
  unfold bind at 1.
  match goal with
  | |- context [for_each ids ?body ?s0] =>
      pose proof (copies_loop_ends ids s0) as Hl;
      destruct (for_each ids body s0) as [s1 r]
  end.
  cbn [snd] in Hl. subst r. reflexivity.
Qed.

Lemma passes_end (dl : list Snapshot) (d a : nat) (c : string)
  (st : State W) :
  (a + d <= length dl)%nat ->
  dest_conn st = Some c ->
  snd (for_each (seq a d) (delete_with_cascade P dl) st) = Ok tt.
Proof.
  revert a st. induction d as [| d IH]; intros a st Hlen Hd;
    [reflexivity |].
  cbn [seq for_each].
  destruct (nth_error dl a) as [s |] eqn:En.
  2: { apply nth_error_None in En. lia. }
  pose proof (@pass_ends dl a s c st En Hd) as Hp.
  assert (Hk : preserves (@dest_conn W) (delete_with_cascade P dl a))
    by frame.
  specialize (Hk st). unfold bind.
  destruct (delete_with_cascade P dl a st) as [s1 r].
  cbn [fst snd] in Hp, Hk. subst r.
  apply IH; [lia | congruence].
Qed.

(** X21.  When the destination connection is bound, [keep] is not
    negative and the provider accepts the listing, the deletions and
    the query of the copies, the pruning of a volume ends normally. *)
Theorem pruning_ends_when_accepted (vol : Volume) (k : Z) (c : string)
  (st : State W) :
  keep_of cfg period = Some k ->
  (0 <= k)%Z ->
  dest_conn st = Some c ->
  snd (retention_step P cfg period vol st) = Ok tt.
Proof.
  intros Hk Hk0 Hd. rewrite retention_step_run.
  destruct (lists (world st) (vol_id vol)) as (w & snaps & ->).
  set (st0 := record _ _).
  assert (Hd0 : dest_conn st0 = Some c) by exact Hd.
  clearbody st0. set (dl := classify period snaps).
  rewrite (@prune_run W P cfg period dl k st0 Hk). unfold bind.
  match goal with
  | |- context [for_each ?l ?body ?s0] =>
      pose proof (@passes_end (sort_by date_compare dl)
                    (Z.to_nat (Z.of_nat (length dl) - k)) 0 c s0) as Hp;
      destruct (for_each l body s0) as [s1 r]
  end.
  cbn [snd] in Hp. rewrite Hp; [reflexivity | | exact Hd0].
  rewrite sort_by_length. lia.
Qed.

End Accepting.

(** ** Reserved tags (lines 147-150, 155-162, 173-182) *)

(** The requests to put a tag whose name starts with [aws:]. *)
Definition reserved_tagging (ev : Event) : list Call :=
  match ev with
  | EvCall (AddTag i k v) _ =>
      if Py.startswith k "aws:" then [AddTag i k v] else []
  | _ => []
  end.

Lemma get_in_keys (d : Py.dict) (k : string) :
  In k (Py.keys d) -> Py.get d k <> None.
Proof.
  induction d as [| [k' v'] r IH]; simpl; [tauto |].
  intros [-> | Hin].
  - rewrite String.eqb_refl. discriminate.
  - destruct (k' =? k)%string; [discriminate | apply IH, Hin].
Qed.

Section Reserved.
Context {W : Type}.
Variable P : Provider W.
Variable cfg : Config.
Variable fuel : nat.
Variable period : Period.
Variable date_suffix : string.

Let unreserved (tgs : Py.dict) : Prop :=
  forall k, In k (Py.keys tgs) -> Py.startswith k "aws:" = false.

Let kept {A} (m : M W A) : Prop :=
  preserves (fun st => proj reserved_tagging (trace st)) m.

Lemma set_resource_tags_unreserved (tgs : Py.dict) :
  unreserved tgs -> kept (set_resource_tags P tgs).
Proof.
  unfold unreserved, kept, set_resource_tags.
  induction tgs as [| [k v] r IH]; intros Hall; cbn [for_each].
  - apply preserves_ret.
  - apply preserves_bind.
    + assert (Hk : Py.startswith k "aws:" = false)
        by (apply Hall; left; reflexivity).
      unfold set_resource_tag, resource_add_tag. cbn [fst snd]. frame.
      intros ans. cbn [reserved_tagging]. rewrite Hk. reflexivity.
    + intros _. apply IH. intros k0 Hin. apply Hall. right. exact Hin.
Qed.

Lemma describe_volume_unreserved (vol : Volume) (st st' : State W)
  (tgs : Py.dict) (descr : string) :
  describe_volume P period date_suffix vol st = (st', Ok (tgs, descr)) ->
  unreserved tgs.
Proof.
  unfold describe_volume. rewrite bind_gets. unfold set_count_total.
  rewrite bind_modify. unfold logging_info. rewrite bind_emit.
  unfold bind at 1. unfold get_resource_tags.
  destruct (Py.truthy (vol_id vol)).
  - unfold bind at 1, call.
    match goal with
    | |- context [get_all_tags P ?w ?i] =>
        destruct (get_all_tags P w i) as [w' [tags | msg]]
    end; [| discriminate].
    unfold today. cbn. intros H. injection H as _ <- _.
    intros k Hin. apply get_in_keys in Hin.
    rewrite non_reserved_get in Hin.
    destruct (Py.startswith k "aws:"); [| reflexivity].
    exfalso. apply Hin. reflexivity.
  - unfold today. cbn. intros H. injection H as _ <- _.
    intros k [].
Qed.

Lemma preserves_bind_post {A B X} (f : State W -> X) (Q : A -> Prop)
  (m : M W A) (k : A -> M W B) :
  (forall st st' a, m st = (st', Ok a) -> Q a) ->
  preserves f m ->
  (forall a, Q a -> preserves f (k a)) ->
  preserves f (bind m k).
Proof.
  intros Hq Hm Hk st. unfold bind. specialize (Hm st).
  destruct (m st) as [st1 [a | e |]] eqn:E; cbn [fst] in *;
    try assumption.
  rewrite (Hk a (Hq _ _ _ E)). exact Hm.
Qed.

(** X22.  No request of the loop over the volumes puts a tag whose name
    starts with [aws:] on a snapshot: the tags given to the new snapshot
    are those [get_resource_tags] has kept. *)
Theorem reserved_tags_never_propagated (vols : list Volume)
  (st : State W) :
  proj reserved_tagging
    (trace (fst (volume_loop P cfg fuel period date_suffix vols st)))
  = proj reserved_tagging (trace st).
Proof.
  assert (H : kept (volume_loop P cfg fuel period date_suffix vols));
    [| apply H].
  unfold kept, volume_loop. apply preserves_for_each. intro vol.
  unfold process_volume.
  apply preserves_try_except_else; [| intro; frame | frame].
  unfold volume_body. apply preserves_bind; [| intro; frame].
  unfold snapshot_step.
  apply preserves_bind_post
    with (Q := fun d : Py.dict * string => unreserved (fst d)).
  - intros s s' [tgs descr] Hd.
    apply (describe_volume_unreserved _ _ Hd).
  - frame.
  - intros [tgs descr] Hq. cbn [fst snd] in *.
    pose proof (set_resource_tags_unreserved Hq) as Ht. unfold kept in Ht.
    frame.
Qed.

End Reserved.

(** ** The session token of an assumed role (lines 77-140, 203-209) *)

(** X23.  When a role is assumed, its access key and its session token
    are passed to the EC2 connection and to the client of the
    destination region.  The SNS connection is made with the access key
    of the role, and with its session token only when a proxy is
    configured: without a proxy the token is not passed to it. *)
Theorem role_token_not_passed_to_sns (cfg : Config) (a : Access)
  (assume_role : string -> Reply Credentials) (role : string)
  (c : Credentials) :
  iam_role_arn a = Some role ->
  Py.truthy role = true ->
  assume_role role = Ret c ->
  Py.truthy (AccessKeyId c) = true ->
  exists l,
    login a assume_role = Ret l
    /\ key_id (ec2_connection cfg a l) = Some (AccessKeyId c)
    /\ token (ec2_connection cfg a l) = Some (SessionToken c)
    /\ key_id (destination_client cfg l) = Some (AccessKeyId c)
    /\ token (destination_client cfg l) = Some (SessionToken c)
    /\ (Py.truthy_opt (arn cfg) = true ->
        exists s,
          sns_connection cfg a l = Some s
          /\ key_id s = Some (AccessKeyId c)
          /\ token s
             = if Py.truthy_opt (proxyHost a)
               then Some (SessionToken c)
               else None).
Proof.
  intros Hrole Ht Hc Hk. eexists. split.
  - unfold login. rewrite Hrole. cbn [Py.truthy_opt]. rewrite Ht, Hc.
    reflexivity.
  - unfold ec2_connection, sns_connection, destination_client.
    cbn [access_key secret_key security_token Py.truthy_opt].
    rewrite Hk.
    repeat split;
      try (destruct (Py.truthy_opt (proxyHost a)); reflexivity).
    intros ->. eexists. split; [reflexivity |].
    destruct (Py.truthy_opt (proxyHost a)); split; reflexivity.
Qed.

(** ** The destination connection over the run (lines 203-209, 257) *)

(** The clients of the destination region that were created. *)
Definition clients_made (ev : Event) : list string :=
  match ev with
  | EvCall (Boto3Client region) Done => [region]
  | _ => []
  end.

(** The requests for a client of another region than the configured
    destination. *)
Definition other_clients (cfg : Config) (ev : Event) : list string :=
  match ev with
  | EvCall (Boto3Client region) _ =>
      match copy_region_name cfg with
      | Some r => if (region =? r)%string then [] else [region]
      | None => [region]
      end
  | _ => []
  end.

(** [dest_conn] is bound when a client was created, to the one created
    last. *)
Definition client_bound {W : Type} (st : State W) : Prop :=
  dest_conn st = latest (proj clients_made (trace st)).

Section Destination.
Context {W : Type}.
Variable P : Provider W.
Variable cfg : Config.
Variable fuel : nat.
Variable period : Period.
Variable date_suffix : string.

Lemma keeps_try_except {A} (I : State W -> Prop) (m : M W A)
  (h : Exn -> M W A) :
  keeps I m -> (forall e, keeps I (h e)) -> keeps I (try_except m h).
Proof.
  intros Hm Hh st Hst. unfold try_except. specialize (Hm st Hst).
  destruct (m st) as [st1 [a | e |]]; cbn [fst] in *; try assumption.
  apply Hh. assumption.
Qed.

Lemma keeps_client_bound {A} (m : M W A) :
  preserves (@dest_conn W) m ->
  preserves (fun st => proj clients_made (trace st)) m ->
  keeps client_bound m.
Proof.
  intros H1 H2 st Hst. unfold client_bound in *.
  rewrite H1. cbn beta in H2. rewrite H2. exact Hst.
Qed.

Lemma ship_snapshot_keeps_client_bound (region : string) (tgs : Py.dict)
  (descr : string) :
  keeps client_bound (ship_snapshot P cfg region tgs descr).
Proof.
  intros st Hst. unfold ship_snapshot, bind at 1, call at 1.
  destruct (boto3_client P (world st) region) as [w [[] | msg]].
  - unfold set_dest_conn. rewrite bind_modify.
    match goal with
    | |- client_bound (fst (?m ?s0)) =>
        assert (Hk : keeps client_bound m)
          by (apply keeps_client_bound; frame);
        apply Hk
    end.
    unfold client_bound. cbn [dest_conn trace answered].
    rewrite proj_snoc. cbn [clients_made]. rewrite latest_snoc.
    reflexivity.
  - unfold client_bound in *. cbn [fst dest_conn trace answered].
    rewrite proj_snoc. cbn [clients_made]. rewrite app_nil_r. exact Hst.
Qed.

Lemma volume_loop_keeps_client_bound (vols : list Volume) :
  keeps client_bound (volume_loop P cfg fuel period date_suffix vols).
Proof.
  unfold volume_loop. apply keeps_for_each. intro vol.
  unfold process_volume. apply keeps_try_except_else.
  - unfold volume_body, snapshot_step.
    apply keeps_bind; [apply keeps_bind | intros _].
    + apply keeps_client_bound; frame.
    + intros described. apply keeps_bind.
      * pose proof (set_resource_tags_keeps_id P) as Hid.
        apply keeps_client_bound; frame.
      * intros _. unfold copy_step.
        destruct (Py.truthy_opt (copy_region_name cfg));
          [| intros st Hst; exact Hst].
        cbv zeta. apply keeps_try_except.
        -- apply keeps_bind; [apply keeps_client_bound; frame | intros _].
           apply ship_snapshot_keeps_client_bound.
        -- intro e. apply keeps_client_bound; frame.
    + apply keeps_client_bound; frame.
  - intro e. apply keeps_client_bound; frame.
  - apply keeps_client_bound; frame.
Qed.

Lemma volume_loop_keeps_other_clients (vols : list Volume) :
  preserves (fun st => proj (other_clients cfg) (trace st))
    (volume_loop P cfg fuel period date_suffix vols).
Proof.
  unfold volume_loop. apply preserves_for_each. intro vol.
  unfold process_volume.
  apply preserves_try_except_else; [| intro; frame | frame].
  unfold volume_body. apply preserves_bind; [| intro; frame].
  unfold snapshot_step. apply preserves_bind; [frame | intro].
  apply preserves_bind; [frame | intro].
  unfold copy_step.
  destruct (copy_region_name cfg) as [r |] eqn:Er; cbn [Py.truthy_opt];
    [| apply preserves_ret].
  destruct (Py.truthy r); [| apply preserves_ret].
  cbv zeta. unfold ship_snapshot. frame.
  intros ans. cbn [other_clients]. rewrite Er, String.eqb_refl.
  reflexivity.
Qed.

(** X24.  Over the loop on the volumes [dest_conn] is bound exactly when
    a client of the destination region was created earlier in the run,
    by this volume or by an earlier one, and it is bound to the client
    created last; no client is requested for another region than the
    configured destination. *)
Theorem destination_bound_when_client_made (vols : list Volume)
  (st : State W) :
  dest_conn st = latest (proj clients_made (trace st)) ->
  let st' := fst (volume_loop P cfg fuel period date_suffix vols st) in
  dest_conn st' = latest (proj clients_made (trace st'))
  /\ (dest_conn st' = None <-> proj clients_made (trace st') = [])
  /\ proj (other_clients cfg) (trace st')
     = proj (other_clients cfg) (trace st).
Proof.
  intros Hst st'.
  pose proof (@volume_loop_keeps_client_bound vols st Hst) as Hb.
  fold st' in Hb. unfold client_bound in Hb.
  split; [exact Hb |]. split.
  - rewrite Hb. unfold latest.
    destruct (proj clients_made (trace st')) as [| x l] using rev_ind.
    + simpl. tauto.
    + rewrite map_app. cbn [map]. rewrite last_last.
      split; [discriminate |]. intros H. destruct l; discriminate.
  - apply volume_loop_keeps_other_clients.
Qed.

End Destination.

(** * The properties on concrete inputs *)

Lemma retention_selection_witness :
  let run := prune Double.provider Sample.replicated Day Sample.candidates
               Sample.cascade_state in
  proj deleted (trace (fst run)) = [Sample.old "1"; Sample.old "2"]
  /\ total_deletes (fst run) = 2%Z.
Proof.
  intros run.
  destruct (@retention_selection _ Double.provider Sample.replicated Day
              Sample.candidates 3 Sample.cascade_state eq_refl)
    as (_ & _ & H & _); [lia |].
  destruct H as [Hd Ht]; [vm_compute; reflexivity |].
  split.
  - etransitivity; [exact Hd | vm_compute; reflexivity].
  - etransitivity; [exact Ht | vm_compute; reflexivity].
Defined.

Lemma argv_rejected_witness :
  exists usage,
    main Double.provider Sample.plain 0 Sample.argv_year
      (initial Sample.second_broken)
    = (record (initial Sample.second_broken) [EvPrint usage],
       Raise SystemExit)
    /\ (usage = "Please add a positional argument: day, week or month."
        \/ usage = "Please use the parameter day, week or month")%string.
Proof.
  apply argv_rejected. right. simpl.
  intros [H | [H | [H | []]]]; discriminate H.
Defined.

Lemma tag_propagation_idempotent_witness :
  set_resource_tags Double.provider Sample.tags_of_volume
    (fst (set_resource_tags Double.provider Sample.tags_of_volume
            Sample.tagging_state))
  = (fst (set_resource_tags Double.provider Sample.tags_of_volume
            Sample.tagging_state),
     Ok tt).
Proof.
  refine (proj2 (@tag_propagation_idempotent _ Double.provider
                   Sample.tags_of_volume Sample.resource
                   Sample.tagging_state _ _ _ _)).
  - repeat constructor; simpl; intros H;
      repeat destruct H as [H | H]; try discriminate H; exact H.
  - reflexivity.
  - vm_compute. reflexivity.
Defined.

Lemma completion_wait_witness :
  (exists st',
      wait_completed Double.provider 5 Sample.tagging_state = (st', Ok tt)
      /\ trace st'
         = round "snap-0" "pending" ++ round "snap-0" "completed")
  /\ snd (wait_completed Double.provider 5 Sample.waiting_state) = OutOfFuel
  /\ length (trace (fst (wait_completed Double.provider 5
                           Sample.waiting_state)))
     = 15%nat.
Proof.
  destruct (completion_wait Double.provider Sample.replicated 0)
    as (_ & _ & Hends & Hret & _ & Hstuck).
  split.
  - assert (Hok : snd (wait_completed Double.provider 5 Sample.tagging_state)
                  = Ok tt).
    { apply (Hends 2%nat 5%nat Sample.resource Sample.tagging_state eq_refl);
        [vm_compute; right; left; reflexivity | lia]. }
    destruct (wait_completed Double.provider 5 Sample.tagging_state)
      as [st' r] eqn:E.
    cbn [snd] in Hok. subst r.
    exists st'. split; [reflexivity |].
    vm_compute in E. injection E as <-. reflexivity.
  - destruct (Hstuck (fun c => Double.pending c = None) 5%nat
                Sample.resource Sample.waiting_state)
      as (Hout & statuses & Hlen & Ht).
    + intros w i Hw. exists w, "pending"%string. simpl.
      unfold Double.c_update. rewrite Hw.
      split; [reflexivity | split; [discriminate | reflexivity]].
    + reflexivity.
    + reflexivity.
    + discriminate.
    + split; [exact Hout |].
      rewrite Ht, length_app. cbn [trace Sample.waiting_state length].
      rewrite (flat_map_constant_length (c := 3%nat)) by reflexivity.
      rewrite Hlen. reflexivity.
Defined.

Lemma unbound_destination_stops_pruning_witness :
  exists st',
    process_volume Double.provider Sample.plain 0 Day Sample.suffix
      (mkVolume "vol-1") (initial Sample.five_old)
    = (st', Ok tt)
    /\ proj deleted (trace st') = [Sample.old "1"]
    /\ count_errors st' = 1%Z
    /\ total_deletes st' = 0%Z.
Proof.
  destruct (@unbound_destination_stops_pruning _ Double.provider
              Sample.plain 0 Day Sample.suffix eq_refl (mkVolume "vol-1")
              (initial Sample.five_old)
              (fst (snapshot_step Double.provider Sample.plain 0 Day
                      Sample.suffix (mkVolume "vol-1")
                      (initial Sample.five_old)))
              (world (fst (snapshot_step Double.provider Sample.plain 0 Day
                             Sample.suffix (mkVolume "vol-1")
                             (initial Sample.five_old))))
              (Sample.candidates
               ++ [mkSnapshot "snap-0"
                     "day_snapshot vol-1_day_2021-01-01 by snapshot script at 2021-01-01"
                     "2021-01-01" "pending" []])
              3%Z)
    as (oldest & st' & e & Hhd & Hp & Hdel & _ & _ & He & _ & Htd & _).
  - reflexivity.
  - reflexivity.
  - lia.
  - vm_compute. reflexivity.
  - vm_compute. reflexivity.
  - vm_compute. reflexivity.
  - exists st'. vm_compute in Hhd. injection Hhd as <-.
    repeat split; assumption.
Defined.

Lemma one_failed_creation_of_three_witness :
  let st := initial Sample.second_broken in
  let st' := fst (volume_loop Double.provider Sample.plain 0 Day
                    Sample.suffix Sample.three_volumes st) in
  count_success st' = (count_success st + 3)%Z
  /\ count_errors st' = count_errors st
  /\ total_creates st' = (total_creates st + 2)%Z
  /\ count_total st' = (count_total st + 3)%Z.
Proof.
  intros st st'.
  apply (@one_failed_creation_of_three _ Double.provider Sample.plain 0 Day
           Sample.suffix (mkVolume "vol-1") (mkVolume "vol-2")
           (mkVolume "vol-3") st st'
           (ProviderError
              (CreateSnapshot "vol-2"
                 "day_snapshot vol-2_day_2021-01-01 by snapshot script at 2021-01-01")
              "SnapshotLimitExceeded")).
  - vm_compute. reflexivity.
  - vm_compute. reflexivity.
  - reflexivity.
Defined.

(** One of three volumes throws during creation and nothing else is
    raised: the report shows 3 succeeded and 0 errored, not 2 and 1. *)
Lemma creation_failure_counted_as_success :
  let st' := fst (main Double.provider Sample.plain 0 Sample.argv_day
                    (initial Sample.second_broken)) in
  proj raised (trace st')
  = [ProviderError
       (CreateSnapshot "vol-2"
          "day_snapshot vol-2_day_2021-01-01 by snapshot script at 2021-01-01")
       "SnapshotLimitExceeded"]
  /\ count_success st' = 3%Z
  /\ count_errors st' = 0%Z
  /\ total_creates st' = 2%Z
  /\ ~ (count_success st' = 2%Z /\ count_errors st' = 1%Z).
Proof.
  vm_compute. repeat split; try reflexivity. intros [H _]. discriminate H.
Qed.

(** An exception raised while the second volume is processed is caught
    by the creation step: no volume id is logged, [errmsg] stays empty
    and the error counter is not incremented. *)
Lemma creation_error_not_counted :
  let st' := fst (main Double.provider Sample.plain 0 Sample.argv_day
                    (initial Sample.second_broken)) in
  proj raised (trace st')
  = [ProviderError
       (CreateSnapshot "vol-2"
          "day_snapshot vol-2_day_2021-01-01 by snapshot script at 2021-01-01")
       "SnapshotLimitExceeded"]
  /\ proj logged_errors (trace st') = ["SnapshotLimitExceeded"%string]
  /\ errmsg st' = EmptyString
  /\ count_errors st' = 0%Z.
Proof. vm_compute. repeat split; reflexivity. Qed.


(** The creation fails for the second of two volumes as for the first:
    the copy step of the second volume raises on the unbound name as
    well, and no status or copy request is made in the whole run. *)
Lemma later_volume_without_earlier_snapshot :
  let st' := fst (main Double.provider Sample.replicated 3 Sample.argv_day
                    (initial Sample.both_broken)) in
  proj raised (trace st')
  = [ProviderError
       (CreateSnapshot "vol-1"
          "day_snapshot vol-1_day_2021-01-01 by snapshot script at 2021-01-01")
       "SnapshotLimitExceeded";
     NameError "current_snap";
     ProviderError
       (CreateSnapshot "vol-2"
          "day_snapshot vol-2_day_2021-01-01 by snapshot script at 2021-01-01")
       "SnapshotLimitExceeded";
     NameError "current_snap"]
  /\ proj copy_requests (trace st') = []
  /\ proj (foreign EmptyString) (trace st') = [].
Proof. vm_compute. repeat split; reflexivity. Qed.

Lemma failed_creation_copies_earlier_snapshot_witness :
  let descr :=
    "day_snapshot vol-2_day_2021-01-01 by snapshot script at 2021-01-01"%string
  in
  let st0 := fst (volume_loop Double.provider Sample.replicated 3 Day
                    Sample.suffix [mkVolume "vol-1"]
                    (initial Sample.second_broken)) in
  let sta := fst (describe_volume Double.provider Day Sample.suffix
                    (mkVolume "vol-2") st0) in
  let stb := fst (create_step Double.provider (mkVolume "vol-2") [] descr
                    sta) in
  let stc := fst (copy_step Double.provider Sample.replicated 3 [] descr
                    stb) in
  bound_id stb = Some "snap-0"%string
  /\ proj copy_requests (trace stc)
     = proj copy_requests (trace stb)
       ++ [CopySnapshot "eu-west-1" "snap-0"
             ("[Copied from eu-west-1] " ++ descr)].
Proof.
  intros descr st0 sta stb stc.
  destruct (@failed_creation_copies_earlier_snapshot _ Double.provider
              Sample.replicated 3 Day Sample.suffix eq_refl
              [mkVolume "vol-1"] (mkVolume "vol-2")
              (initial Sample.second_broken) st0 sta [] descr
              (world sta) "SnapshotLimitExceeded")
    as (Hb & _ & _ & Hsome).
  - reflexivity.
  - reflexivity.
  - vm_compute. reflexivity.
  - vm_compute. reflexivity.
  - vm_compute. reflexivity.
  - destruct (Hsome "snap-0"%string) as (_ & _ & Hcopy).
    + vm_compute. reflexivity.
    + split.
      * etransitivity; [exact Hb | vm_compute; reflexivity].
      * apply (Hcopy stb (world stb)); vm_compute; reflexivity.
Defined.


(** Two runs on the double: the first creates and copies a snapshot,
    the second, which keeps nothing, deletes it and its copy. *)
Example round_trip_on_double :
  let first := fst (main Double.provider Sample.replicated 3 Sample.argv_day
                      (initial Sample.empty_volume)) in
  let second := fst (main Double.provider Sample.purge 3 Sample.argv_day
                       (initial (world first))) in
  map Double.dest_tags (Double.destination (world first))
  = [[("source_snapshot_id", "snap-0"); ("Name", "snap-0")]]%string
  /\ total_copies first = 1%Z
  /\ total_deletes second = 2%Z
  /\ Double.source (world second) = []
  /\ Double.destination (world second) = [].
Proof. vm_compute. repeat split; reflexivity. Qed.

(** Scenario A on the double: five daily snapshots and a new one, three
    are kept: the three oldest are deleted and the new one stays. *)
Example scenario_oldest_three_deleted :
  let st' := fst (main Double.provider Sample.replicated 3 Sample.argv_day
                    (initial Sample.five_old)) in
  proj deleted (trace st')
  = [Sample.old "1"; Sample.old "2"; Sample.old "3"]
  /\ total_creates st' = 1%Z
  /\ total_deletes st' = 3%Z
  /\ map (fun e => snap_id (snd e)) (Double.source (world st'))
     = ["snap-old-5"; "snap-old-4"; "snap-0"]%string.
Proof. vm_compute. repeat split; reflexivity. Qed.

(** ** The further properties on concrete inputs *)

Lemma resource_tags_lookup_witness :
  exists d,
    get_resource_tags Double.provider "vol-1" (initial Cases.tagged_volume)
    = (answered (initial Cases.tagged_volume) Cases.tagged_volume
         (GetAllTags "vol-1") (GotTags Cases.listed_tags),
       Ok d)
    /\ NoDup (Py.keys d)
    /\ forall k,
         Py.get d k
         = if Py.startswith k "aws:" then None
           else Py.get (rev Cases.listed_tags) k.
Proof.
  apply (proj2 (resource_tags_lookup Double.provider "vol-1"
                  (initial Cases.tagged_volume)));
    reflexivity.
Defined.

Lemma tags_reach_snapshot_witness :
  let st1 := fst (set_resource_tags Double.provider Sample.tags_of_volume
                    Sample.tagging_state) in
  exists r',
    current_snap st1 = Some r'
    /\ snap_id r' = snap_id Sample.resource
    /\ (forall k v, In (k, v) Sample.tags_of_volume ->
          Py.get (tags r') k = Some v)
    /\ (forall k, ~ In k (Py.keys Sample.tags_of_volume) ->
          Py.get (tags r') k = Py.get (tags Sample.resource) k).
Proof.
  intros st1.
  apply (@tags_reach_snapshot _ Double.provider Sample.tags_of_volume
           Sample.resource Sample.tagging_state st1).
  - repeat constructor; simpl; intros H;
      repeat destruct H as [H | H]; try discriminate H; exact H.
  - reflexivity.
  - vm_compute. reflexivity.
Defined.

Lemma tagging_stops_at_rejection_witness :
  let P := Faulty.provider [Faulty.OpAddTag] in
  set_resource_tags P
    [("Name", "old"); ("Env", "prod"); ("Owner", "ops")]%string
    Sample.tagging_state
  = (answered
       (record Sample.tagging_state
          [tagging_line Sample.resource "Env" "prod"])
       Sample.five_old (AddTag "snap-0" "Env" "prod")
       (Refused "ServiceUnavailable"),
     Raise (ProviderError (AddTag "snap-0" "Env" "prod")
              "ServiceUnavailable")).
Proof.
  intros P.
  apply (@tagging_stops_at_rejection _ P [("Name", "old")]%string
           [("Owner", "ops")]%string "Env" "prod" Sample.resource
           Sample.tagging_state Sample.tagging_state Sample.five_old
           "ServiceUnavailable");
    reflexivity.
Defined.

Lemma untagged_snapshot_not_counted_witness :
  let P := Faulty.provider [Faulty.OpAddTag] in
  let st' := fst (create_step P (mkVolume "vol-1") [("Name", "db")]%string
                    "d" (initial Sample.empty_volume)) in
  snd (create_step P (mkVolume "vol-1") [("Name", "db")]%string "d"
         (initial Sample.empty_volume))
  = Ok tt
  /\ total_creates st' = 0%Z
  /\ bound_id st' = Some "snap-0"%string
  /\ proj created (trace st') = ["snap-0"%string].
Proof.
  intros P st'.
  destruct (@untagged_snapshot_not_counted _ P (mkVolume "vol-1")
              [("Name", "db")]%string "d" (initial Sample.empty_volume)
              (fst (set_resource_tags P [("Name", "db")]%string
                      (bound_to (initial Sample.empty_volume)
                         (fst (Double.c_create_snapshot Sample.empty_volume
                                 "vol-1" "d"))
                         (CreateSnapshot "vol-1" "d")
                         (mkSnapshot "snap-0" "d" "2021-01-01" "pending"
                            []))))
              (fst (Double.c_create_snapshot Sample.empty_volume "vol-1"
                      "d"))
              (mkSnapshot "snap-0" "d" "2021-01-01" "pending" [])
              (ProviderError (AddTag "snap-0" "Name" "db")
                 "ServiceUnavailable"))
    as (Hrun & Hn & Hb & Hc).
  - reflexivity.
  - vm_compute. reflexivity.
  - unfold st'. rewrite Hrun. cbn [fst snd].
    split; [reflexivity |]. split; [exact Hn |]. split; [exact Hb |].
    exact Hc.
Defined.

Lemma own_description_is_candidate_witness :
  is_candidate Day (Cases.description_of "vol-1" "day") = true
  /\ is_candidate Week (Cases.description_of "vol-1" "day") = false.
Proof.
  pose proof (@own_description_is_candidate _ Double.provider Day
                Sample.suffix (mkVolume "vol-1") (initial Sample.five_old)
                (fst (describe_volume Double.provider Day Sample.suffix
                        (mkVolume "vol-1") (initial Sample.five_old)))
                [("Name", "db")]%string
                (Cases.description_of "vol-1" "day"))
    as H.
  assert (Hrun : describe_volume Double.provider Day Sample.suffix
                   (mkVolume "vol-1") (initial Sample.five_old)
                 = (fst (describe_volume Double.provider Day Sample.suffix
                           (mkVolume "vol-1") (initial Sample.five_old)),
                    Ok ([("Name", "db")]%string,
                        Cases.description_of "vol-1" "day")))
    by (vm_compute; reflexivity).
  split.
  - apply (H Hrun Day). reflexivity.
  - destruct (is_candidate Week (Cases.description_of "vol-1" "day")) eqn:E;
      [| reflexivity].
    apply (H Hrun Week) in E. discriminate E.
Defined.

Lemma pruning_deletes_oldest_first_witness :
  let st := initial Sample.five_old in
  let candidates := sort_by date_compare (classify Day Sample.candidates) in
  let st' := fst (retention_step Double.provider Sample.plain Day
                    (mkVolume "vol-1") st) in
  exists m,
    (Z.of_nat m <= Z.max 0 (Z.of_nat (length candidates) - 3))%Z
    /\ proj deleted (trace st')
       = proj deleted (trace st) ++ firstn m candidates
    /\ (total_deletes st <= total_deletes st'
        <= total_deletes st + Z.of_nat m)%Z.
Proof.
  intros st candidates st'.
  apply (@pruning_deletes_oldest_first _ Double.provider Sample.plain Day
           (mkVolume "vol-1") 3%Z st Sample.five_old Sample.candidates);
    reflexivity.
Defined.

Lemma pruning_completed_witness :
  let st := Sample.cascade_state in
  let st' := fst (retention_step Double.provider Sample.purge Day
                    (mkVolume "vol-1") st) in
  exists w snaps,
    snapshots Double.provider (world st) "vol-1" = (w, Ret snaps)
    /\ (0 <= 0)%Z
    /\ proj deleted (trace st')
       = proj deleted (trace st)
         ++ firstn (Z.to_nat (Z.of_nat
                                (length (sort_by date_compare
                                           (classify Day snaps))) - 0))
              (sort_by date_compare (classify Day snaps))
    /\ total_deletes st'
       = (total_deletes st
          + Z.of_nat (Z.to_nat (Z.of_nat
                                  (length (sort_by date_compare
                                             (classify Day snaps))) - 0)))%Z.
Proof.
  intros st st'.
  apply (@pruning_completed _ Double.provider Sample.purge Day
           (mkVolume "vol-1") 0%Z st st').
  - reflexivity.
  - vm_compute. reflexivity.
Defined.

Lemma negative_keep_fails_volume_witness :
  let st := initial Sample.empty_volume in
  let st' := fst (process_volume Double.provider Cases.negative 0 Day
                    Sample.suffix (mkVolume "vol-1") st) in
  count_errors st' = (count_errors st + 1)%Z
  /\ count_success st' = count_success st.
Proof.
  intros st st'.
  destruct (@negative_keep_fails_volume _ Double.provider Cases.negative 0
              Day Sample.suffix (-1)%Z)
    as [_ H].
  - reflexivity.
  - lia.
  - apply (H (mkVolume "vol-1") st st'). vm_compute. reflexivity.
Defined.

Lemma errmsg_lists_errored_volumes_witness :
  let st := initial Sample.five_old in
  let vols := [mkVolume "vol-1"] in
  let st' := fst (volume_loop Double.provider Sample.plain 0 Day
                    Sample.suffix vols st) in
  exists flags,
    length flags = length vols
    /\ errmsg st' = with_errors (errmsg st) (picked vols flags)
    /\ count_errors st'
       = (count_errors st + Z.of_nat (length (picked vols flags)))%Z
    /\ count_success st'
       = (count_success st + Z.of_nat (length vols)
          - Z.of_nat (length (picked vols flags)))%Z
    /\ (errmsg st = EmptyString ->
        (errmsg st' = EmptyString <-> count_errors st' = count_errors st)).
Proof.
  intros st vols st'.
  apply (@errmsg_lists_errored_volumes _ Double.provider Sample.plain 0 Day
           Sample.suffix vols st st').
  vm_compute. reflexivity.
Defined.

Lemma no_topic_no_notification_witness :
  proj published
    (trace (fst (main Double.provider Sample.plain 0 Sample.argv_day
                   (initial Sample.second_broken))))
  = proj published (trace (initial Sample.second_broken)).
Proof.
  apply (@no_topic_no_notification _ Double.provider Sample.plain 0
           Sample.argv_day (initial Sample.second_broken)).
  reflexivity.
Defined.

Lemma summary_notifications_witness :
  let topic := "arn:aws:sns:eu-west-1:1:backup"%string in
  let st := Cases.after_failure in
  let st' := fst (summary Double.provider Cases.notified st) in
  message st' = report_of Double.provider st
  /\ proj published (trace st')
     = proj published (trace st)
       ++ (if Py.truthy (errmsg st)
           then [(topic, "Error in processing volumes: " ++ errmsg st,
                  "Error with AWS Snapshot")]%string
           else [])
       ++ [(topic, report_of Double.provider st,
            "Finished AWS snapshotting"%string)]
  /\ (exists before,
         trace st' = before ++ [EvLog INFO (result_of Double.provider st)]
         /\ In (EvPrint (nl ++ report_of Double.provider st ++ nl)%string)
              before).
Proof.
  intros topic st st'.
  apply (@summary_notifications _ Double.provider Cases.notified topic st
           st').
  - reflexivity.
  - reflexivity.
  - vm_compute. reflexivity.
Defined.

Lemma rejected_notification_ends_script_witness :
  let P := Faulty.provider [Faulty.OpPublish] in
  let st := Cases.after_failure in
  let st' := fst (summary P Cases.notified st) in
  (exists topic m subject msg,
      arn Cases.notified = Some topic
      /\ ProviderError
           (SnsPublish "arn:aws:sns:eu-west-1:1:backup"
              "Error in processing volumes: Error in processing volume with id: vol-1"
              "Error with AWS Snapshot")
           "ServiceUnavailable"
         = ProviderError (SnsPublish topic m subject) msg)
  /\ message st' = report_of P st
  /\ exists more,
       trace st'
       = trace st
         ++ [EvPrint (nl ++ report_of P st ++ nl)%string;
             EvPrint (result_of P st)]
         ++ more
       /\ Forall is_publish more.
Proof.
  intros P st st'.
  apply (@rejected_notification_ends_script _ P Cases.notified st).
  vm_compute. reflexivity.
Defined.

Lemma listing_failure_aborts_run_witness :
  let P := Faulty.provider [Faulty.OpVolumes] in
  let st := initial Sample.five_old in
  let request := volumes_request Sample.plain in
  main P Sample.plain 0 Sample.argv_day st
  = (answered (started P Sample.plain Day st) Sample.five_old request
       (Refused "ServiceUnavailable"),
     Raise (ProviderError request "ServiceUnavailable"))
  /\ trace (fst (main P Sample.plain 0 Sample.argv_day st))
     = trace st ++ preamble P Sample.plain Day st
       ++ [EvCall request (Refused "ServiceUnavailable")].
Proof.
  intros P st request.
  apply (@listing_failure_aborts_run _ P Sample.plain 0 Sample.argv_day Day
           st Sample.five_old "ServiceUnavailable").
  - simpl. lia.
  - reflexivity.
  - reflexivity.
Defined.

Lemma no_volumes_run_witness :
  let P := Double.provider in
  let st := initial Cases.no_volumes in
  let st1 := answered (started P Sample.plain Day st) Cases.no_volumes
               (volumes_request Sample.plain) (GotVolumes []) in
  main P Sample.plain 0 Sample.argv_day st = summary P Sample.plain st1
  /\ proj requested (trace (fst (main P Sample.plain 0 Sample.argv_day st)))
     = proj requested (trace st) ++ [volumes_request Sample.plain]
  /\ (count_total st1, count_success st1, count_errors st1)
     = (count_total st, count_success st, count_errors st)
  /\ (total_creates st1, total_copies st1, total_deletes st1)
     = (total_creates st, total_copies st, total_deletes st)
  /\ (Py.truthy_opt (arn Sample.plain) = false ->
      snd (main P Sample.plain 0 Sample.argv_day st) = Ok tt).
Proof.
  intros P st st1.
  apply (@no_volumes_run _ P Sample.plain 0 Sample.argv_day Day st
           Cases.no_volumes).
  - simpl. lia.
  - reflexivity.
  - reflexivity.
Defined.

Lemma tag_lookup_failure_skips_volume_witness :
  let P := Faulty.provider [Faulty.OpTags] in
  let st := initial Sample.five_old in
  let vol := mkVolume "vol-1" in
  let lookup := GetAllTags "vol-1" in
  let st' := fst (process_volume P Sample.plain 0 Day Sample.suffix vol st)
  in
  process_volume P Sample.plain 0 Day Sample.suffix vol st
  = (failed vol (ProviderError lookup "ServiceUnavailable")
       (answered (counted vol st) Sample.five_old lookup
          (Refused "ServiceUnavailable")),
     Ok tt)
  /\ proj requested (trace st') = proj requested (trace st) ++ [lookup]
  /\ count_errors st' = (count_errors st + 1)%Z
  /\ count_total st' = (count_total st + 1)%Z.
Proof.
  intros P st vol lookup st'.
  apply (@tag_lookup_failure_skips_volume _ P Sample.plain 0 Day
           Sample.suffix vol st Sample.five_old "ServiceUnavailable");
    reflexivity.
Defined.

Lemma failed_first_creation_breaks_pruning_witness :
  let st := initial Cases.broken_history in
  let st' := fst (process_volume Double.provider Sample.replicated 3 Day
                    Sample.suffix (mkVolume "vol-1") st) in
  proj deleted (trace st') = [Sample.old "1"]
  /\ proj raised (trace st')
     = [ProviderError
          (CreateSnapshot "vol-1" (Cases.description_of "vol-1" "day"))
          "SnapshotLimitExceeded";
        NameError "current_snap"; NameError "dest_conn"]
  /\ count_errors st' = 1%Z
  /\ total_deletes st' = 0%Z.
Proof.
  intros st st'.
  destruct (@failed_first_creation_breaks_pruning _ Double.provider
              Sample.replicated 3 Day Sample.suffix (mkVolume "vol-1") st
              (fst (describe_volume Double.provider Day Sample.suffix
                      (mkVolume "vol-1") st))
              [] (Cases.description_of "vol-1" "day") Cases.broken_history
              Cases.broken_history "SnapshotLimitExceeded"
              Sample.candidates 3%Z)
    as (oldest & s' & e & Hhd & Hp & Hr & He & Hd & _ & Hce & _ & _ & Htd).
  - reflexivity.
  - reflexivity.
  - reflexivity.
  - vm_compute. reflexivity.
  - reflexivity.
  - vm_compute. reflexivity.
  - reflexivity.
  - vm_compute. split; [discriminate | reflexivity].
  - vm_compute in Hhd. injection Hhd as <-.
    assert (Hs : st' = s') by (unfold st'; rewrite Hp; reflexivity).
    rewrite Hs, Hd, Hr, He, Hce, Htd by reflexivity.
    repeat split; reflexivity.
Defined.

Lemma uncaught_exceptions_of_run_witness :
  let P := Faulty.provider [Faulty.OpVolumes] in
  let e := ProviderError (volumes_request Sample.plain) "ServiceUnavailable"
  in
  (e = SystemExit
   /\ ((length Sample.argv_day < 2)%nat
       \/ ~ In (nth 1 Sample.argv_day EmptyString)
              ["day"; "week"; "month"]%string))
  \/ (exists msg, e = ProviderError (volumes_request Sample.plain) msg)
  \/ (exists topic m subject msg,
         arn Sample.plain = Some topic
         /\ e = ProviderError (SnsPublish topic m subject) msg).
Proof.
  intros P e.
  apply (@uncaught_exceptions_of_run _ P Sample.plain 0 Sample.argv_day
           (initial Sample.five_old) e).
  vm_compute. reflexivity.
Defined.

Lemma role_token_not_passed_to_sns_witness :
  exists l,
    login Cases.with_role (fun _ => Ret Cases.temporary) = Ret l
    /\ key_id (ec2_connection Cases.notified Cases.with_role l)
       = Some "ASIAEXAMPLE"%string
    /\ token (ec2_connection Cases.notified Cases.with_role l)
       = Some "session"%string
    /\ key_id (destination_client Cases.notified l)
       = Some "ASIAEXAMPLE"%string
    /\ token (destination_client Cases.notified l) = Some "session"%string
    /\ (Py.truthy_opt (arn Cases.notified) = true ->
        exists s,
          sns_connection Cases.notified Cases.with_role l = Some s
          /\ key_id s = Some "ASIAEXAMPLE"%string
          /\ token s
             = if Py.truthy_opt (proxyHost Cases.with_role)
               then Some "session"%string
               else None).
Proof.
  apply (@role_token_not_passed_to_sns Cases.notified Cases.with_role
           (fun _ => Ret Cases.temporary) "arn:aws:iam::1:role/backup"
           Cases.temporary);
    reflexivity.
Defined.

Lemma pruning_ends_when_accepted_witness :
  snd (retention_step Double.provider Sample.purge Day (mkVolume "vol-1")
         Sample.cascade_state)
  = Ok tt.
Proof.
  apply (@pruning_ends_when_accepted _ Double.provider Sample.purge Day)
    with (k := 0%Z) (c := "us-east-1"%string).
  - intros w i. eexists. eexists. reflexivity.
  - intros w i. eexists. reflexivity.
  - intros w o f v. eexists. eexists. reflexivity.
  - intros w i. eexists. reflexivity.
  - reflexivity.
  - lia.
  - reflexivity.
Defined.

Lemma deletion_accepted_but_not_counted_witness :
  let st := initial Sample.five_old in
  let st' := fst (delete_with_cascade Double.provider [Sample.old "1"] 0 st)
  in
  proj deletions_accepted (trace st')
  = proj deletions_accepted (trace st) ++ [Sample.old "1"]
  /\ total_deletes st' = total_deletes st.
Proof.
  intros st st'.
  apply (@deletion_accepted_but_not_counted _ Double.provider
           [Sample.old "1"] 0%nat (Sample.old "1") st st'
           (NameError "dest_conn")).
  - reflexivity.
  - vm_compute. reflexivity.
  - intros msg. discriminate.
Defined.

Lemma destination_bound_when_client_made_witness :
  let st := initial Sample.empty_volume in
  let st' := fst (volume_loop Double.provider Sample.replicated 3 Day
                    Sample.suffix [mkVolume "vol-1"] st) in
  dest_conn st' = latest (proj clients_made (trace st'))
  /\ (dest_conn st' = None <-> proj clients_made (trace st') = [])
  /\ proj (other_clients Sample.replicated) (trace st')
     = proj (other_clients Sample.replicated) (trace st).
Proof.
  intros st st'.
  apply (@destination_bound_when_client_made _ Double.provider
           Sample.replicated 3 Day Sample.suffix [mkVolume "vol-1"] st).
  reflexivity.
Defined.
